(** * The todo store of [server.py]: a shallow embedding and its properties

    [server.py] keeps a task list in one JSON file and exposes six
    operations on it ([add_task], [list_tasks], [complete_task],
    [delete_task], [update_task], [clear_completed]).  Every operation
    reloads the file, works on the loaded dictionary and writes it back
    with [_save_db].

    The development follows the source function by function:
    - Python values as they come out of [json.load] ([value]);
    - the builtins the program applies to them ([int], [bool], [str],
      [str.strip], [dict.get], item assignment);
    - exceptions as a [result] type, the file as an explicit [store]
      threaded through a small state-and-exception monad [M];
    - the clock as an argument of each invocation: [clock k] is what
      [datetime.utcnow().replace(microsecond=0).isoformat()] returns at
      the k-th place where the invocation may call [_now_iso] (for
      [list_tasks], the record at position k; for [complete_task], 0 when
      the record is read and 1 when the task is stamped).  The readings
      are arbitrary strings, so every run of the program is covered.

    The file is modelled by what [open] and [json.load] make of it
    ([medium]): [_save_db] leaves the JSON text of the dictionary it is
    given, which [json.load] reads back as that dictionary.  Failures of
    the file system other than an undecodable file are not modelled. *)

From Stdlib Require Import ZArith List Bool Ascii String Lia.
From Stdlib Require Import DecimalString Permutation Sorted.
Import ListNotations.

Local Set Warnings "-register-all".
Local Open Scope string_scope.
Local Open Scope Z_scope.

(** ** Python values *)

(** A float is a dyadic number [m * 2^e], a NaN or an infinity.  The
    program never computes with floats: it can only meet one in the file
    (or as an argument) and pass it to [int], [bool] or [str]. *)
Inductive fnum : Type :=
| FNan
| FInf (negative : bool)
| FFin (m e : Z).

(** [float_text] is what [repr] prints for the float, given by its first
    character and the rest: the text of a float is never empty. *)
Record pyfloat : Type := PyFloat {
  float_num : fnum;
  float_text : ascii * string
}.

(** The values [json.load] builds.  A dictionary is its list of items in
    insertion order; its keys are pairwise distinct in every dictionary
    the interpreter builds.  A character of a [string] stands for the
    code point of the same number (U+0000 to U+00FF). *)
Inductive value : Type :=
| VNone
| VBool (b : bool)
| VInt (z : Z)
| VFloat (f : pyfloat)
| VStr (s : string)
| VList (l : list value)
| VDict (items : list (string * value)).

Definition dict : Type := list (string * value).

(** ** Exceptions *)

Inductive message : Type :=
| title_must_be_non_empty            (* "title must be a non-empty string" *)
| title_must_be_non_empty_provided   (* "title must be non-empty when provided" *)
| task_id_not_found (task_id : value) (* f"task_id {task_id} not found" *)
| invalid_literal                    (* raised by int() on a str *)
| cannot_convert_nan.                (* raised by int() on a NaN *)

Inductive exn : Type :=
| ValueError (msg : message)
| TypeError
| AttributeError
| KeyError
| IndexError
| OverflowError
| UnicodeDecodeError.

Inductive result (A : Type) : Type :=
| Ok (a : A)
| Raise (e : exn).
Arguments Ok {A} a.
Arguments Raise {A} e.

Definition rbind {A B} (r : result A) (k : A -> result B) : result B :=
  match r with
  | Ok a => k a
  | Raise e => Raise e
  end.

Declare Scope result_scope.
Delimit Scope result_scope with result.
Notation "x <- r ;; k" := (rbind r (fun x => k))
  (at level 61, r at next level, right associativity) : result_scope.

(** ** Builtins *)

(** [str.isspace] on the code points below 256. *)
Definition is_space (c : ascii) : bool :=
  let n := nat_of_ascii c in
  (((9 <=? n) && (n <=? 13)) || ((28 <=? n) && (n <=? 32))
   || (n =? 133) || (n =? 160))%nat.

Definition is_empty (s : string) : bool :=
  match s with
  | EmptyString => true
  | String _ _ => false
  end.

Fixpoint lstrip (s : string) : string :=
  match s with
  | EmptyString => EmptyString
  | String c s' => if is_space c then lstrip s' else s
  end.

Fixpoint rstrip (s : string) : string :=
  match s with
  | EmptyString => EmptyString
  | String c s' =>
      let r := rstrip s' in
      if is_space c && is_empty r then EmptyString else String c r
  end.

(** [s.strip()] *)
Definition strip (s : string) : string := rstrip (lstrip s).

(** [bool(v)] *)
Definition py_bool (v : value) : bool :=
  match v with
  | VNone => false
  | VBool b => b
  | VInt z => negb (z =? 0)
  | VFloat f =>
      match float_num f with
      | FFin m _ => negb (m =? 0)
      | _ => true
      end
  | VStr s => negb (is_empty s)
  | VList l => match l with [] => false | _ => true end
  | VDict d => match d with [] => false | _ => true end
  end.

Definition is_digit (c : ascii) : bool :=
  let n := nat_of_ascii c in ((48 <=? n) && (n <=? 57))%nat.

Definition digit_val (c : ascii) : Z := Z.of_nat (nat_of_ascii c) - 48.

(** The digits of an integer literal: a digit, then digits with single
    underscores allowed between them.  [acc] is the value read so far and
    [after_digit] tells whether the previous character was a digit. *)
Fixpoint parse_digits (acc : Z) (after_digit : bool) (s : string) : option Z :=
  match s with
  | EmptyString => if after_digit then Some acc else None
  | String c s' =>
      if is_digit c then parse_digits (10 * acc + digit_val c) true s'
      else if Ascii.eqb c "_"
           then if after_digit then parse_digits acc false s' else None
           else None
  end.

(** The white space [int] skips around a literal: the characters 9 to 13
    and 32, and the Unicode spaces U+0085 and U+00A0.  The separators
    U+001C to U+001F, which [str.strip] drops, are not skipped: [int]
    raises [ValueError] on them. *)
Definition is_int_space (c : ascii) : bool :=
  let n := nat_of_ascii c in
  (((9 <=? n) && (n <=? 13)) || (n =? 32) || (n =? 133) || (n =? 160))%nat.

Fixpoint skip_left (s : string) : string :=
  match s with
  | EmptyString => EmptyString
  | String c s' => if is_int_space c then skip_left s' else s
  end.

Fixpoint skip_right (s : string) : string :=
  match s with
  | EmptyString => EmptyString
  | String c s' =>
      let r := skip_right s' in
      if is_int_space c && is_empty r then EmptyString else String c r
  end.

(** [int(s)] for a string: surrounding white space is skipped, a sign may
    come first.  (The interpreter's cap on the length of a literal is not
    modelled.) *)
Definition int_of_string (s : string) : result Z :=
  let body := skip_right (skip_left s) in
  let parsed :=
    match body with
    | String "-" digits => option_map Z.opp (parse_digits 0 false digits)
    | String "+" digits => parse_digits 0 false digits
    | _ => parse_digits 0 false body
    end in
  match parsed with
  | Some z => Ok z
  | None => Raise (ValueError invalid_literal)
  end.

(** [int(x)] for a float: truncation towards zero. *)
Definition int_of_float (f : pyfloat) : result Z :=
  match float_num f with
  | FNan => Raise (ValueError cannot_convert_nan)
  | FInf _ => Raise OverflowError
  | FFin m e => Ok (if 0 <=? e then m * 2 ^ e else Z.quot m (2 ^ (- e)))
  end.

(** [int(v)] *)
Definition py_int (v : value) : result Z :=
  match v with
  | VNone => Raise TypeError
  | VBool b => Ok (if b then 1 else 0)
  | VInt z => Ok z
  | VFloat f => int_of_float f
  | VStr s => int_of_string s
  | VList _ => Raise TypeError
  | VDict _ => Raise TypeError
  end.

Definition hex_digit (n : nat) : ascii :=
  ascii_of_nat (if (n <? 10)%nat then 48 + n else 87 + n).

Definition backslash : ascii := ascii_of_nat 92.

Definition escaped (c : ascii) : string := String backslash (String c EmptyString).

(** [repr] of one character inside the quotes [q]. *)
Definition repr_char (q c : ascii) : string :=
  let n := nat_of_ascii c in
  if Ascii.eqb c q || Ascii.eqb c backslash then escaped c
  else if (n =? 9)%nat then escaped "t"
  else if (n =? 10)%nat then escaped "n"
  else if (n =? 13)%nat then escaped "r"
  else if ((n <? 32) || ((127 <=? n) && (n <=? 160)) || (n =? 173))%nat
       then String backslash
              (String "x" (String (hex_digit (n / 16))
                             (String (hex_digit (n mod 16)) EmptyString)))
       else String c EmptyString.

Fixpoint contains (c : ascii) (s : string) : bool :=
  match s with
  | EmptyString => false
  | String c' s' => Ascii.eqb c c' || contains c s'
  end.

Fixpoint repr_chars (q : ascii) (s : string) : string :=
  match s with
  | EmptyString => EmptyString
  | String c s' => repr_char q c ++ repr_chars q s'
  end.

Definition double_quote : ascii := ascii_of_nat 34.

(** [repr(s)] for a string: single quotes, unless the string holds a
    single quote and no double quote. *)
Definition repr_string (s : string) : string :=
  let q := if contains "'" s && negb (contains double_quote s)
           then double_quote else "'"%char in
  String q (repr_chars q s ++ String q EmptyString).

Definition string_of_Z (z : Z) : string := NilZero.string_of_int (Z.to_int z).

(** [repr(v)] *)
Fixpoint py_repr (v : value) : string :=
  match v with
  | VNone => "None"
  | VBool true => "True"
  | VBool false => "False"
  | VInt z => string_of_Z z
  | VFloat f => String (fst (float_text f)) (snd (float_text f))
  | VStr s => repr_string s
  | VList l =>
      "[" ++ (fix elements (l : list value) : string :=
                match l with
                | [] => EmptyString
                | x :: l' =>
                    match l' with
                    | [] => py_repr x
                    | _ :: _ => py_repr x ++ ", " ++ elements l'
                    end
                end) l ++ "]"
  | VDict d =>
      "{" ++ (fix elements (d : list (string * value)) : string :=
                match d with
                | [] => EmptyString
                | (k, x) :: d' =>
                    match d' with
                    | [] => repr_string k ++ ": " ++ py_repr x
                    | _ :: _ => repr_string k ++ ": " ++ py_repr x ++ ", " ++ elements d'
                    end
                end) d ++ "}"
  end.

(** [str(v)] *)
Definition py_str (v : value) : string :=
  match v with
  | VStr s => s
  | _ => py_repr v
  end.

(** [isinstance(v, int)]: a [bool] is an [int] too. *)
Definition isinstance_int (v : value) : bool :=
  match v with
  | VInt _ | VBool _ => true
  | _ => false
  end.

Definition isinstance_list (v : value) : bool :=
  match v with
  | VList _ => true
  | _ => false
  end.

(** ** Dictionaries *)

(** [d.get(k)] as an option; [None] when the key is absent. *)
Fixpoint lookup (k : string) (d : dict) : option value :=
  match d with
  | [] => None
  | (k', v) :: d' => if String.eqb k k' then Some v else lookup k d'
  end.

(** [k in d] *)
Definition has_key (k : string) (d : dict) : bool :=
  match lookup k d with
  | Some _ => true
  | None => false
  end.

(** [d.get(k, default)] *)
Definition dict_get (k : string) (default : value) (d : dict) : value :=
  match lookup k d with
  | Some v => v
  | None => default
  end.

(** [d[k]] *)
Definition getitem (d : dict) (k : string) : result value :=
  match lookup k d with
  | Some v => Ok v
  | None => Raise KeyError
  end.

(** [d[k] = v]: an existing key keeps its place, a new one goes last. *)
Fixpoint setitem (k : string) (v : value) (d : dict) : dict :=
  match d with
  | [] => [(k, v)]
  | (k', v') :: d' =>
      if String.eqb k k' then (k, v) :: d' else (k', v') :: setitem k v d'
  end.

(** [t.get(k, default)] on a value that need not be a dictionary. *)
Definition get (t : value) (k : string) (default : value) : result value :=
  match t with
  | VDict d => Ok (dict_get k default d)
  | _ => Raise AttributeError
  end.

(** [l[i] = x] *)
Fixpoint list_set (i : nat) (x : value) (l : list value) : result (list value) :=
  match l, i with
  | [], _ => Raise IndexError
  | _ :: l', O => Ok (x :: l')
  | y :: l', S i' =>
      match list_set i' x l' with
      | Ok r => Ok (y :: r)
      | Raise e => Raise e
      end
  end.

(** ** The backing file and the monad of the operations *)

(** What [open(DB_PATH, "r", encoding="utf-8")] and [json.load] make of
    the file: it does not exist; its bytes are not UTF-8 text (reading
    raises [UnicodeDecodeError]); its text is not JSON ([json.load]
    raises [JSONDecodeError]); or it is the JSON text of a value. *)
Inductive medium : Type :=
| Absent
| Undecodable
| Malformed
| Json (data : value).

(** The file at [DB_PATH], and the number of times [_save_db] has
    replaced it. *)
Record store : Type := Store {
  file : medium;
  saves : nat
}.

Definition M (A : Type) : Type := store -> result A * store.

Definition ret {A} (a : A) : M A := fun s => (Ok a, s).

Definition raise {A} (e : exn) : M A := fun s => (Raise e, s).

Definition bind {A B} (m : M A) (k : A -> M B) : M B :=
  fun s =>
    match m s with
    | (Ok a, s') => k a s'
    | (Raise e, s') => (Raise e, s')
    end.

Definition lift {A} (r : result A) : M A := fun s => (r, s).

Declare Scope M_scope.
Delimit Scope M_scope with M.
Notation "x <- m ;; k" := (bind m (fun x => k))
  (at level 61, m at next level, right associativity) : M_scope.
Notation "m ;;; k" := (bind m (fun _ => k))
  (at level 61, right associativity) : M_scope.

(** ** The record store *)

Record Task : Type := mkTask {
  id : value;
  title : string;
  due_date : value;
  completed : bool;
  created_at : string;
  completed_at : value
}.

(** [_now_iso()], from the reading of the clock it takes. *)
Definition _now_iso (reading : string) : string := reading ++ "Z".

Definition _default_db : dict := [("next_id", VInt 1); ("tasks", VList [])].

(** [data["next_id"] < 1], asked only of an instance of [int]. *)
Definition below_one (v : value) : bool :=
  match v with
  | VInt z => z <? 1
  | VBool b => negb b
  | _ => false
  end.

(** The shape validation of [_load_db], on the value [json.load] returned. *)
Definition validate (data : value) : dict :=
  match data with
  | VDict d =>
      if negb (has_key "next_id" d) || negb (has_key "tasks" d) then _default_db
      else
        let d1 :=
          if negb (isinstance_list (dict_get "tasks" VNone d))
          then setitem "tasks" (VList []) d else d in
        if negb (isinstance_int (dict_get "next_id" VNone d1))
           || below_one (dict_get "next_id" VNone d1)
        then setitem "next_id" (VInt 1) d1 else d1
  | _ => _default_db
  end.

Definition _load_db : M dict :=
  fun s =>
    match file s with
    | Absent => (Ok _default_db, s)
    | Undecodable => (Raise UnicodeDecodeError, s)
    | Malformed => (Ok _default_db, s)
    | Json data => (Ok (validate data), s)
    end.

(** [_save_db(data)]: the temporary file is written and then moved over
    [DB_PATH]; afterwards the file is the JSON text of [data]. *)
Definition _save_db (data : dict) : M unit :=
  fun s => (Ok tt, {| file := Json (VDict data); saves := S (saves s) |}).

(** [id=int(d.get("id"))] and the other fields of [_task_from_dict]; the
    dictionary methods are applied to [d] as it is, so [d] is a [value]. *)
Definition _task_from_dict (reading : string) (d : value) : result Task :=
  (raw_id <- get d "id" VNone ;;
   id' <- py_int raw_id ;;
   raw_title <- get d "title" (VStr EmptyString) ;;
   due <- get d "due_date" VNone ;;
   raw_completed <- get d "completed" (VBool false) ;;
   raw_created <- get d "created_at" (VStr EmptyString) ;;
   done_at <- get d "completed_at" VNone ;;
   Ok {| id := VInt id';
         title := py_str raw_title;
         due_date := due;
         completed := py_bool raw_completed;
         created_at := (if is_empty (py_str raw_created)
                        then _now_iso reading else py_str raw_created);
         completed_at := done_at |})%result.

(** [asdict(t)] *)
Definition _serialize_task (t : Task) : value :=
  VDict [("id", id t); ("title", VStr (title t)); ("due_date", due_date t);
         ("completed", VBool (completed t)); ("created_at", VStr (created_at t));
         ("completed_at", completed_at t)].

(** ** The operations *)

(** Assignments to the fields of a [Task]. *)
Definition with_title (t : Task) (s : string) : Task :=
  {| id := id t; title := s; due_date := due_date t; completed := completed t;
     created_at := created_at t; completed_at := completed_at t |}.

Definition with_due_date (t : Task) (v : value) : Task :=
  {| id := id t; title := title t; due_date := v; completed := completed t;
     created_at := created_at t; completed_at := completed_at t |}.

(** [task.completed = True; task.completed_at = stamp] *)
Definition mark_completed (t : Task) (stamp : string) : Task :=
  {| id := id t; title := title t; due_date := due_date t; completed := true;
     created_at := created_at t; completed_at := VStr stamp |}.

(** [db["next_id"] += 1].  The value is an instance of [int] in every
    dictionary [_load_db] returns (see [validate_next_id]); a float
    would be added to, which is not modelled. *)
Definition increment (v : value) : result value :=
  match v with
  | VInt z => Ok (VInt (z + 1))
  | VBool b => Ok (VInt ((if b then 1 else 0) + 1))
  | _ => Raise TypeError
  end.

(** [db["tasks"]] used as a list ([len], iteration, [append], item
    assignment).  It is a list in every dictionary [_load_db] returns
    (see [validate_tasks]). *)
Definition as_list (v : value) : result (list value) :=
  match v with
  | VList l => Ok l
  | _ => Raise TypeError
  end.

Definition add_task (clock : nat -> string)
    (title due_date : option string) : M value :=
  let title := strip (match title with Some t => t | None => EmptyString end) in
  if is_empty title then raise (ValueError title_must_be_non_empty)
  else
    (db <- _load_db ;;
     task_id <- lift (getitem db "next_id") ;;
     next <- lift (increment task_id) ;;
     let db := setitem "next_id" next db in
     let task :=
       {| id := task_id;
          title := title;
          due_date := match due_date with
                      | Some d => if is_empty (strip d) then VNone else VStr (strip d)
                      | None => VNone
                      end;
          completed := false;
          created_at := _now_iso (clock O);
          completed_at := VNone |} in
     tasks <- lift (rbind (getitem db "tasks") as_list) ;;
     let db := setitem "tasks" (VList (tasks ++ [_serialize_task task])) db in
     _save_db db ;;;
     ret (_serialize_task task))%M.

(** The comprehension of [list_tasks]; the record at position [i] reads
    the clock, if it needs to, as [clock i]. *)
Fixpoint select_tasks (clock : nat -> string) (is_completed : bool)
    (i : nat) (l : list value) : result (list Task) :=
  match l with
  | [] => Ok []
  | t :: l' =>
      (c <- get t "completed" (VBool false) ;;
       if Bool.eqb (py_bool c) is_completed
       then task <- _task_from_dict (clock i) t ;;
            rest <- select_tasks clock is_completed (S i) l' ;;
            Ok (task :: rest)
       else select_tasks clock is_completed (S i) l')%result
  end.

(** The number an instance of [int] stands for.  The ids compared by the
    sort of [list_tasks] are results of [int]. *)
Definition int_value (v : value) : Z :=
  match v with
  | VInt z => z
  | VBool b => if b then 1 else 0
  | _ => 0
  end.

(** [(a.completed, a.id) < (b.completed, b.id)] on tuples. *)
Definition key_lt (a b : Task) : bool :=
  if Bool.eqb (completed a) (completed b)
  then int_value (id a) <? int_value (id b)
  else negb (completed a) && completed b.

(** [list.sort] is stable; so is insertion from the right. *)
Fixpoint insert (x : Task) (l : list Task) : list Task :=
  match l with
  | [] => [x]
  | y :: l' => if key_lt y x then y :: insert x l' else x :: y :: l'
  end.

Fixpoint sort (l : list Task) : list Task :=
  match l with
  | [] => []
  | x :: l' => insert x (sort l')
  end.

Definition list_tasks (clock : nat -> string) (is_completed : bool) : M value :=
  (db <- _load_db ;;
   raw <- lift (rbind (getitem db "tasks") as_list) ;;
   tasks <- lift (select_tasks clock is_completed O raw) ;;
   ret (VList (map _serialize_task (sort tasks))))%M.

(** [for i, t in enumerate(tasks): if int(t.get("id")) == int(task_id):
    body; break], with [None] when the loop ends without a match. *)
Fixpoint for_task {A} (task_id : value) (body : nat -> value -> M A)
    (i : nat) (l : list value) : M (option A) :=
  match l with
  | [] => ret None
  | t :: l' =>
      (stored <- lift (rbind (get t "id" VNone) py_int) ;;
       wanted <- lift (py_int task_id) ;;
       if stored =? wanted
       then found <- body i t ;; ret (Some found)
       else for_task task_id body (S i) l')%M
  end.

Definition found_or_raise (task_id : value) (found : option Task) : M value :=
  match found with
  | None => raise (ValueError (task_id_not_found task_id))
  | Some task => ret (_serialize_task task)
  end.

Definition complete_task (clock : nat -> string) (task_id : value) : M value :=
  (db <- _load_db ;;
   raw <- lift (rbind (getitem db "tasks") as_list) ;;
   found <- for_task task_id
              (fun i t =>
                 task <- lift (_task_from_dict (clock O) t) ;;
                 if completed task then ret task
                 else
                   let task := mark_completed task (_now_iso (clock 1%nat)) in
                   raw' <- lift (list_set i (_serialize_task task) raw) ;;
                   _save_db (setitem "tasks" (VList raw') db) ;;;
                   ret task)
              O raw ;;
   found_or_raise task_id found)%M.

(** The comprehension of [delete_task]. *)
Fixpoint keep_others (task_id : value) (l : list value) : result (list value) :=
  match l with
  | [] => Ok []
  | t :: l' =>
      (raw_id <- get t "id" VNone ;;
       stored <- py_int raw_id ;;
       wanted <- py_int task_id ;;
       rest <- keep_others task_id l' ;;
       Ok (if stored =? wanted then rest else t :: rest))%result
  end.

Definition delete_task (task_id : value) : M value :=
  (db <- _load_db ;;
   raw <- lift (rbind (getitem db "tasks") as_list) ;;
   let before := List.length raw in
   kept <- lift (keep_others task_id raw) ;;
   let db := setitem "tasks" (VList kept) db in
   let after := List.length kept in
   if (after =? before)%nat
   then raise (ValueError (task_id_not_found task_id))
   else
     _save_db db ;;;
     n <- lift (py_int task_id) ;;
     ret (VDict [("deleted", VBool true); ("task_id", VInt n)]))%M.

Definition update_task (clock : nat -> string) (task_id : value)
    (title due_date : option string) : M value :=
  (db <- _load_db ;;
   raw <- lift (rbind (getitem db "tasks") as_list) ;;
   found <- for_task task_id
              (fun i t =>
                 task <- lift (_task_from_dict (clock O) t) ;;
                 task <- match title with
                         | Some title =>
                             let new_title := strip title in
                             if is_empty new_title
                             then raise (ValueError title_must_be_non_empty_provided)
                             else ret (with_title task new_title)
                         | None => ret task
                         end ;;
                 let task :=
                   match due_date with
                   | Some due =>
                       let dd := strip due in
                       with_due_date task (if is_empty dd then VNone else VStr dd)
                   | None => task
                   end in
                 raw' <- lift (list_set i (_serialize_task task) raw) ;;
                 _save_db (setitem "tasks" (VList raw') db) ;;;
                 ret task)
              O raw ;;
   found_or_raise task_id found)%M.

(** The comprehension of [clear_completed]. *)
Fixpoint keep_open (l : list value) : result (list value) :=
  match l with
  | [] => Ok []
  | t :: l' =>
      (c <- get t "completed" (VBool false) ;;
       rest <- keep_open l' ;;
       Ok (if negb (py_bool c) then t :: rest else rest))%result
  end.

Definition clear_completed : M value :=
  (db <- _load_db ;;
   raw <- lift (rbind (getitem db "tasks") as_list) ;;
   let before := List.length raw in
   kept <- lift (keep_open raw) ;;
   let db := setitem "tasks" (VList kept) db in
   let removed := Z.of_nat before - Z.of_nat (List.length kept) in
   _save_db db ;;;
   ret (VDict [("cleared", VInt removed)]))%M.

(** The tool interface: the six functions registered with [mcp.tool()],
    called by name with their arguments. *)
Inductive call : Type :=
| AddTask (title due_date : option string)
| ListTasks (is_completed : bool)
| CompleteTask (task_id : value)
| DeleteTask (task_id : value)
| UpdateTask (task_id : value) (title due_date : option string)
| ClearCompleted.

Definition invoke (clock : nat -> string) (c : call) : M value :=
  match c with
  | AddTask title due_date => add_task clock title due_date
  | ListTasks is_completed => list_tasks clock is_completed
  | CompleteTask task_id => complete_task clock task_id
  | DeleteTask task_id => delete_task task_id
  | UpdateTask task_id title due_date => update_task clock task_id title due_date
  | ClearCompleted => clear_completed
  end.

(** A sequence of invocations, each with the clock it reads, run one
    after the other against the same file. *)
Fixpoint invoke_all (calls : list ((nat -> string) * call)) (s : store)
    : list (result value) * store :=
  match calls with
  | [] => ([], s)
  | (clock, c) :: calls' =>
      let (r, s1) := invoke clock c s in
      let (rs, s2) := invoke_all calls' s1 in
      (r :: rs, s2)
  end.

(** ** Vocabulary of the statements *)

(** The Document an operation starts from: what [_load_db] returns. *)
Definition document (s : store) : result dict := fst (_load_db s).

Definition next_id_of (db : dict) : value := dict_get "next_id" VNone db.

Definition tasks_of (db : dict) : list value :=
  match lookup "tasks" db with
  | Some (VList l) => l
  | _ => []
  end.

(** The records an operation on [s] starts from. *)
Definition stored (s : store) : list value :=
  match document s with
  | Ok db => tasks_of db
  | Raise _ => []
  end.

(** [int(t.get("id"))], the id under which the operations find [t]. *)
Definition stored_id (t : value) : result Z := rbind (get t "id" VNone) py_int.

(** A record that every operation can read: a dictionary whose id [int]
    accepts. *)
Definition readable (t : value) : Prop :=
  exists items n, t = VDict items /\ py_int (dict_get "id" VNone items) = Ok n.

Definition id_or_zero (t : value) : Z :=
  match stored_id t with
  | Ok n => n
  | Raise _ => 0
  end.

(** The ids of a list of readable records. *)
Definition ids_of (l : list value) : list Z := map id_or_zero l.

(** The search of the loop [for_task], without its body: the first
    record whose id is [int(task_id)], with its index. *)
Fixpoint locate (task_id : value) (i : nat) (l : list value)
    : result (option (nat * value)) :=
  match l with
  | [] => Ok None
  | t :: l' =>
      (stored <- stored_id t ;;
       wanted <- py_int task_id ;;
       if stored =? wanted then Ok (Some (i, t))
       else locate task_id (S i) l')%result
  end.

(** The [completed] flag of a stored record, as the operations read it. *)
Definition is_done (t : value) : bool :=
  match t with
  | VDict items => py_bool (dict_get "completed" (VBool false) items)
  | _ => false
  end.

Definition is_none (v : value) : bool :=
  match v with
  | VNone => true
  | _ => false
  end.

(** [completed_at] is non-null exactly when [completed] is true. *)
Definition consistent (t : value) : Prop :=
  exists items, t = VDict items /\
    (is_none (dict_get "completed_at" VNone items) = false
     <-> py_bool (dict_get "completed" (VBool false) items) = true).

(** The task records in the result of a call. *)
Definition returned_tasks (c : call) (r : result value) : list value :=
  match r, c with
  | Ok (VList l), ListTasks _ => l
  | Ok v, (AddTask _ _ | CompleteTask _ | UpdateTask _ _ _) => [v]
  | _, _ => []
  end.

(** [(a.completed, a.id) <= (b.completed, b.id)]: [completed] ascending
    (false first), then [id] ascending. *)
Definition key_le (a b : Task) : Prop :=
  (completed a = false /\ completed b = true)
  \/ (completed a = completed b /\ int_value (id a) <= int_value (id b)).

(** The id in a returned task. *)
Definition returned_id (r : result value) : list Z :=
  match r with
  | Ok (VDict items) => [int_value (dict_get "id" VNone items)]
  | _ => []
  end.

(** What [validate] guarantees of the dictionary it returns. *)
Definition well_shaped (db : dict) : Prop :=
  exists n l,
    lookup "next_id" db = Some n /\ isinstance_int n = true /\
    below_one n = false /\ lookup "tasks" db = Some (VList l).

(** The fields [_task_from_dict] gives a dictionary whose id is [n]. *)
Definition parsed (reading : string) (items : dict) (n : Z) : Task :=
  {| id := VInt n;
     title := py_str (dict_get "title" (VStr EmptyString) items);
     due_date := dict_get "due_date" VNone items;
     completed := py_bool (dict_get "completed" (VBool false) items);
     created_at := (if is_empty (py_str (dict_get "created_at" (VStr EmptyString) items))
                    then _now_iso reading
                    else py_str (dict_get "created_at" (VStr EmptyString) items));
     completed_at := dict_get "completed_at" VNone items |}.

(** The store after [_save_db db]. *)
Definition saved (db : dict) (s : store) : store :=
  {| file := Json (VDict db); saves := S (saves s) |}.

(** The title [add_task] checks: [(title or "").strip()]. *)
Definition stripped_title (title : option string) : string :=
  strip (match title with Some t => t | None => EmptyString end).

(** The task [add_task] builds under the id [task_id]. *)
Definition new_task (clock : nat -> string) (title due_date : option string)
    (task_id : value) : Task :=
  {| id := task_id;
     title := stripped_title title;
     due_date := match due_date with
                 | Some d => if is_empty (strip d) then VNone else VStr (strip d)
                 | None => VNone
                 end;
     completed := false;
     created_at := _now_iso (clock O);
     completed_at := VNone |}.

(** The task [update_task] writes in place of [task]; [None] when the
    title it is given is empty once stripped. *)
Definition updated (title due_date : option string) (task : Task) : option Task :=
  option_map
    (fun task =>
       match due_date with
       | Some due => with_due_date task (if is_empty (strip due) then VNone
                                         else VStr (strip due))
       | None => task
       end)
    match title with
    | Some t => if is_empty (strip t) then None else Some (with_title task (strip t))
    | None => Some task
    end.

(** A field of a returned task. *)
Definition field (k : string) (v : value) : option value :=
  match v with
  | VDict items => lookup k items
  | _ => None
  end.

(** [next_id] of the Document an operation on [s] starts from, as a number. *)
Definition next_number (s : store) : Z :=
  match document s with
  | Ok db => int_value (next_id_of db)
  | Raise _ => 0
  end.

(** The id a call has allocated: the id in the task a successful
    [add_task] returns. *)
Definition allocated_by (c : call) (r : result value) : list Z :=
  match c with
  | AddTask _ _ => returned_id r
  | _ => []
  end.

(** The ids allocated along a sequence of calls, in the order of the calls. *)
Fixpoint allocated (calls : list ((nat -> string) * call))
    (results : list (result value)) : list Z :=
  match calls, results with
  | (_, c) :: calls', r :: results' =>
      (allocated_by c r ++ allocated calls' results')%list
  | _, _ => []
  end.

(** A call of [add_task] whose title is not empty once stripped. *)
Definition allocating (c : call) : bool :=
  match c with
  | AddTask title _ => negb (is_empty (stripped_title title))
  | _ => false
  end.

(** [n; n + 1; ...], [k] numbers. *)
Fixpoint consecutive (n : Z) (k : nat) : list Z :=
  match k with
  | O => []
  | S k' => n :: consecutive (n + 1) k'
  end.

(** [task] is what [_task_from_dict] makes of the record [t], at some
    reading of the clock. *)
Definition read_as (t : value) (task : Task) : Prop :=
  exists reading, _task_from_dict reading t = Ok task.

(** The top-level shape [_load_db] asks for: a dictionary with the keys
    [next_id] and [tasks]. *)
Definition top_level (m : medium) : option dict :=
  match m with
  | Json (VDict d) => if has_key "next_id" d && has_key "tasks" d then Some d else None
  | _ => None
  end.

(** A positive integer, for [isinstance(v, int)] and [<]. *)
Definition positive_int (v : value) : bool :=
  isinstance_int v && negb (below_one v).

(** ** Files and calls used as examples *)

Definition noon (k : nat) : string := "2026-01-15T12:00:00".
Definition evening (k : nat) : string := "2026-01-15T18:30:00".

(** No file yet. *)
Definition fresh : store := {| file := Absent; saves := 0 |}.

Definition record (n : Z) (name : string) (done : bool) (stamp : value) : value :=
  VDict [("id", VInt n); ("title", VStr name); ("due_date", VNone);
         ("completed", VBool done); ("created_at", VStr "2026-01-15T09:00:00Z");
         ("completed_at", stamp)].

(** Two open tasks, written by [add_task]. *)
Definition two_open : store :=
  {| file := Json (VDict [("next_id", VInt 3);
                          ("tasks", VList [record 1 "buy milk" false VNone;
                                           record 2 "call Ann" false VNone])]);
     saves := 2 |}.

(** Three tasks out of order, the one with id 2 completed. *)
Definition three_mixed : store :=
  {| file := Json (VDict [("next_id", VInt 4);
                          ("tasks",
                           VList [record 3 "write report" false VNone;
                                  record 2 "call Ann" true (VStr "2026-01-15T10:00:00Z");
                                  record 1 "buy milk" false VNone])]);
     saves := 4 |}.

(** A file from an older version: the first record has no [created_at],
    the second has no [id]. *)
Definition legacy : store :=
  {| file := Json (VDict [("next_id", VInt 3);
                          ("tasks",
                           VList [VDict [("id", VInt 1); ("title", VStr "buy milk")];
                                  VDict [("title", VStr "call Ann")]])]);
     saves := 0 |}.

(** The float [1.9], that is 8556839292003942 * 2^-52. *)
Definition one_point_nine : value :=
  VFloat {| float_num := FFin 8556839292003942 (-52);
            float_text := ("1"%char, ".9") |}.

Definition session : list ((nat -> string) * call) :=
  [(noon, AddTask (Some " buy milk ") None);
   (noon, AddTask (Some "   ") None);
   (noon, CompleteTask (VInt 1));
   (evening, AddTask (Some "call Ann") (Some " tomorrow "));
   (evening, ListTasks false);
   (evening, DeleteTask (VInt 7));
   (evening, AddTask (Some "write report") None)].

Definition session_results : list (result value) :=
  Eval vm_compute in fst (invoke_all session fresh).

Definition session_end : store :=
  Eval vm_compute in snd (invoke_all session fresh).

(** [two_open] after [complete_task(1)] at noon. *)
Definition one_done_result : value :=
  Eval vm_compute in
    match fst (complete_task noon (VInt 1) two_open) with
    | Ok v => v
    | Raise _ => VNone
    end.

Definition one_done : store :=
  Eval vm_compute in snd (complete_task noon (VInt 1) two_open).

(** The state of a store that only the operations have written: the
    records are readable, their ids pairwise distinct and below
    [next_id], and [completed_at] goes with [completed]. *)
Definition sound (s : store) : Prop :=
  file s <> Undecodable /\
  Forall readable (stored s) /\
  NoDup (ids_of (stored s)) /\
  Forall (fun n => n < next_number s) (ids_of (stored s)) /\
  Forall consistent (stored s).

(** Evaluation of the list of records in a goal [Forall P l] about an
    example file. *)
Ltac evaluate_records :=
  match goal with
  | |- Forall _ ?l =>
      let l' := eval vm_compute in l in
      replace l with l' by (vm_compute; reflexivity)
  end.

Ltac readable_records :=
  evaluate_records;
  repeat (apply Forall_cons; [eexists _, _; split; reflexivity|]);
  apply Forall_nil.

(** ** Vocabulary of the further properties *)

(** [due_date] as [add_task] and [update_task] store it: stripped, and
    [None] when nothing is left. *)
Definition stored_due_date (due : string) : value :=
  if is_empty (strip due) then VNone else VStr (strip due).

Definition is_dict (v : value) : bool :=
  match v with
  | VDict _ => true
  | _ => false
  end.

(** The records that [delete_task] keeps for the id [n]. *)
Definition other_id (n : Z) (t : value) : bool := negb (id_or_zero t =? n).

(** A record as the operations write it: the dictionary of a [Task] with
    an integer id, a title and a [created_at] that are not empty, a
    [due_date] that is [None] or a string that is not empty, and a
    [completed_at] that is a string when the task is completed and
    [None] when it is not. *)
Definition written (task : Task) : Prop :=
  (exists n, id task = VInt n) /\
  title task <> EmptyString /\
  created_at task <> EmptyString /\
  (due_date task = VNone \/
   exists d, due_date task = VStr d /\ d <> EmptyString) /\
  (if completed task then exists stamp, completed_at task = VStr stamp
   else completed_at task = VNone).

Definition canonical (t : value) : Prop :=
  exists task, t = _serialize_task task /\ written task.

(** A store in which [next_id] is an integer proper and every record is
    canonical. *)
Definition tidy (s : store) : Prop :=
  file s <> Undecodable /\
  (exists db n, document s = Ok db /\ next_id_of db = VInt n) /\
  Forall canonical (stored s).

(** [two_open] after [update_task(1, due_date="Friday")] at noon. *)
Definition due_friday_result : value :=
  Eval vm_compute in
    match fst (update_task noon (VInt 1) None (Some "Friday") two_open) with
    | Ok v => v
    | Raise _ => VNone
    end.

Definition due_friday : store :=
  Eval vm_compute in snd (update_task noon (VInt 1) None (Some "Friday") two_open).

(** A file edited by hand, in which two records have the id 1. *)
Definition twins : store :=
  {| file := Json (VDict [("next_id", VInt 3);
                          ("tasks", VList [record 1 "buy milk" false VNone;
                                           record 2 "call Ann" false VNone;
                                           record 1 "buy bread" false VNone])]);
     saves := 0 |}.

(** The first record at the end of [session], which is completed, and
    the store after [update_task(1, title="buy oat milk")] on it. *)
Definition milk_done : value :=
  Eval vm_compute in hd VNone (stored session_end).

Definition milk_renamed : value :=
  Eval vm_compute in
    match fst (update_task evening (VInt 1) (Some "buy oat milk") None session_end) with
    | Ok v => v
    | Raise _ => VNone
    end.

Definition session_renamed : store :=
  Eval vm_compute in
    snd (update_task evening (VInt 1) (Some "buy oat milk") None session_end).

(** A file whose bytes are not UTF-8 text, and one whose text is not
    JSON. *)
Definition not_text : store := {| file := Undecodable; saves := 0 |}.

Definition not_json : store := {| file := Malformed; saves := 0 |}.

(** ** Returned tasks *)

(** The id in a returned task, as a number. *)
Definition shown_id (v : value) : Z :=
  match field "id" v with
  | Some i => int_value i
  | None => 0
  end.

(** The returned task [v] shows the stored record [t]: its id is
    [int] of the stored id, its title [str] of the stored title (the empty
    string if there is none), [completed] is [bool] of the stored flag,
    [due_date] and [completed_at] are the stored values ([None] if there
    is none), and [created_at] is [str] of the stored value unless that
    is empty, and is never empty. *)
Definition shows (t v : value) : Prop :=
  exists items n,
    t = VDict items /\
    py_int (dict_get "id" VNone items) = Ok n /\
    field "id" v = Some (VInt n) /\
    field "title" v = Some (VStr (py_str (dict_get "title" (VStr EmptyString) items))) /\
    field "due_date" v = Some (dict_get "due_date" VNone items) /\
    field "completed" v =
      Some (VBool (py_bool (dict_get "completed" (VBool false) items))) /\
    field "completed_at" v = Some (dict_get "completed_at" VNone items) /\
    exists c,
      field "created_at" v = Some (VStr c) /\ c <> EmptyString /\
      (is_empty (py_str (dict_get "created_at" (VStr EmptyString) items)) = false ->
       c = py_str (dict_get "created_at" (VStr EmptyString) items)).

(** The float [2.0], and a file edited by hand in which the ids are a
    string and a float. *)
Definition two_point_zero : value :=
  VFloat {| float_num := FFin 2 0; float_text := ("2"%char, ".0") |}.

Definition loose_ids : store :=
  {| file := Json (VDict [("next_id", VInt 3);
                          ("tasks",
                           VList [VDict [("id", VStr " 1 "); ("title", VStr "buy milk");
                                         ("completed", VBool false);
                                         ("created_at", VStr "2026-01-15T09:00:00Z")];
                                  VDict [("id", two_point_zero);
                                         ("title", VStr "call Ann");
                                         ("completed", VBool false);
                                         ("created_at", VStr "2026-01-15T09:00:00Z")]])]);
     saves := 0 |}.

(** ** Dictionaries and the loaded Document *)

Local Open Scope list_scope.

Lemma lookup_setitem_same (k : string) (v : value) (d : dict) :
  lookup k (setitem k v d) = Some v.
Proof.
  induction d as [|[k' v'] d IH]; simpl.
  - now rewrite String.eqb_refl.
  - destruct (String.eqb k k') eqn:E; simpl.
    + now rewrite String.eqb_refl.
    + now rewrite E.
Qed.

Lemma lookup_setitem_other (k k' : string) (v : value) (d : dict) :
  k <> k' -> lookup k' (setitem k v d) = lookup k' d.
Proof.
  intros N. induction d as [|[k0 v0] d IH]; simpl.
  - destruct (String.eqb k' k) eqn:E; [|reflexivity].
    apply String.eqb_eq in E. congruence.
  - destruct (String.eqb k k0) eqn:E; simpl.
    + apply String.eqb_eq in E. subst k0.
      destruct (String.eqb k' k) eqn:E'; [|reflexivity].
      apply String.eqb_eq in E'. congruence.
    + now rewrite IH.
Qed.

Lemma setitem_same (k : string) (v : value) (d : dict) :
  lookup k d = Some v -> setitem k v d = d.
Proof.
  induction d as [|[k' v'] d IH]; simpl; [discriminate|].
  destruct (String.eqb k k') eqn:E.
  - apply String.eqb_eq in E. intros [= ->]. now subst.
  - intros H. now rewrite IH.
Qed.

Lemma default_well_shaped : well_shaped _default_db.
Proof. exists (VInt 1), []. repeat split. Qed.

Lemma validate_well_shaped (data : value) : well_shaped (validate data).
Proof.
  destruct data as [| | | | | |d]; try apply default_well_shaped.
  unfold validate, has_key, dict_get.
  destruct (lookup "next_id" d) as [n|] eqn:Hn; [|apply default_well_shaped].
  destruct (lookup "tasks" d) as [t|] eqn:Ht; [|apply default_well_shaped].
  cbn [negb orb].
  set (d1 := if negb (isinstance_list t) then setitem "tasks" (VList []) d else d).
  assert (H1 : lookup "next_id" d1 = Some n).
  { unfold d1. destruct (negb (isinstance_list t)); [|assumption].
    rewrite lookup_setitem_other; [assumption|discriminate]. }
  assert (H2 : exists l, lookup "tasks" d1 = Some (VList l)).
  { unfold d1. destruct t; cbn [isinstance_list negb];
      try (exists []; apply lookup_setitem_same).
    now exists l. }
  destruct H2 as [l H2]. rewrite H1.
  destruct (negb (isinstance_int n) || below_one n) eqn:E.
  - exists (VInt 1), l. repeat split.
    + apply lookup_setitem_same.
    + rewrite lookup_setitem_other; [assumption|discriminate].
  - apply orb_false_elim in E as [E1 E2]. apply negb_false_iff in E1.
    now exists n, l.
Qed.

(** [validate_next_id] and [validate_tasks]: the two facts the
    operations rely on. *)
Lemma validate_next_id (data : value) :
  exists n, lookup "next_id" (validate data) = Some n /\ isinstance_int n = true.
Proof.
  destruct (validate_well_shaped data) as (n & l & H1 & H2 & _).
  now exists n.
Qed.

Lemma validate_tasks (data : value) :
  exists l, lookup "tasks" (validate data) = Some (VList l).
Proof.
  destruct (validate_well_shaped data) as (n & l & _ & _ & _ & H).
  now exists l.
Qed.

Lemma load_ok (s s' : store) (db : dict) :
  _load_db s = (Ok db, s') -> s' = s /\ well_shaped db.
Proof.
  unfold _load_db. destruct (file s); intros [= <- <-]; split; trivial;
    try apply default_well_shaped.
  apply validate_well_shaped.
Qed.

Lemma load_raise (s s' : store) (e : exn) :
  _load_db s = (Raise e, s') -> s' = s /\ file s = Undecodable.
Proof.
  unfold _load_db. destruct (file s); intros [= <- <-]; now split.
Qed.

Lemma load_decodable (s : store) :
  file s <> Undecodable -> exists db, _load_db s = (Ok db, s).
Proof.
  unfold _load_db. destruct (file s); intros H; try (eexists; reflexivity).
  congruence.
Qed.

Lemma well_shaped_tasks (db : dict) :
  well_shaped db ->
  rbind (getitem db "tasks") as_list = Ok (tasks_of db).
Proof.
  intros (n & l & _ & _ & _ & H). unfold getitem, tasks_of. now rewrite H.
Qed.

(** ** Reading a record *)

Lemma task_from_dict_items (reading : string) (items : dict) :
  _task_from_dict reading (VDict items) =
  match py_int (dict_get "id" VNone items) with
  | Ok n => Ok (parsed reading items n)
  | Raise e => Raise e
  end.
Proof.
  unfold _task_from_dict, get, rbind.
  now destruct (py_int (dict_get "id" VNone items)).
Qed.

Lemma stored_id_items (t : value) (n : Z) :
  stored_id t = Ok n ->
  exists items, t = VDict items /\ py_int (dict_get "id" VNone items) = Ok n.
Proof.
  unfold stored_id, get, rbind.
  destruct t; try discriminate. intros H. now exists items.
Qed.

Lemma stored_id_parses (reading : string) (t : value) (n : Z) :
  stored_id t = Ok n ->
  exists items, t = VDict items /\
    _task_from_dict reading t = Ok (parsed reading items n).
Proof.
  intros H. destruct (stored_id_items _ _ H) as (items & -> & Hn).
  exists items. split; [reflexivity|].
  now rewrite task_from_dict_items, Hn.
Qed.

Lemma readable_stored_id (t : value) :
  readable t <-> exists n, stored_id t = Ok n.
Proof.
  split.
  - intros (items & n & -> & H). now exists n.
  - intros (n & H). destruct (stored_id_items _ _ H) as (items & -> & Hn).
    now exists items, n.
Qed.

(** ** The loop [for_task] *)

Lemma for_task_locate {A} (task_id : value) (body : nat -> value -> M A)
    (i : nat) (l : list value) (s : store) :
  for_task task_id body i l s =
  match locate task_id i l with
  | Raise e => (Raise e, s)
  | Ok None => (Ok None, s)
  | Ok (Some (k, t)) => bind (body k t) (fun found => ret (Some found)) s
  end.
Proof.
  revert i. induction l as [|t l IH]; intros i; [reflexivity|].
  cbn [for_task locate]. unfold bind at 1, lift at 1.
  fold (stored_id t).
  destruct (stored_id t) as [n|e]; [|reflexivity].
  cbn [rbind]. unfold bind at 1, lift at 1.
  destruct (py_int task_id) as [m|e]; [|reflexivity].
  cbn [rbind]. destruct (n =? m); [reflexivity|apply IH].
Qed.

(** Where [locate] stops: at the first record with the wanted id, every
    record before it being readable under another id. *)
Lemma locate_found (task_id : value) (i k : nat) (l : list value) (t : value) :
  locate task_id i l = Ok (Some (k, t)) ->
  exists before after n,
    l = before ++ t :: after /\ k = (i + List.length before)%nat /\
    stored_id t = Ok n /\ py_int task_id = Ok n /\
    Forall (fun u => exists m, stored_id u = Ok m /\ m <> n) before.
Proof.
  revert i. induction l as [|u l IH]; intros i; [discriminate|].
  cbn [locate].
  destruct (stored_id u) as [m|e] eqn:Hu; [|discriminate]. cbn [rbind].
  destruct (py_int task_id) as [n|e] eqn:Hn; [|discriminate]. cbn [rbind].
  destruct (m =? n) eqn:E.
  - intros [= <- <-]. apply Z.eqb_eq in E. subst m.
    exists [], l, n. cbn. rewrite Nat.add_0_r. repeat split; auto.
  - intros H. destruct (IH _ H) as (before & after & n' & -> & -> & Ht & Hn' & Hb).
    exists (u :: before), after, n'. cbn [List.length app].
    split; [reflexivity|]. split; [lia|]. do 2 (split; [assumption|]).
    constructor; [|assumption]. exists m. split; [assumption|].
    apply Z.eqb_neq in E. congruence.
Qed.

Lemma locate_missing (task_id : value) (i : nat) (l : list value) :
  forall (H : locate task_id i l = Ok None),
  l = [] \/
  exists n, py_int task_id = Ok n /\
    Forall (fun u => exists m, stored_id u = Ok m /\ m <> n) l.
Proof.
  revert i. induction l as [|u l IH]; intros i; [now left|]. right.
  revert H. cbn [locate].
  destruct (stored_id u) as [m|e] eqn:Hu; [|discriminate]. cbn [rbind].
  destruct (py_int task_id) as [n|e] eqn:Hn; [|discriminate]. cbn [rbind].
  destruct (m =? n) eqn:E; [discriminate|]. intros H.
  exists n. split; [reflexivity|]. constructor.
  - exists m. split; [assumption|]. now apply Z.eqb_neq.
  - destruct (IH _ H) as [->|(n' & Hn' & Hl)]; [constructor|].
    now replace n with n' by congruence.
Qed.

Lemma list_set_middle (before after : list value) (t x : value) :
  list_set (List.length before) x (before ++ t :: after) = Ok (before ++ x :: after).
Proof.
  induction before as [|u before IH]; [reflexivity|].
  cbn [List.length app list_set]. now rewrite IH.
Qed.

(** ** What one invocation does, from the Document it loads *)

Lemma increment_int_instance (n : value) :
  isinstance_int n = true -> increment n = Ok (VInt (int_value n + 1)).
Proof. destruct n; try discriminate; reflexivity. Qed.

Lemma add_task_run (clock : nat -> string) (title due_date : option string)
    (s : store) (db : dict) :
  _load_db s = (Ok db, s) ->
  is_empty (stripped_title title) = false ->
  let task := new_task clock title due_date (next_id_of db) in
  add_task clock title due_date s =
  (Ok (_serialize_task task),
   saved (setitem "tasks" (VList (tasks_of db ++ [_serialize_task task]))
            (setitem "next_id" (VInt (int_value (next_id_of db) + 1)) db)) s).
Proof.
  intros L T task. unfold add_task. fold (stripped_title title). rewrite T.
  unfold bind at 1. rewrite L.
  destruct (load_ok _ _ _ L) as (_ & n & l & Hn & Hi & _ & Hl).
  unfold bind at 1, lift at 1, getitem. rewrite Hn.
  unfold bind at 1, lift at 1. rewrite (increment_int_instance _ Hi). cbn [rbind].
  unfold bind at 1, lift at 1.
  rewrite lookup_setitem_other by discriminate. rewrite Hl. cbn [rbind as_list].
  unfold task, new_task, next_id_of, dict_get, tasks_of. rewrite Hn, Hl.
  reflexivity.
Qed.

Lemma add_task_empty_title (clock : nat -> string) (title due_date : option string)
    (s : store) :
  is_empty (stripped_title title) = true ->
  add_task clock title due_date s = (Raise (ValueError title_must_be_non_empty), s).
Proof.
  intros T. unfold add_task. fold (stripped_title title). now rewrite T.
Qed.

Lemma list_tasks_run (clock : nat -> string) (is_completed : bool)
    (s : store) (db : dict) :
  _load_db s = (Ok db, s) ->
  list_tasks clock is_completed s =
  match select_tasks clock is_completed O (tasks_of db) with
  | Ok tasks => (Ok (VList (map _serialize_task (sort tasks))), s)
  | Raise e => (Raise e, s)
  end.
Proof.
  intros L. unfold list_tasks. unfold bind at 1. rewrite L.
  destruct (load_ok _ _ _ L) as (_ & W).
  unfold bind at 1, lift at 1. rewrite (well_shaped_tasks _ W).
  unfold bind at 1, lift at 1.
  now destruct (select_tasks clock is_completed 0 (tasks_of db)).
Qed.

Lemma complete_task_run (clock : nat -> string) (task_id : value)
    (s : store) (db : dict) :
  _load_db s = (Ok db, s) ->
  complete_task clock task_id s =
  match locate task_id O (tasks_of db) with
  | Raise e => (Raise e, s)
  | Ok None => (Raise (ValueError (task_id_not_found task_id)), s)
  | Ok (Some (k, t)) =>
      match _task_from_dict (clock O) t with
      | Raise e => (Raise e, s)
      | Ok task =>
          if completed task then (Ok (_serialize_task task), s)
          else
            let task' := mark_completed task (_now_iso (clock 1%nat)) in
            match list_set k (_serialize_task task') (tasks_of db) with
            | Raise e => (Raise e, s)
            | Ok raw' =>
                (Ok (_serialize_task task'),
                 saved (setitem "tasks" (VList raw') db) s)
            end
      end
  end.
Proof.
  intros L. unfold complete_task. unfold bind at 1. rewrite L.
  destruct (load_ok _ _ _ L) as (_ & W).
  unfold bind at 1, lift at 1. rewrite (well_shaped_tasks _ W).
  unfold bind at 1. rewrite for_task_locate.
  destruct (locate task_id 0 (tasks_of db)) as [[[k t]|]|e]; try reflexivity.
  unfold bind at 1. unfold bind at 1, lift at 1.
  destruct (_task_from_dict (clock O) t) as [task|e]; [|reflexivity].
  destruct (completed task); [reflexivity|].
  unfold bind at 1, lift at 1.
  now destruct (list_set k _ (tasks_of db)).
Qed.

Lemma update_task_run (clock : nat -> string) (task_id : value)
    (title due_date : option string) (s : store) (db : dict) :
  _load_db s = (Ok db, s) ->
  update_task clock task_id title due_date s =
  match locate task_id O (tasks_of db) with
  | Raise e => (Raise e, s)
  | Ok None => (Raise (ValueError (task_id_not_found task_id)), s)
  | Ok (Some (k, t)) =>
      match _task_from_dict (clock O) t with
      | Raise e => (Raise e, s)
      | Ok task =>
          match updated title due_date task with
          | None => (Raise (ValueError title_must_be_non_empty_provided), s)
          | Some task' =>
              match list_set k (_serialize_task task') (tasks_of db) with
              | Raise e => (Raise e, s)
              | Ok raw' =>
                  (Ok (_serialize_task task'),
                   saved (setitem "tasks" (VList raw') db) s)
              end
          end
      end
  end.
Proof.
  intros L. unfold update_task. unfold bind at 1. rewrite L.
  destruct (load_ok _ _ _ L) as (_ & W).
  unfold bind at 1, lift at 1. rewrite (well_shaped_tasks _ W).
  unfold bind at 1. rewrite for_task_locate.
  destruct (locate task_id 0 (tasks_of db)) as [[[k t]|]|e]; try reflexivity.
  unfold bind at 1. unfold bind at 1, lift at 1.
  destruct (_task_from_dict (clock O) t) as [task|e]; [|reflexivity].
  unfold updated. unfold bind at 1.
  destruct title as [ti|].
  - destruct (is_empty (strip ti)); [reflexivity|]. cbn [ret option_map].
    unfold bind at 1, lift at 1.
    now destruct (list_set k _ (tasks_of db)).
  - cbn [ret option_map]. unfold bind at 1, lift at 1.
    now destruct (list_set k _ (tasks_of db)).
Qed.

Lemma keep_others_wanted (task_id : value) (l kept : list value) :
  keep_others task_id l = Ok kept -> l <> [] ->
  exists n, py_int task_id = Ok n.
Proof.
  destruct l as [|t l]; [congruence|]. intros H _. cbn [keep_others] in H.
  destruct (get t "id" VNone); [|discriminate]. cbn [rbind] in H.
  destruct (py_int a); [|discriminate]. cbn [rbind] in H.
  destruct (py_int task_id) as [n|]; [|discriminate]. now exists n.
Qed.

Lemma delete_task_run (task_id : value) (s : store) (db : dict) :
  _load_db s = (Ok db, s) ->
  delete_task task_id s =
  match keep_others task_id (tasks_of db) with
  | Raise e => (Raise e, s)
  | Ok kept =>
      if (List.length kept =? List.length (tasks_of db))%nat
      then (Raise (ValueError (task_id_not_found task_id)), s)
      else
        match py_int task_id with
        | Ok n => (Ok (VDict [("deleted", VBool true); ("task_id", VInt n)]),
                   saved (setitem "tasks" (VList kept) db) s)
        | Raise e => (Raise e, saved (setitem "tasks" (VList kept) db) s)
        end
  end.
Proof.
  intros L. unfold delete_task. unfold bind at 1. rewrite L.
  destruct (load_ok _ _ _ L) as (_ & W).
  unfold bind at 1, lift at 1. rewrite (well_shaped_tasks _ W).
  unfold bind at 1, lift at 1.
  destruct (keep_others task_id (tasks_of db)) as [kept|e]; [|reflexivity].
  destruct (List.length kept =? List.length (tasks_of db))%nat; [reflexivity|].
  unfold bind at 1, _save_db. unfold bind at 1, lift at 1.
  now destruct (py_int task_id).
Qed.

(** [int(task_id)] in the result of [delete_task] cannot raise: the
    comprehension has evaluated it already. *)
Lemma delete_task_run_removed (task_id : value) (s : store) (db : dict)
    (kept : list value) :
  _load_db s = (Ok db, s) ->
  keep_others task_id (tasks_of db) = Ok kept ->
  List.length kept <> List.length (tasks_of db) ->
  exists n, py_int task_id = Ok n /\
    delete_task task_id s =
    (Ok (VDict [("deleted", VBool true); ("task_id", VInt n)]),
     saved (setitem "tasks" (VList kept) db) s).
Proof.
  intros L K N. rewrite (delete_task_run _ _ _ L), K.
  apply Nat.eqb_neq in N. rewrite N.
  destruct (keep_others_wanted _ _ _ K) as [n Hn].
  { intros Z. rewrite Z in K. injection K as <-. rewrite Z in N. discriminate. }
  exists n. now rewrite Hn.
Qed.

Lemma clear_completed_run (s : store) (db : dict) :
  _load_db s = (Ok db, s) ->
  clear_completed s =
  match keep_open (tasks_of db) with
  | Raise e => (Raise e, s)
  | Ok kept =>
      (Ok (VDict [("cleared", VInt (Z.of_nat (List.length (tasks_of db))
                                    - Z.of_nat (List.length kept)))]),
       saved (setitem "tasks" (VList kept) db) s)
  end.
Proof.
  intros L. unfold clear_completed. unfold bind at 1. rewrite L.
  destruct (load_ok _ _ _ L) as (_ & W).
  unfold bind at 1, lift at 1. rewrite (well_shaped_tasks _ W).
  unfold bind at 1, lift at 1.
  now destruct (keep_open (tasks_of db)).
Qed.

(** An unreadable file stops every invocation that reaches [_load_db]. *)
Lemma invoke_undecodable (clock : nat -> string) (c : call) (s : store) (e : exn) :
  _load_db s = (Raise e, s) ->
  exists e', invoke clock c s = (Raise e', s).
Proof.
  intros L. destruct c; cbn [invoke].
  - unfold add_task. destruct (is_empty _); [now eexists|].
    unfold bind at 1. rewrite L. now eexists.
  - unfold list_tasks, bind at 1. rewrite L. now eexists.
  - unfold complete_task, bind at 1. rewrite L. now eexists.
  - unfold delete_task, bind at 1. rewrite L. now eexists.
  - unfold update_task, bind at 1. rewrite L. now eexists.
  - unfold clear_completed, bind at 1. rewrite L. now eexists.
Qed.

Lemma load_cases (s : store) :
  (exists db, _load_db s = (Ok db, s)) \/ (exists e, _load_db s = (Raise e, s)).
Proof.
  unfold _load_db. destruct (file s); [left|right|left|left]; eexists; reflexivity.
Qed.

(** ** Failed invocations *)

Lemma invoke_raise (clock : nat -> string) (c : call)
    (s s' : store) (e : exn) :
  invoke clock c s = (Raise e, s') -> s' = s.
Proof.
  destruct (load_cases s) as [[db L]|[e0 L]].
  2:{ destruct (invoke_undecodable clock c s e0 L) as [e' ->]. now intros [= _ <-]. }
  destruct c as [ti du|b|task_id|task_id|task_id ti du|]; cbn [invoke].
  - destruct (is_empty (stripped_title ti)) eqn:T.
    + rewrite add_task_empty_title by assumption. now intros [= _ <-].
    + rewrite (add_task_run _ _ _ _ _ L T). discriminate.
  - rewrite (list_tasks_run _ _ _ _ L).
    destruct (select_tasks _ _ _ _); [discriminate|]. now intros [= _ <-].
  - rewrite (complete_task_run _ _ _ _ L).
    destruct (locate _ _ _) as [[[k t]|]|]; try (now intros [= _ <-]).
    destruct (_task_from_dict _ _) as [task|]; [|now intros [= _ <-]].
    destruct (completed task); [discriminate|]. cbv zeta.
    destruct (list_set _ _ _); [discriminate|]. now intros [= _ <-].
  - destruct (keep_others task_id (tasks_of db)) as [kept|e1] eqn:K.
    + destruct (Nat.eq_dec (List.length kept) (List.length (tasks_of db))) as [E|N].
      * rewrite (delete_task_run _ _ _ L), K.
        apply Nat.eqb_eq in E. rewrite E. now intros [= _ <-].
      * destruct (delete_task_run_removed _ _ _ _ L K N) as (n & _ & ->).
        discriminate.
    + rewrite (delete_task_run _ _ _ L), K. now intros [= _ <-].
  - rewrite (update_task_run _ _ _ _ _ _ L).
    destruct (locate _ _ _) as [[[k t]|]|]; try (now intros [= _ <-]).
    destruct (_task_from_dict _ _) as [task|]; [|now intros [= _ <-]].
    destruct (updated _ _ _); [|now intros [= _ <-]].
    destruct (list_set _ _ _); [discriminate|]. now intros [= _ <-].
  - rewrite (clear_completed_run _ _ L).
    destruct (keep_open _); [discriminate|]. now intros [= _ <-].
Qed.

(** C4. An invocation that fails, whatever the operation, its arguments
    and the exception (the [ValueError] of an empty title or of an id
    that is not there as well as any other), leaves the file exactly as
    it was and saves nothing; it returns no value, only the exception. *)
Theorem failed_invocation_leaves_store (clock : nat -> string) (c : call)
    (s s' : store) (e : exn) :
  invoke clock c s = (Raise e, s') ->
  s' = s /\ file s' = file s /\ saves s' = saves s /\
  returned_tasks c (Raise e) = [].
Proof.
  intros H. apply invoke_raise in H. subst s'. now repeat split.
Qed.

(** ** The Document after a save *)

Lemma validate_fixed (db : dict) : well_shaped db -> validate (VDict db) = db.
Proof.
  intros (n & l & Hn & Hi & Hb & Hl).
  unfold validate, has_key, dict_get. rewrite Hn, Hl. cbn [negb orb isinstance_list].
  now rewrite Hn, Hi, Hb.
Qed.

Lemma load_saved (db : dict) (s : store) :
  well_shaped db -> _load_db (saved db s) = (Ok db, saved db s).
Proof.
  intros W. unfold _load_db. cbn [saved file]. now rewrite validate_fixed.
Qed.

Lemma well_shaped_set_tasks (db : dict) (l : list value) :
  well_shaped db -> well_shaped (setitem "tasks" (VList l) db).
Proof.
  intros (n & l0 & Hn & Hi & Hb & Hl). exists n, l. repeat split; trivial.
  - rewrite lookup_setitem_other; [assumption|discriminate].
  - apply lookup_setitem_same.
Qed.

Lemma tasks_of_set_tasks (db : dict) (l : list value) :
  tasks_of (setitem "tasks" (VList l) db) = l.
Proof. unfold tasks_of. now rewrite lookup_setitem_same. Qed.

Lemma next_id_of_set_tasks (db : dict) (v : value) :
  next_id_of (setitem "tasks" v db) = next_id_of db.
Proof.
  unfold next_id_of, dict_get. rewrite lookup_setitem_other; [reflexivity|discriminate].
Qed.

Lemma document_saved (db : dict) (s : store) :
  well_shaped db -> document (saved db s) = Ok db.
Proof. intros W. unfold document. now rewrite load_saved. Qed.

Lemma stored_saved_tasks (db : dict) (l : list value) (s : store) :
  well_shaped db -> stored (saved (setitem "tasks" (VList l) db) s) = l.
Proof.
  intros W. unfold stored.
  rewrite document_saved by now apply well_shaped_set_tasks.
  apply tasks_of_set_tasks.
Qed.

(** ** A record written by the operations reads back as it was written *)

Lemma now_iso_not_empty (reading : string) : is_empty (_now_iso reading) = false.
Proof. unfold _now_iso. now destruct reading. Qed.

Lemma parsed_created_at (reading : string) (items : dict) (n : Z) :
  is_empty (created_at (parsed reading items n)) = false.
Proof.
  cbn [parsed created_at].
  destruct (is_empty (py_str (dict_get "created_at" (VStr EmptyString) items))) eqn:E;
    [apply now_iso_not_empty|assumption].
Qed.

Lemma parse_serialize (reading : string) (task : Task) (n : Z) :
  id task = VInt n -> is_empty (created_at task) = false ->
  _task_from_dict reading (_serialize_task task) = Ok task.
Proof.
  destruct task as [i ti du co cr ca]. cbn [id created_at]. intros -> E.
  unfold _serialize_task. rewrite task_from_dict_items.
  destruct cr as [|c cr]; [discriminate|]. now destruct co.
Qed.

Lemma stored_id_serialize (task : Task) (n : Z) :
  id task = VInt n -> stored_id (_serialize_task task) = Ok n.
Proof. intros H. unfold stored_id. cbn. now rewrite H. Qed.

Lemma locate_at (task_id : value) (n : Z) (i : nat)
    (before after : list value) (x : value) :
  py_int task_id = Ok n -> stored_id x = Ok n ->
  Forall (fun u => exists m, stored_id u = Ok m /\ m <> n) before ->
  locate task_id i (before ++ x :: after) = Ok (Some ((i + List.length before)%nat, x)).
Proof.
  intros Hn Hx Hb. revert i.
  induction Hb as [|u before (m & Hu & Hm) _ IH]; intros i; cbn [app locate List.length].
  - rewrite Hx, Hn. cbn [rbind]. now rewrite Z.eqb_refl, Nat.add_0_r.
  - rewrite Hu, Hn. cbn [rbind]. apply Z.eqb_neq in Hm. rewrite Hm.
    rewrite IH. do 3 f_equal. lia.
Qed.


(** ** Completing a task twice *)



(** ** What an invocation does to the store *)

(** An invocation other than a successful [add_task] leaves the store as
    it is or saves the loaded Document with another list of tasks. *)
Lemma invoke_effect (clock : nat -> string) (c : call) (s s' : store)
    (db : dict) (r : result value) :
  _load_db s = (Ok db, s) ->
  invoke clock c s = (r, s') ->
  allocating c = false ->
  s' = s \/
  exists v l, r = Ok v /\ s' = saved (setitem "tasks" (VList l) db) s.
Proof.
  intros L H A.
  destruct r as [v|e]; [|left; now apply (invoke_raise _ _ _ _ _ H)].
  destruct c as [ti du|b|task_id|task_id|task_id ti du|]; cbn [invoke] in H.
  - cbn [allocating] in A. apply negb_false_iff in A.
    rewrite add_task_empty_title in H by assumption. discriminate.
  - rewrite (list_tasks_run _ _ _ _ L) in H.
    destruct (select_tasks _ _ _ _); injection H as _ <-; now left.
  - rewrite (complete_task_run _ _ _ _ L) in H.
    destruct (locate _ _ _) as [[[k t]|]|]; try discriminate.
    destruct (_task_from_dict _ _) as [task|]; [|discriminate].
    destruct (completed task); [injection H as _ <-; now left|].
    cbv zeta in H. destruct (list_set _ _ _) as [raw'|]; [|discriminate].
    injection H as <- <-. right. now eexists _, _.
  - rewrite (delete_task_run _ _ _ L) in H.
    destruct (keep_others _ _) as [kept|]; [|discriminate].
    destruct (_ =? _)%nat; [discriminate|].
    destruct (py_int task_id); [|discriminate].
    injection H as <- <-. right. now eexists _, _.
  - rewrite (update_task_run _ _ _ _ _ _ L) in H.
    destruct (locate _ _ _) as [[[k t]|]|]; try discriminate.
    destruct (_task_from_dict _ _) as [task|]; [|discriminate].
    destruct (updated _ _ _); [|discriminate].
    destruct (list_set _ _ _) as [raw'|]; [|discriminate].
    injection H as <- <-. right. now eexists _, _.
  - rewrite (clear_completed_run _ _ L) in H.
    destruct (keep_open _) as [kept|]; [|discriminate].
    injection H as <- <-. right. now eexists _, _.
Qed.

Lemma next_number_loaded (s : store) (db : dict) :
  _load_db s = (Ok db, s) -> next_number s = int_value (next_id_of db).
Proof. intros L. unfold next_number, document. now rewrite L. Qed.

Lemma next_number_saved (db : dict) (s : store) :
  well_shaped db -> next_number (saved db s) = int_value (next_id_of db).
Proof. intros W. apply next_number_loaded. now apply load_saved. Qed.

Lemma saved_decodable (db : dict) (s : store) : file (saved db s) <> Undecodable.
Proof. discriminate. Qed.

Lemma well_shaped_add (db : dict) (l : list value) :
  well_shaped db ->
  well_shaped (setitem "tasks" (VList l)
                 (setitem "next_id" (VInt (int_value (next_id_of db) + 1)) db)).
Proof.
  intros (n & l0 & Hn & Hi & Hb & Hl).
  apply well_shaped_set_tasks.
  exists (VInt (int_value (next_id_of db) + 1)), l0. repeat split.
  - apply lookup_setitem_same.
  - unfold next_id_of, dict_get. rewrite Hn. cbn [below_one].
    apply Z.ltb_ge. destruct n as [|[|]|z| | | |]; try discriminate; cbn in *; lia.
  - rewrite lookup_setitem_other; [assumption|discriminate].
Qed.

(** One invocation, as far as ids are concerned: only a successful
    [add_task] allocates; the id is [next_id] as loaded, and [next_id]
    is one more afterwards. *)
Lemma invoke_allocates (clock : nat -> string) (c : call) (s s' : store)
    (r : result value) :
  file s <> Undecodable ->
  invoke clock c s = (r, s') ->
  file s' <> Undecodable /\
  allocated_by c r = (if allocating c then [next_number s] else []) /\
  next_number s' = next_number s + (if allocating c then 1 else 0).
Proof.
  intros D H. destruct (load_decodable _ D) as [db L].
  destruct (load_ok _ _ _ L) as (_ & W).
  destruct (allocating c) eqn:A.
  - destruct c as [ti du| | | | |]; try discriminate.
    cbn [allocating] in A. apply negb_true_iff in A. cbn [invoke] in H.
    rewrite (add_task_run _ _ _ _ _ L A) in H. injection H as <- <-.
    split; [apply saved_decodable|].
    rewrite next_number_saved by now apply well_shaped_add.
    rewrite next_id_of_set_tasks. unfold next_id_of at 2, dict_get.
    rewrite lookup_setitem_same. rewrite (next_number_loaded _ _ L).
    split; reflexivity.
  - assert (E : allocated_by c r = []).
    { destruct c as [ti du| | | | |]; trivial.
      cbn [allocating] in A. apply negb_false_iff in A. cbn [invoke] in H.
      rewrite add_task_empty_title in H by assumption. now injection H as <- _. }
    rewrite E, Z.add_0_r.
    destruct (invoke_effect _ _ _ _ _ _ L H A) as [->|(v & l & _ & ->)];
      [now repeat split|].
    split; [apply saved_decodable|]. split; [reflexivity|].
    rewrite next_number_saved by now apply well_shaped_set_tasks.
    rewrite next_id_of_set_tasks. symmetry. now apply next_number_loaded.
Qed.

Lemma consecutive_length (n : Z) (k : nat) : List.length (consecutive n k) = k.
Proof. revert n. induction k; intros n; cbn; [reflexivity|now rewrite IHk]. Qed.

Lemma consecutive_bounds (n : Z) (k : nat) (x : Z) :
  In x (consecutive n k) -> n <= x < n + Z.of_nat k.
Proof.
  revert n. induction k as [|k IH]; intros n; cbn [consecutive]; [intros []|].
  intros [<-|H]; [lia|]. apply IH in H. lia.
Qed.

Lemma consecutive_sorted (n : Z) (k : nat) : StronglySorted Z.lt (consecutive n k).
Proof.
  revert n. induction k as [|k IH]; intros n; cbn [consecutive]; constructor.
  - apply IH.
  - apply Forall_forall. intros x H. apply consecutive_bounds in H. lia.
Qed.

Lemma consecutive_nodup (n : Z) (k : nat) : NoDup (consecutive n k).
Proof.
  revert n. induction k as [|k IH]; intros n; cbn [consecutive]; constructor.
  - intros H. apply consecutive_bounds in H. lia.
  - apply IH.
Qed.

(** ** Allocation of ids *)

(** C1. Along every sequence of invocations against the same file, each
    reloading it, the ids allocated by [add_task] are [next_id] as first
    loaded and the numbers that follow it, one per call of [add_task]
    with a title that is not blank: each call returns the [next_id] it
    loaded and leaves [next_id] one larger.  So the ids are strictly
    increasing and never repeat. *)
Theorem add_task_ids_increase (calls : list ((nat -> string) * call))
    (s s' : store) (results : list (result value)) :
  file s <> Undecodable ->
  invoke_all calls s = (results, s') ->
  let ids := allocated calls results in
  ids = consecutive (next_number s) (List.length ids) /\
  List.length ids = List.length (filter (fun cc => allocating (snd cc)) calls) /\
  next_number s' = next_number s + Z.of_nat (List.length ids) /\
  StronglySorted Z.lt ids /\ NoDup ids.
Proof.
  intros D H. cbv zeta.
  assert (G : allocated calls results =
              consecutive (next_number s)
                (List.length (filter (fun cc => allocating (snd cc)) calls)) /\
              next_number s' = next_number s +
                Z.of_nat (List.length (filter (fun cc => allocating (snd cc)) calls))).
  { revert s s' results D H.
    induction calls as [|[clock c] calls IH]; intros s s' results D H.
    - cbn in H. injection H as <- <-. cbn. split; [reflexivity|lia].
    - cbn [invoke_all] in H.
      destruct (invoke clock c s) as [r s1] eqn:I.
      destruct (invoke_all calls s1) as [rs s2] eqn:R.
      injection H as <- <-.
      destruct (invoke_allocates _ _ _ _ _ D I) as (D1 & A & N).
      destruct (IH _ _ _ D1 R) as (IH1 & IH2).
      cbn [allocated filter snd]. rewrite A, IH1, IH2, N.
      destruct (allocating c); cbn [List.length consecutive app].
      + split; [reflexivity|lia].
      + rewrite Z.add_0_r. split; [reflexivity|lia]. }
  destruct G as (G1 & G2). rewrite G1, consecutive_length.
  repeat split; trivial.
  - apply consecutive_sorted.
  - apply consecutive_nodup.
Qed.

(** ** When the Document is saved *)

Lemma complete_task_saves (clock : nat -> string) (task_id : value)
    (s s' : store) (v : value) :
  complete_task clock task_id s = (Ok v, s') ->
  s' = s \/ (saves s' = S (saves s) /\ document s' <> document s).
Proof.
  intros H.
  destruct (load_cases s) as [[db L]|[e0 L]].
  2:{ destruct (invoke_undecodable clock (CompleteTask task_id) s e0 L) as [e' E].
      cbn [invoke] in E. congruence. }
  rewrite (complete_task_run _ _ _ _ L) in H.
  destruct (locate task_id 0 (tasks_of db)) as [[[k t]|]|] eqn:F; try discriminate.
  destruct (locate_found _ _ _ _ _ F) as (before & after & n & Hraw & -> & Ht & Hn & Hb).
  destruct (stored_id_parses (clock O) _ _ Ht) as (items & -> & P).
  rewrite P in H.
  destruct (completed (parsed (clock O) items n)) eqn:C;
    [injection H as _ <-; now left|].
  right. cbv zeta in H. rewrite Hraw in H. cbn [Nat.add] in H.
  rewrite list_set_middle in H. injection H as _ <-.
  split; [reflexivity|].
  destruct (load_ok _ _ _ L) as (_ & W).
  rewrite document_saved by now apply well_shaped_set_tasks.
  unfold document. rewrite L. cbn [fst]. intros [= E].
  apply (f_equal tasks_of) in E. rewrite tasks_of_set_tasks, Hraw in E.
  apply app_inv_head in E. injection E as E.
  cbn [parsed completed] in C. rewrite <- E in C. discriminate.
Qed.

(** C6, as the code has it.  An invocation that fails saves nothing, nor
    does [list_tasks], nor [complete_task] on a task that is completed
    already: [complete_task] saves exactly when it changes the Document.
    Every successful [add_task], [delete_task], [update_task] and
    [clear_completed] saves once, whether the Document has changed or
    not. *)
Theorem saves_of_an_invocation (clock : nat -> string) (c : call)
    (s s' : store) (r : result value) :
  invoke clock c s = (r, s') ->
  match r, c with
  | Raise _, _ => s' = s
  | Ok _, ListTasks _ => s' = s
  | Ok _, CompleteTask _ =>
      s' = s \/ (saves s' = S (saves s) /\ document s' <> document s)
  | Ok _, (AddTask _ _ | DeleteTask _ | UpdateTask _ _ _ | ClearCompleted) =>
      saves s' = S (saves s)
  end.
Proof.
  intros H. destruct r as [v|e]; [|now apply (invoke_raise _ _ _ _ _ H)].
  destruct (load_cases s) as [[db L]|[e0 L]].
  2:{ destruct (invoke_undecodable clock c s e0 L) as [e' E]. congruence. }
  destruct c as [ti du|b|task_id|task_id|task_id ti du|]; cbn [invoke] in H.
  - destruct (is_empty (stripped_title ti)) eqn:T.
    + rewrite add_task_empty_title in H by assumption. discriminate.
    + rewrite (add_task_run _ _ _ _ _ L T) in H. now injection H as _ <-.
  - rewrite (list_tasks_run _ _ _ _ L) in H.
    destruct (select_tasks _ _ _ _); now injection H as _ <-.
  - now apply (complete_task_saves _ _ _ _ _ H).
  - rewrite (delete_task_run _ _ _ L) in H.
    destruct (keep_others _ _) as [kept|]; [|discriminate].
    destruct (_ =? _)%nat; [discriminate|].
    destruct (py_int task_id); [|discriminate]. now injection H as _ <-.
  - rewrite (update_task_run _ _ _ _ _ _ L) in H.
    destruct (locate _ _ _) as [[[k t]|]|]; try discriminate.
    destruct (_task_from_dict _ _) as [task|]; [|discriminate].
    destruct (updated _ _ _); [|discriminate].
    destruct (list_set _ _ _) as [raw'|]; [|discriminate]. now injection H as _ <-.
  - rewrite (clear_completed_run _ _ L) in H.
    destruct (keep_open _) as [kept|]; [|discriminate]. now injection H as _ <-.
Qed.

(** ** The sort of [list_tasks] *)

Lemma key_lt_false (a b : Task) : key_lt a b = false -> key_le b a.
Proof.
  unfold key_lt, key_le.
  destruct (completed a), (completed b); cbn; intros H; try discriminate;
    try (right; split; [reflexivity|]; apply Z.ltb_ge in H; lia).
  now left.
Qed.

Lemma key_lt_true (a b : Task) : key_lt a b = true -> key_le a b.
Proof.
  unfold key_lt, key_le.
  destruct (completed a), (completed b); cbn; intros H; try discriminate;
    try (right; split; [reflexivity|]; apply Z.ltb_lt in H; lia).
  now left.
Qed.

Lemma key_le_trans (a b c : Task) : key_le a b -> key_le b c -> key_le a c.
Proof.
  unfold key_le. intros [[H1 H2]|[H1 H2]] [[H3 H4]|[H3 H4]].
  - congruence.
  - left. split; congruence.
  - left. split; congruence.
  - right. split; [congruence|lia].
Qed.

Lemma insert_permutation (x : Task) (l : list Task) :
  Permutation (insert x l) (x :: l).
Proof.
  induction l as [|y l IH]; cbn [insert]; [apply Permutation_refl|].
  destruct (key_lt y x); [|apply Permutation_refl].
  apply perm_trans with (y :: x :: l); [now apply perm_skip|apply perm_swap].
Qed.

Lemma sort_permutation (l : list Task) : Permutation (sort l) l.
Proof.
  induction l as [|x l IH]; cbn [sort]; [apply perm_nil|].
  apply perm_trans with (x :: sort l); [apply insert_permutation|now apply perm_skip].
Qed.

Lemma insert_sorted (x : Task) (l : list Task) :
  Sorted key_le l -> Sorted key_le (insert x l).
Proof.
  induction l as [|y l IH]; intros H; cbn [insert].
  - repeat constructor.
  - destruct (key_lt y x) eqn:E.
    + apply Sorted_inv in H as [H1 H2]. constructor; [now apply IH|].
      destruct l as [|z l]; cbn [insert].
      * constructor. now apply key_lt_true.
      * destruct (key_lt z x); constructor.
        -- now inversion H2.
        -- now apply key_lt_true.
    + constructor; [assumption|]. constructor. now apply key_lt_false.
Qed.

Lemma sort_sorted (l : list Task) : StronglySorted key_le (sort l).
Proof.
  apply Sorted_StronglySorted.
  - intros a b c. apply key_le_trans.
  - induction l as [|x l IH]; cbn [sort]; [constructor|now apply insert_sorted].
Qed.

Lemma sorted_by_id (b : bool) (l : list Task) :
  Forall (fun task => completed task = b) l ->
  StronglySorted key_le l ->
  StronglySorted Z.le (map (fun task => int_value (id task)) l).
Proof.
  intros F S. induction S as [|x l S IH H]; cbn [map]; constructor.
  - apply IH. now inversion F.
  - apply Forall_map. inversion F as [|? ? Fx Fl]; subst.
    rewrite Forall_forall in *. intros y Hy.
    destruct (H y Hy) as [[H1 H2]|[_ H2]]; [|assumption].
    rewrite (Fl y Hy) in H2. congruence.
Qed.

(** ** The comprehension of [list_tasks] *)

Lemma select_tasks_readable (clock : nat -> string) (b : bool) (i : nat)
    (l : list value) :
  Forall readable l ->
  exists selected,
    select_tasks clock b i l = Ok selected /\
    Forall2 read_as (filter (fun t => Bool.eqb (is_done t) b) l) selected /\
    Forall (fun task => completed task = b) selected.
Proof.
  intros R. revert i. induction R as [|t l (items & n & -> & Hn) _ IH]; intros i.
  - exists []. repeat split; constructor.
  - cbn [select_tasks filter get rbind is_done].
    destruct (IH (S i)) as (rest & -> & F2 & Fc).
    destruct (Bool.eqb (py_bool (dict_get "completed" (VBool false) items)) b) eqn:E.
    + rewrite task_from_dict_items, Hn. cbn [rbind].
      exists (parsed (clock i) items n :: rest). split; [reflexivity|]. split.
      * constructor; [|assumption]. exists (clock i).
        now rewrite task_from_dict_items, Hn.
      * constructor; [|assumption]. now apply eqb_prop in E.
    + now exists rest.
Qed.

Lemma list_tasks_readable (clock : nat -> string)
    (is_completed : bool) (s : store) :
  file s <> Undecodable ->
  Forall readable (stored s) ->
  exists tasks selected,
    list_tasks clock is_completed s = (Ok (VList (map _serialize_task tasks)), s) /\
    Forall2 read_as
      (filter (fun t => Bool.eqb (is_done t) is_completed) (stored s)) selected /\
    Permutation selected tasks /\
    Forall (fun task => completed task = is_completed) tasks /\
    StronglySorted key_le tasks /\
    StronglySorted Z.le (map (fun task => int_value (id task)) tasks).
Proof.
  intros D R. destruct (load_decodable _ D) as [db L].
  unfold stored, document in *. rewrite L in *. cbn [fst] in *.
  destruct (select_tasks_readable clock is_completed O _ R) as (selected & S & F2 & Fc).
  exists (sort selected), selected.
  rewrite (list_tasks_run _ _ _ _ L), S.
  assert (Fs : Forall (fun task => completed task = is_completed) (sort selected)).
  { rewrite Forall_forall in *. intros x Hx. apply Fc.
    now apply (Permutation_in _ (sort_permutation selected)). }
  repeat split; trivial.
  - apply Permutation_sym, sort_permutation.
  - apply sort_sorted.
  - apply (sorted_by_id is_completed); [assumption|apply sort_sorted].
Qed.

Lemma read_shows (t : value) (task : Task) :
  read_as t task -> shows t (_serialize_task task).
Proof.
  intros [reading H]. destruct t; try discriminate.
  rewrite task_from_dict_items in H.
  destruct (py_int (dict_get "id" VNone items)) as [n|] eqn:Hn; [|discriminate].
  injection H as <-. exists items, n.
  split; [reflexivity|]. split; [exact Hn|]. do 5 (split; [reflexivity|]).
  exists (created_at (parsed reading items n)). split; [reflexivity|]. split.
  - intros E. pose proof (parsed_created_at reading items n) as P.
    rewrite E in P. discriminate.
  - intros E. cbn [parsed created_at]. now rewrite E.
Qed.

Lemma shown_id_serialize (task : Task) :
  shown_id (_serialize_task task) = int_value (id task).
Proof. reflexivity. Qed.

(** [list_tasks] on readable records, in terms of the dictionaries it
    returns. *)
Lemma list_tasks_shown (clock : nat -> string) (is_completed : bool) (s : store) :
  file s <> Undecodable ->
  Forall readable (stored s) ->
  exists listed selected,
    list_tasks clock is_completed s = (Ok (VList listed), s) /\
    Forall2 shows
      (filter (fun t => Bool.eqb (is_done t) is_completed) (stored s)) selected /\
    Permutation selected listed /\
    Forall (fun v => field "completed" v = Some (VBool is_completed)) listed /\
    StronglySorted Z.le (map shown_id listed).
Proof.
  intros D R.
  destruct (list_tasks_readable clock is_completed s D R)
    as (tasks & selected & Run & F2 & P & C & _ & S).
  exists (map _serialize_task tasks), (map _serialize_task selected).
  split; [exact Run|]. split; [|split; [|split]].
  - clear - F2. induction F2 as [|t task l sel H _ IH]; cbn [map]; constructor.
    + now apply read_shows.
    + exact IH.
  - now apply Permutation_map.
  - apply Forall_map. rewrite Forall_forall in *. intros task I.
    cbn. now rewrite (C task I).
  - rewrite map_map. exact S.
Qed.

(** C7. On a file whose records are all readable, [list_tasks] returns
    tasks that show the records whose [completed] flag is
    [is_completed], each of them once and no other: every returned task
    has [completed] equal to [is_completed], with the id, title,
    [due_date], [created_at] and [completed_at] of its record.  They come
    in the order of the key [(completed, id)]: [completed] ascending, then
    [id] ascending; as the flag is the same for all of them, that is by
    ascending id.  The file is left as it was. *)
Theorem list_tasks_filters_and_orders (clock : nat -> string)
    (is_completed : bool) (s : store) :
  file s <> Undecodable ->
  Forall readable (stored s) ->
  exists listed selected,
    list_tasks clock is_completed s = (Ok (VList listed), s) /\
    Forall2 shows
      (filter (fun t => Bool.eqb (is_done t) is_completed) (stored s)) selected /\
    Permutation selected listed /\
    Forall (fun v => field "completed" v = Some (VBool is_completed)) listed /\
    StronglySorted Z.le (map shown_id listed).
Proof. exact (list_tasks_shown clock is_completed s). Qed.

(** ** Deleting a task *)

Lemma id_or_zero_stored (t : value) (n : Z) : stored_id t = Ok n -> id_or_zero t = n.
Proof. unfold id_or_zero. now intros ->. Qed.

Lemma keep_others_readable (task_id : value) (n : Z) (l : list value) :
  py_int task_id = Ok n -> Forall readable l ->
  keep_others task_id l = Ok (filter (fun t => negb (id_or_zero t =? n)) l).
Proof.
  intros Hn R. induction R as [|t l (items & m & -> & Hm) _ IH]; [reflexivity|].
  cbn [keep_others filter get rbind]. rewrite Hm, Hn, IH. cbn [rbind].
  unfold id_or_zero, stored_id. cbn [get rbind]. rewrite Hm.
  now destruct (m =? n).
Qed.

Lemma filter_absent (n : Z) (l : list value) :
  ~ In n (ids_of l) -> filter (fun t => negb (id_or_zero t =? n)) l = l.
Proof.
  induction l as [|t l IH]; [reflexivity|]. cbn [ids_of map In filter]. intros H.
  destruct (id_or_zero t =? n) eqn:E.
  - apply Z.eqb_eq in E. tauto.
  - cbn [negb]. f_equal. apply IH. tauto.
Qed.


Lemma read_as_id (t : value) (task : Task) :
  read_as t task -> int_value (id task) = id_or_zero t.
Proof.
  intros [reading H]. destruct t; try discriminate.
  rewrite task_from_dict_items in H. unfold id_or_zero, stored_id. cbn [get rbind].
  destruct (py_int (dict_get "id" VNone items)); [|discriminate].
  now injection H as <-.
Qed.


Lemma filter_ids_incl (f : value -> bool) (l : list value) (n : Z) :
  In n (ids_of (filter f l)) -> In n (ids_of l).
Proof.
  unfold ids_of. rewrite !in_map_iff. intros (t & E & H).
  apply filter_In in H as [H _]. now exists t.
Qed.



(** ** [completed_at] and [completed] *)

Lemma consistent_parsed (reading : string) (items : dict) (n : Z) :
  consistent (VDict items) -> consistent (_serialize_task (parsed reading items n)).
Proof.
  intros (items' & [= <-] & H). eexists. split; [reflexivity|].
  cbn. destruct (py_bool (dict_get "completed" (VBool false) items)); exact H.
Qed.

Lemma consistent_read (t : value) (task : Task) :
  consistent t -> read_as t task -> consistent (_serialize_task task).
Proof.
  intros C [reading H]. destruct t; try discriminate.
  rewrite task_from_dict_items in H.
  destruct (py_int (dict_get "id" VNone items)); [|discriminate].
  injection H as <-. now apply consistent_parsed.
Qed.

Lemma consistent_new_task (clock : nat -> string) (title due_date : option string)
    (task_id : value) :
  consistent (_serialize_task (new_task clock title due_date task_id)).
Proof. eexists. split; [reflexivity|]. cbn. split; discriminate. Qed.

Lemma consistent_mark_completed (task : Task) (stamp : string) :
  consistent (_serialize_task (mark_completed task stamp)).
Proof. eexists. split; [reflexivity|]. cbn. now split. Qed.

Lemma consistent_updated (title due_date : option string) (task task' : Task) :
  updated title due_date task = Some task' ->
  consistent (_serialize_task task) -> consistent (_serialize_task task').
Proof.
  unfold updated. intros H (items & [= <-] & C).
  eexists. split; [reflexivity|].
  destruct title as [ti|]; [destruct (is_empty (strip ti)); [discriminate|]|];
    cbn [option_map] in H; injection H as <-; destruct due_date; exact C.
Qed.

Lemma select_tasks_from (clock : nat -> string) (b : bool) (i : nat)
    (l : list value) (selected : list Task) :
  select_tasks clock b i l = Ok selected ->
  Forall (fun task => exists t, In t l /\ read_as t task) selected.
Proof.
  revert i selected. induction l as [|t l IH]; intros i selected; cbn [select_tasks].
  - intros [= <-]. constructor.
  - destruct (get t "completed" (VBool false)); [|discriminate]. cbn [rbind].
    assert (G : forall sel, select_tasks clock b (S i) l = Ok sel ->
                Forall (fun task => exists u, In u (t :: l) /\ read_as u task) sel).
    { intros sel H. apply IH in H. rewrite Forall_forall in *.
      intros task Ht. destruct (H task Ht) as (u & Hu & Hr). exists u. split; [now right|assumption]. }
    destruct (Bool.eqb (py_bool a) b); [|apply G].
    destruct (_task_from_dict (clock i) t) as [task|] eqn:P; [|discriminate]. cbn [rbind].
    destruct (select_tasks clock b (S i) l) as [rest|]; [|discriminate]. cbn [rbind].
    intros [= <-]. constructor; [|now apply G].
    exists t. split; [now left|now exists (clock i)].
Qed.

Lemma keep_others_incl (task_id : value) (l kept : list value) :
  keep_others task_id l = Ok kept -> incl kept l.
Proof.
  revert kept. induction l as [|t l IH]; intros kept; cbn [keep_others].
  - intros [= <-]. apply incl_refl.
  - destruct (get t "id" VNone); [|discriminate]. cbn [rbind].
    destruct (py_int a) as [m|]; [|discriminate]. cbn [rbind].
    destruct (py_int task_id) as [n|]; [|discriminate]. cbn [rbind].
    destruct (keep_others task_id l) as [rest|]; [|discriminate]. cbn [rbind].
    intros [= <-]. specialize (IH _ eq_refl).
    destruct (m =? n); [now apply incl_tl|].
    apply incl_cons; [now left|now apply incl_tl].
Qed.

Lemma keep_open_incl (l kept : list value) :
  keep_open l = Ok kept -> incl kept l.
Proof.
  revert kept. induction l as [|t l IH]; intros kept; cbn [keep_open].
  - intros [= <-]. apply incl_refl.
  - destruct (get t "completed" (VBool false)); [|discriminate]. cbn [rbind].
    destruct (keep_open l) as [rest|]; [|discriminate]. cbn [rbind].
    intros [= <-]. specialize (IH _ eq_refl).
    destruct (negb (py_bool a)); [|now apply incl_tl].
    apply incl_cons; [now left|now apply incl_tl].
Qed.

Lemma Forall_incl {A} (P : A -> Prop) (l l' : list A) :
  incl l' l -> Forall P l -> Forall P l'.
Proof. rewrite !Forall_forall. unfold incl. auto. Qed.

Lemma Forall_replace {A} (P : A -> Prop) (before after : list A) (x y : A) :
  Forall P (before ++ x :: after) -> P y -> Forall P (before ++ y :: after).
Proof.
  rewrite !Forall_app. intros [H1 H2] Hy. split; [assumption|].
  inversion H2; subst. now constructor.
Qed.

Lemma stored_loaded (s : store) (db : dict) :
  _load_db s = (Ok db, s) -> stored s = tasks_of db.
Proof. intros L. unfold stored, document. now rewrite L. Qed.

Lemma invoke_consistent (clock : nat -> string) (c : call) (s s' : store)
    (r : result value) :
  Forall consistent (stored s) ->
  invoke clock c s = (r, s') ->
  Forall consistent (stored s') /\ Forall consistent (returned_tasks c r).
Proof.
  intros C H. destruct r as [v|e].
  2:{ apply invoke_raise in H. subst s'. split; [assumption|]. destruct c; constructor. }
  destruct (load_cases s) as [[db L]|[e0 L]].
  2:{ destruct (invoke_undecodable clock c s e0 L) as [e' E]. congruence. }
  destruct (load_ok _ _ _ L) as (_ & W).
  rewrite (stored_loaded _ _ L) in C.
  destruct c as [ti du|b|task_id|task_id|task_id ti du|]; cbn [invoke] in H.
  - destruct (is_empty (stripped_title ti)) eqn:T.
    { rewrite add_task_empty_title in H by assumption. discriminate. }
    rewrite (add_task_run _ _ _ _ _ L T) in H. injection H as <- <-.
    pose proof (consistent_new_task clock ti du (next_id_of db)) as N.
    split; [|now repeat constructor].
    unfold stored. rewrite document_saved by now apply well_shaped_add.
    rewrite tasks_of_set_tasks. apply Forall_app. split; [assumption|now constructor].
  - rewrite (list_tasks_run _ _ _ _ L) in H.
    destruct (select_tasks clock b 0 (tasks_of db)) as [selected|] eqn:S; [|discriminate].
    injection H as <- <-. split; [now rewrite (stored_loaded _ _ L)|].
    cbn [returned_tasks]. apply Forall_map.
    apply select_tasks_from in S. rewrite Forall_forall in *.
    intros task Ht. apply (Permutation_in _ (sort_permutation selected)) in Ht.
    destruct (S task Ht) as (t & It & Rt). apply (consistent_read t); auto.
  - rewrite (complete_task_run _ _ _ _ L) in H.
    destruct (locate task_id 0 (tasks_of db)) as [[[k t]|]|] eqn:F; try discriminate.
    destruct (locate_found _ _ _ _ _ F) as (before & after & n & Hraw & -> & Ht & Hn & Hb).
    destruct (stored_id_parses (clock O) _ _ Ht) as (items & -> & P).
    rewrite P in H.
    assert (Ct : consistent (_serialize_task (parsed (clock O) items n))).
    { apply consistent_parsed. rewrite Hraw in C. apply Forall_app in C as [_ C].
      now inversion C. }
    destruct (completed (parsed (clock O) items n)).
    + injection H as <- <-. split; [now rewrite (stored_loaded _ _ L)|].
      now repeat constructor.
    + cbv zeta in H. rewrite Hraw in H. cbn [Nat.add] in H.
      rewrite list_set_middle in H. injection H as <- <-.
      rewrite stored_saved_tasks by assumption.
      split; [|repeat constructor; apply consistent_mark_completed].
      rewrite Hraw in C. apply (Forall_replace _ _ _ _ _ C).
      apply consistent_mark_completed.
  - rewrite (delete_task_run _ _ _ L) in H.
    destruct (keep_others task_id (tasks_of db)) as [kept|] eqn:K; [|discriminate].
    destruct (_ =? _)%nat; [discriminate|].
    destruct (py_int task_id); [|discriminate]. injection H as <- <-.
    rewrite stored_saved_tasks by assumption. split; [|constructor].
    apply (Forall_incl _ _ _ (keep_others_incl _ _ _ K) C).
  - rewrite (update_task_run _ _ _ _ _ _ L) in H.
    destruct (locate task_id 0 (tasks_of db)) as [[[k t]|]|] eqn:F; try discriminate.
    destruct (locate_found _ _ _ _ _ F) as (before & after & n & Hraw & -> & Ht & Hn & Hb).
    destruct (stored_id_parses (clock O) _ _ Ht) as (items & -> & P).
    rewrite P in H.
    assert (Ct : consistent (_serialize_task (parsed (clock O) items n))).
    { apply consistent_parsed. rewrite Hraw in C. apply Forall_app in C as [_ C].
      now inversion C. }
    destruct (updated ti du (parsed (clock O) items n)) as [task'|] eqn:U; [|discriminate].
    apply (consistent_updated _ _ _ _ U) in Ct.
    rewrite Hraw in H. cbn [Nat.add] in H.
    rewrite list_set_middle in H. injection H as <- <-.
    rewrite stored_saved_tasks by assumption.
    split; [|now repeat constructor].
    rewrite Hraw in C. apply (Forall_replace _ _ _ _ _ C Ct).
  - rewrite (clear_completed_run _ _ L) in H.
    destruct (keep_open (tasks_of db)) as [kept|] eqn:K; [|discriminate].
    injection H as <- <-.
    rewrite stored_saved_tasks by assumption. split; [|constructor].
    apply (Forall_incl _ _ _ (keep_open_incl _ _ K) C).
Qed.

(** C8. [completed_at] is non-null exactly when [completed] is true, for
    every task the operations return or keep in the file: if it holds of
    the records an operation starts from (as it does of an absent or
    empty file), it holds of the records in the file after every
    sequence of invocations and of every task they return.  [add_task]
    writes [completed = False] with [completed_at = None],
    [complete_task] sets the two together and [update_task] copies
    both. *)
Theorem completed_at_iff_completed (calls : list ((nat -> string) * call))
    (s s' : store) (results : list (result value)) :
  Forall consistent (stored s) ->
  invoke_all calls s = (results, s') ->
  Forall consistent (stored s') /\
  Forall2 (fun cc r => Forall consistent (returned_tasks (snd cc) r)) calls results.
Proof.
  revert s s' results. induction calls as [|[clock c] calls IH]; intros s s' results C H.
  - cbn in H. injection H as <- <-. split; [assumption|constructor].
  - cbn [invoke_all] in H.
    destruct (invoke clock c s) as [r s1] eqn:I.
    destruct (invoke_all calls s1) as [rs s2] eqn:R.
    injection H as <- <-.
    destruct (invoke_consistent _ _ _ _ _ C I) as (C1 & Cr).
    destruct (IH _ _ _ C1 R) as (C2 & Crs).
    split; [assumption|]. now constructor.
Qed.

(** ** The id argument is coerced with [int] *)

Lemma locate_coerced (a b : value) (i : nat) (l : list value) :
  py_int a = py_int b -> locate a i l = locate b i l.
Proof.
  intros E. revert i. induction l as [|t l IH]; intros i; [reflexivity|].
  cbn [locate]. rewrite E. destruct (stored_id t); [|reflexivity]. cbn [rbind].
  destruct (py_int b); [|reflexivity]. cbn [rbind]. now rewrite IH.
Qed.

Lemma keep_others_coerced (a b : value) (l : list value) :
  py_int a = py_int b -> keep_others a l = keep_others b l.
Proof.
  intros E. induction l as [|t l IH]; [reflexivity|].
  cbn [keep_others]. now rewrite E, IH.
Qed.

Lemma locate_present (task_id : value) (n : Z) (i : nat) (l : list value) :
  py_int task_id = Ok n -> In n (ids_of l) -> locate task_id i l <> Ok None.
Proof.
  intros Hn I H. destruct (locate_missing _ _ _ H) as [->|(m & Hm & F)]; [easy|].
  replace m with n in F by congruence.
  unfold ids_of in I. apply in_map_iff in I as (t & Ht & It).
  rewrite Forall_forall in F. destruct (F t It) as (k & Hk & N).
  apply id_or_zero_stored in Hk. congruence.
Qed.

Lemma keep_others_length (task_id : value) (l kept : list value) :
  keep_others task_id l = Ok kept -> (List.length kept <= List.length l)%nat.
Proof.
  intros H. apply keep_others_incl in H as I. revert kept H I.
  induction l as [|t l IH]; intros kept; cbn [keep_others].
  - intros [= <-]. lia.
  - destruct (get t "id" VNone); [|discriminate]. cbn [rbind].
    destruct (py_int a) as [m|]; [|discriminate]. cbn [rbind].
    destruct (py_int task_id) as [n|]; [|discriminate]. cbn [rbind].
    destruct (keep_others task_id l) as [rest|] eqn:K; [|discriminate]. cbn [rbind].
    intros [= <-] _. specialize (IH _ eq_refl (keep_others_incl _ _ _ K)).
    destruct (m =? n); cbn [List.length]; lia.
Qed.

Lemma keep_others_present (task_id : value) (n : Z) (l kept : list value) :
  py_int task_id = Ok n -> In n (ids_of l) ->
  keep_others task_id l = Ok kept -> List.length kept <> List.length l.
Proof.
  intros Hn. revert kept. induction l as [|t l IH]; intros kept; [intros []|].
  cbn [ids_of map In keep_others]. intros I.
  unfold id_or_zero, stored_id in I.
  destruct (get t "id" VNone); [|discriminate]. cbn [rbind] in *.
  destruct (py_int a) as [m|]; [|discriminate]. cbn [rbind].
  rewrite Hn. cbn [rbind].
  destruct (keep_others task_id l) as [rest|] eqn:K; [|discriminate]. cbn [rbind].
  intros [= <-]. pose proof (keep_others_length _ _ _ K).
  destruct (m =? n) eqn:E; cbn [List.length]; [lia|].
  apply Z.eqb_neq in E. destruct I as [I|I]; [contradiction|].
  specialize (IH _ I eq_refl). lia.
Qed.

Lemma stored_nonempty_loads (s : store) (n : Z) :
  In n (ids_of (stored s)) -> exists db, _load_db s = (Ok db, s).
Proof.
  intros I. destruct (load_cases s) as [H|[e L]]; [assumption|].
  unfold stored, document in I. rewrite L in I. destruct I.
Qed.

(** ** Finding a record among readable ones *)

Lemma locate_absent (task_id : value) (n : Z) (i : nat) (l : list value) :
  Forall readable l -> py_int task_id = Ok n -> ~ In n (ids_of l) ->
  locate task_id i l = Ok None.
Proof.
  intros R Hn. revert i.
  induction R as [|t l Rt _ IH]; intros i N; [reflexivity|].
  apply readable_stored_id in Rt as [m Hm].
  cbn [locate]. rewrite Hm, Hn. cbn [rbind].
  cbn [ids_of map In] in N. rewrite (id_or_zero_stored _ _ Hm) in N.
  destruct (m =? n) eqn:E; [apply Z.eqb_eq in E; tauto|].
  apply IH. unfold ids_of. tauto.
Qed.

Lemma locate_first (task_id : value) (n : Z) (i : nat) (l : list value) :
  Forall readable l -> py_int task_id = Ok n -> In n (ids_of l) ->
  exists before items after,
    l = before ++ VDict items :: after /\
    py_int (dict_get "id" VNone items) = Ok n /\
    ~ In n (ids_of before) /\
    locate task_id i l = Ok (Some ((i + List.length before)%nat, VDict items)).
Proof.
  intros R Hn. revert i.
  induction R as [|t l Rt _ IH]; intros i I; [destruct I|].
  destruct Rt as (items & m & -> & Hm).
  assert (Sm : stored_id (VDict items) = Ok m) by exact Hm.
  cbn [locate]. rewrite Sm, Hn. cbn [rbind].
  destruct (m =? n) eqn:E.
  - apply Z.eqb_eq in E. subst m. exists [], items, l.
    cbn [app List.length]. rewrite Nat.add_0_r. repeat split; trivial. intros [].
  - cbn [ids_of map In] in I. rewrite (id_or_zero_stored _ _ Sm) in I.
    apply Z.eqb_neq in E. destruct I as [I|I]; [contradiction|].
    destruct (IH (S i) I) as (before & items' & after & -> & Hi & N & F).
    exists (VDict items :: before), items', after. cbn [app List.length].
    split; [reflexivity|]. split; [exact Hi|]. split.
    + cbn [ids_of map In]. rewrite (id_or_zero_stored _ _ Sm).
      unfold ids_of in N. tauto.
    + rewrite F. do 3 f_equal. lia.
Qed.

(** C10. [complete_task], [update_task] and [delete_task] find their task
    by comparing [int(t.get("id"))] with [int(task_id)].  So a [task_id]
    that [int] takes to the id [n] of a stored record (the float [1.9] or
    [True] for the id 1) does what the integer [n] does: the search
    stops at the same record, the result and the store afterwards are the
    same.  On readable records the record selected is the first whose
    stored id, whatever value it is, [int] takes to [n]: [complete_task]
    returns that task, completed, under the id [n], and writes it in
    place of the record if this was open; [update_task], given no blank
    title, returns the task under the id [n] and writes it in place of
    the record; [delete_task] returns [n] and removes the records whose
    id [int] takes to [n], and no other. *)
Theorem task_id_coerced_with_int (clock : nat -> string) (task_id : value)
    (n : Z) (title due_date : option string) (s : store) :
  py_int task_id = Ok n ->
  In n (ids_of (stored s)) ->
  locate task_id O (stored s) = locate (VInt n) O (stored s) /\
  complete_task clock task_id s = complete_task clock (VInt n) s /\
  update_task clock task_id title due_date s =
    update_task clock (VInt n) title due_date s /\
  delete_task task_id s = delete_task (VInt n) s /\
  (Forall readable (stored s) ->
   exists before items after,
     stored s = before ++ VDict items :: after /\
     ~ In n (ids_of before) /\
     py_int (dict_get "id" VNone items) = Ok n /\
     locate task_id O (stored s) = Ok (Some (List.length before, VDict items)) /\
     (exists r s',
        complete_task clock task_id s = (Ok r, s') /\
        field "id" r = Some (VInt n) /\
        field "title" r =
          Some (VStr (py_str (dict_get "title" (VStr EmptyString) items))) /\
        field "completed" r = Some (VBool true) /\
        stored s' =
          before ++ (if is_done (VDict items) then VDict items else r) :: after) /\
     (match title with Some t => is_empty (strip t) = false | None => True end ->
      exists r s',
        update_task clock task_id title due_date s = (Ok r, s') /\
        field "id" r = Some (VInt n) /\
        field "completed" r = Some (VBool (is_done (VDict items))) /\
        stored s' = before ++ r :: after) /\
     (exists s',
        delete_task task_id s =
        (Ok (VDict [("deleted", VBool true); ("task_id", VInt n)]), s') /\
        stored s' = filter (other_id n) (stored s))).
Proof.
  intros Hn I. destruct (stored_nonempty_loads _ _ I) as [db L].
  destruct (load_ok _ _ _ L) as (_ & W).
  rewrite (stored_loaded _ _ L) in *.
  assert (E : py_int task_id = py_int (VInt n)) by exact Hn.
  pose proof (locate_coerced _ _ O (tasks_of db) E) as El.
  pose proof (locate_present _ _ O _ Hn I) as P.
  split; [exact El|]. split; [|split; [|split]].
  - rewrite !(complete_task_run _ _ _ _ L), <- El.
    destruct (locate task_id 0 (tasks_of db)) as [[[k t]|]|]; congruence.
  - rewrite !(update_task_run _ _ _ _ _ _ L), <- El.
    destruct (locate task_id 0 (tasks_of db)) as [[[k t]|]|]; congruence.
  - rewrite !(delete_task_run _ _ _ L), <- (keep_others_coerced _ _ _ E), Hn.
    destruct (keep_others task_id (tasks_of db)) as [kept|] eqn:K; [|reflexivity].
    apply (keep_others_present _ _ _ _ Hn I) in K. apply Nat.eqb_neq in K.
    now rewrite K.
  - intros R.
    destruct (locate_first task_id n O _ R Hn I)
      as (before & items & after & Eq & Hi & N & F).
    cbn [Nat.add] in F.
    exists before, items, after.
    split; [exact Eq|]. split; [exact N|]. split; [exact Hi|]. split; [exact F|].
    split; [|split].
    + rewrite (complete_task_run _ _ _ _ L), F, task_from_dict_items, Hi.
      cbn [parsed completed is_done].
      destruct (py_bool (dict_get "completed" (VBool false) items)) eqn:C.
      * eexists _, _. split; [reflexivity|].
        rewrite (stored_loaded _ _ L).
        repeat split; [cbn; now rewrite C|exact Eq].
      * cbv zeta. rewrite Eq, list_set_middle.
        eexists _, _. split; [reflexivity|].
        rewrite stored_saved_tasks by assumption. repeat split.
    + intros T.
      assert (U : exists task',
                 updated title due_date (parsed (clock O) items n) = Some task').
      { unfold updated. destruct title as [t|]; [rewrite T|]; now eexists. }
      destruct U as [task' U].
      rewrite (update_task_run _ _ _ _ _ _ L), F, task_from_dict_items, Hi, U.
      rewrite Eq, list_set_middle.
      eexists _, _. split; [reflexivity|].
      rewrite stored_saved_tasks by assumption.
      assert (Ui : id task' = VInt n /\
                   completed task' =
                     py_bool (dict_get "completed" (VBool false) items)).
      { unfold updated in U. destruct title as [t|]; [rewrite T in U|];
          cbn [option_map] in U; injection U as <-; destruct due_date;
          split; reflexivity. }
      destruct Ui as (Ui & Uc).
      split; [cbn; now rewrite Ui|]. split; [cbn; now rewrite Uc|reflexivity].
    + pose proof (keep_others_readable _ _ _ Hn R) as K. fold (other_id n) in K.
      pose proof (keep_others_present _ _ _ _ Hn I K) as Ne.
      destruct (delete_task_run_removed _ _ _ _ L K Ne) as (n' & Hn' & Run).
      replace n' with n in Run by congruence.
      eexists. split; [exact Run|]. now apply stored_saved_tasks.
Qed.

(** ** Loading *)

Lemma validate_top_level (d : dict) :
  has_key "next_id" d && has_key "tasks" d = true ->
  tasks_of (validate (VDict d)) =
    match dict_get "tasks" VNone d with VList l => l | _ => [] end /\
  next_id_of (validate (VDict d)) =
    (if positive_int (dict_get "next_id" VNone d)
     then dict_get "next_id" VNone d else VInt 1) /\
  forall k, k <> "next_id" -> k <> "tasks" ->
    lookup k (validate (VDict d)) = lookup k d.
Proof.
  intros H. apply andb_prop in H as [H1 H2].
  unfold validate. rewrite H1, H2. cbn [negb orb].
  unfold has_key in H1, H2. unfold dict_get, positive_int.
  destruct (lookup "next_id" d) as [n|] eqn:Hn; [|discriminate].
  destruct (lookup "tasks" d) as [t|] eqn:Ht; [|discriminate].
  set (d1 := if negb (isinstance_list t) then setitem "tasks" (VList []) d else d).
  assert (N1 : lookup "next_id" d1 = Some n).
  { unfold d1. destruct (negb (isinstance_list t)); [|assumption].
    rewrite lookup_setitem_other; [assumption|discriminate]. }
  assert (T1 : lookup "tasks" d1 = Some (VList match t with VList l => l | _ => [] end)).
  { unfold d1. destruct t; cbn [isinstance_list negb];
      try apply lookup_setitem_same. assumption. }
  assert (O1 : forall k, k <> "tasks" -> lookup k d1 = lookup k d).
  { intros k Hk. unfold d1. destruct (negb (isinstance_list t)); [|reflexivity].
    apply lookup_setitem_other. congruence. }
  rewrite N1. unfold tasks_of, next_id_of, dict_get.
  destruct (negb (isinstance_int n) || below_one n) eqn:E.
  - rewrite lookup_setitem_other by discriminate. rewrite T1, lookup_setitem_same.
    assert (E' : isinstance_int n && negb (below_one n) = false).
    { destruct (isinstance_int n), (below_one n); trivial; discriminate. }
    rewrite E'. repeat split; trivial.
    intros k K1 K2. rewrite lookup_setitem_other by congruence. now apply O1.
  - rewrite T1, N1.
    assert (E' : isinstance_int n && negb (below_one n) = true).
    { destruct (isinstance_int n), (below_one n); trivial; discriminate. }
    rewrite E'. repeat split; trivial. intros k _ K2. now apply O1.
Qed.

Lemma well_shaped_positive (db : dict) :
  well_shaped db -> positive_int (next_id_of db) = true /\ 1 <= int_value (next_id_of db).
Proof.
  intros (n & l & Hn & Hi & Hb & _). unfold next_id_of, dict_get, positive_int.
  rewrite Hn, Hi, Hb. split; [reflexivity|].
  destruct n as [|[|]|z| | | |]; try discriminate; cbn in *; lia.
Qed.

(** C2. The code against the claim.  [_load_db] is meant to start afresh
    on a corrupted file, and does so when the text of the file is not
    JSON; but it catches [json.JSONDecodeError] only.  On a file whose
    bytes are not UTF-8 text, reading raises [UnicodeDecodeError]:
    [_load_db] fails instead of returning the fresh Document, and
    [list_tasks] and [add_task] pass the error on to their caller. *)
Theorem load_db_fails_on_undecodable_file :
  _load_db not_text = (Raise UnicodeDecodeError, not_text) /\
  list_tasks noon false not_text = (Raise UnicodeDecodeError, not_text) /\
  add_task noon (Some "buy milk") None not_text = (Raise UnicodeDecodeError, not_text) /\
  _load_db not_json = (Ok _default_db, not_json) /\
  list_tasks noon false not_json = (Ok (VList []), not_json).
Proof. repeat split. Qed.

(** C5, as the code has it.  [_load_db] returns the records as they are
    in the file; a record is parsed when an operation reads it with
    [_task_from_dict].  Reading a dictionary whose id [int] accepts gives
    a task in which a missing [title], [due_date], [completed] or
    [completed_at] has its default (the empty string, [None], [False],
    [None]) and a missing or empty [created_at] is the timestamp of the
    reading, so that the [created_at] of a task read this way is never
    empty. *)
Theorem task_from_dict_defaults (reading : string) (items : dict) :
  (forall n,
     py_int (dict_get "id" VNone items) = Ok n ->
     exists task,
       _task_from_dict reading (VDict items) = Ok task /\
       id task = VInt n /\
       (lookup "title" items = None -> title task = EmptyString) /\
       (lookup "due_date" items = None -> due_date task = VNone) /\
       (lookup "completed" items = None -> completed task = false) /\
       (lookup "completed_at" items = None -> completed_at task = VNone) /\
       (lookup "created_at" items = None \/
        lookup "created_at" items = Some (VStr EmptyString) ->
        created_at task = _now_iso reading) /\
       created_at task <> EmptyString)
  /\
  (forall s d l,
     file s = Json (VDict d) -> has_key "next_id" d = true ->
     lookup "tasks" d = Some (VList l) -> stored s = l).
Proof.
  split.
  - intros n Hn. exists (parsed reading items n).
    rewrite task_from_dict_items, Hn. split; [reflexivity|]. split; [reflexivity|].
    unfold parsed, dict_get. cbn [title due_date completed completed_at created_at].
    repeat split.
    + now intros ->.
    + now intros ->.
    + now intros ->.
    + now intros ->.
    + now intros [-> | ->].
    + intros E. pose proof (parsed_created_at reading items n) as P.
      unfold parsed, dict_get in P. cbn [created_at] in P. rewrite E in P. discriminate.
  - intros s d l F K T. unfold stored, document, _load_db. rewrite F. cbn [fst].
    assert (K2 : has_key "next_id" d && has_key "tasks" d = true).
    { unfold has_key in *. now rewrite T, K. }
    destruct (validate_top_level d K2) as (-> & _). unfold dict_get. now rewrite T.
Qed.

(** ** Stores written by the operations *)

Lemma keep_others_filter (task_id : value) (l kept : list value) :
  keep_others task_id l = Ok kept -> exists f, kept = filter f l.
Proof.
  intros H.
  destruct l as [|t l]; [injection H as <-; now exists (fun _ => true)|].
  destruct (keep_others_wanted _ _ _ H) as [n Hn]; [discriminate|].
  exists (fun t => negb (id_or_zero t =? n)).
  revert kept H. generalize (t :: l). clear t l.
  induction l as [|t l IH]; intros kept; cbn [keep_others filter].
  - now intros [= <-].
  - unfold id_or_zero, stored_id.
    destruct (get t "id" VNone); [|discriminate]. cbn [rbind].
    destruct (py_int a) as [m|]; [|discriminate]. cbn [rbind]. rewrite Hn. cbn [rbind].
    destruct (keep_others task_id l) as [rest|]; [|discriminate]. cbn [rbind].
    intros [= <-]. rewrite (IH _ eq_refl). now destruct (m =? n).
Qed.

Lemma keep_open_filter (l kept : list value) :
  keep_open l = Ok kept -> kept = filter (fun t => negb (is_done t)) l.
Proof.
  revert kept. induction l as [|t l IH]; intros kept; cbn [keep_open filter].
  - now intros [= <-].
  - destruct t; try discriminate. cbn [get rbind is_done].
    destruct (keep_open l) as [rest|]; [|discriminate]. cbn [rbind].
    intros [= <-]. now rewrite (IH _ eq_refl).
Qed.

Lemma ids_of_filter_nodup (f : value -> bool) (l : list value) :
  NoDup (ids_of l) -> NoDup (ids_of (filter f l)).
Proof.
  induction l as [|t l IH]; cbn [ids_of map filter]; [trivial|].
  intros H. apply NoDup_cons_iff in H as [H1 H2].
  destruct (f t); [|now apply IH]. cbn [map]. apply NoDup_cons; [|now apply IH].
  intros I. apply H1. now apply (filter_ids_incl f).
Qed.

Lemma ids_of_filter_forall (P : Z -> Prop) (f : value -> bool) (l : list value) :
  Forall P (ids_of l) -> Forall P (ids_of (filter f l)).
Proof.
  rewrite !Forall_forall. intros H n I. apply H. now apply (filter_ids_incl f).
Qed.

Lemma ids_of_replace (before after : list value) (t t' : value) :
  id_or_zero t' = id_or_zero t ->
  ids_of (before ++ t' :: after) = ids_of (before ++ t :: after).
Proof. intros E. unfold ids_of. rewrite !map_app. cbn [map]. now rewrite E. Qed.

Lemma readable_serialize (task : Task) (n : Z) :
  id task = VInt n -> readable (_serialize_task task).
Proof. intros H. eexists _, n. split; [reflexivity|]. cbn. now rewrite H. Qed.

Lemma updated_id (title due_date : option string) (task task' : Task) :
  updated title due_date task = Some task' -> id task' = id task.
Proof.
  unfold updated. destruct title as [ti|];
    [destruct (is_empty (strip ti)); [discriminate|]|];
    cbn [option_map]; intros [= <-]; now destruct due_date.
Qed.

(** What an invocation makes of the list of records: nothing, one more
    record under the id [next_id], a record replaced by one with the same
    id, or some records removed. *)
Lemma invoke_stored (clock : nat -> string) (c : call) (s s' : store)
    (r : result value) :
  file s <> Undecodable ->
  invoke clock c s = (r, s') ->
  stored s' = stored s
  \/ (allocating c = true /\
      exists t, stored s' = stored s ++ [t] /\ readable t /\ consistent t /\
                id_or_zero t = next_number s)
  \/ (exists before t t' after,
        stored s = before ++ t :: after /\ stored s' = before ++ t' :: after /\
        readable t' /\ id_or_zero t' = id_or_zero t)
  \/ (exists f, stored s' = filter f (stored s)).
Proof.
  intros D H. destruct (load_decodable _ D) as [db L].
  destruct (load_ok _ _ _ L) as (_ & W).
  destruct r as [v|e]; [|left; now rewrite (invoke_raise _ _ _ _ _ H)].
  rewrite (next_number_loaded _ _ L), (stored_loaded _ _ L).
  destruct c as [ti du|b|task_id|task_id|task_id ti du|]; cbn [invoke] in H.
  - destruct (is_empty (stripped_title ti)) eqn:T.
    { rewrite add_task_empty_title in H by assumption. discriminate. }
    rewrite (add_task_run _ _ _ _ _ L T) in H. injection H as <- <-.
    right. left. cbn [allocating]. rewrite T. split; [reflexivity|].
    eexists. unfold stored.
    rewrite document_saved by now apply well_shaped_add.
    rewrite tasks_of_set_tasks. split; [reflexivity|].
    destruct W as (n & l & Hn & Hi & _).
    assert (P : py_int (next_id_of db) = Ok (int_value (next_id_of db))).
    { unfold next_id_of, dict_get. rewrite Hn.
      destruct n as [|[|]| | | | |]; try discriminate; reflexivity. }
    assert (Sid : stored_id (_serialize_task (new_task clock ti du (next_id_of db)))
                  = Ok (int_value (next_id_of db))) by exact P.
    split; [|split; [apply consistent_new_task|exact (id_or_zero_stored _ _ Sid)]].
    apply readable_stored_id. eexists. exact Sid.
  - rewrite (list_tasks_run _ _ _ _ L) in H.
    destruct (select_tasks _ _ _ _); injection H as _ <-; left;
      now rewrite (stored_loaded _ _ L).
  - rewrite (complete_task_run _ _ _ _ L) in H.
    destruct (locate task_id 0 (tasks_of db)) as [[[k t]|]|] eqn:F; try discriminate.
    destruct (locate_found _ _ _ _ _ F) as (before & after & n & Hraw & -> & Ht & Hn & Hb).
    destruct (stored_id_parses (clock O) _ _ Ht) as (items & -> & P).
    rewrite P in H.
    destruct (completed (parsed (clock O) items n)).
    { injection H as _ <-. left. now rewrite (stored_loaded _ _ L). }
    cbv zeta in H. rewrite Hraw in H. cbn [Nat.add] in H.
    rewrite list_set_middle in H. injection H as _ <-.
    rewrite stored_saved_tasks by assumption.
    right. right. left. eexists before, _, _, after.
    split; [exact Hraw|]. split; [reflexivity|].
    split; [now apply (readable_serialize _ n)|].
    rewrite (id_or_zero_stored _ _ Ht). apply id_or_zero_stored.
    now apply stored_id_serialize.
  - rewrite (delete_task_run _ _ _ L) in H.
    destruct (keep_others task_id (tasks_of db)) as [kept|] eqn:K; [|discriminate].
    destruct (_ =? _)%nat; [discriminate|].
    destruct (py_int task_id); [|discriminate]. injection H as _ <-.
    rewrite stored_saved_tasks by assumption.
    right. right. right. now apply (keep_others_filter task_id).
  - rewrite (update_task_run _ _ _ _ _ _ L) in H.
    destruct (locate task_id 0 (tasks_of db)) as [[[k t]|]|] eqn:F; try discriminate.
    destruct (locate_found _ _ _ _ _ F) as (before & after & n & Hraw & -> & Ht & Hn & Hb).
    destruct (stored_id_parses (clock O) _ _ Ht) as (items & -> & P).
    rewrite P in H.
    destruct (updated ti du (parsed (clock O) items n)) as [task'|] eqn:U; [|discriminate].
    apply updated_id in U. cbn [parsed id] in U.
    rewrite Hraw in H. cbn [Nat.add] in H.
    rewrite list_set_middle in H. injection H as _ <-.
    rewrite stored_saved_tasks by assumption.
    right. right. left. eexists before, _, _, after.
    split; [exact Hraw|]. split; [reflexivity|].
    split; [now apply (readable_serialize _ n)|].
    rewrite (id_or_zero_stored _ _ Ht). apply id_or_zero_stored.
    now apply stored_id_serialize.
  - rewrite (clear_completed_run _ _ L) in H.
    destruct (keep_open (tasks_of db)) as [kept|] eqn:K; [|discriminate].
    injection H as _ <-.
    rewrite stored_saved_tasks by assumption.
    right. right. right. eexists. now apply keep_open_filter.
Qed.

Lemma fresh_sound : sound fresh.
Proof.
  split; [discriminate|]. unfold stored, document. cbn.
  repeat split; constructor.
Qed.

(** Every invocation keeps a sound store sound. *)
Lemma invoke_sound (clock : nat -> string) (c : call) (s s' : store)
    (r : result value) :
  sound s -> invoke clock c s = (r, s') -> sound s'.
Proof.
  intros (D & R & U & B & C) H.
  destruct (invoke_allocates _ _ _ _ _ D H) as (D' & _ & N).
  destruct (invoke_consistent _ _ _ _ _ C H) as (C' & _).
  assert (Le : next_number s <= next_number s') by (destruct (allocating c); lia).
  assert (B' : Forall (fun n => n < next_number s') (ids_of (stored s))).
  { rewrite Forall_forall in *. intros n I. specialize (B n I). lia. }
  split; [exact D'|].
  destruct (invoke_stored _ _ _ _ _ D H)
    as [E'|[(A & t & E' & Rt & _ & It)
           |[(before & t & t' & after & E & E' & Rt & It)|(f & E')]]];
    rewrite E' in *; clear E'.
  - now repeat split.
  - rewrite A in N. unfold ids_of. rewrite map_app. cbn [map]. fold (ids_of (stored s)).
    split; [|split; [|split; [|assumption]]].
    + apply Forall_app. split; [assumption|now constructor].
    + rewrite It. apply Permutation_NoDup with (next_number s :: ids_of (stored s)).
      * apply Permutation_cons_append.
      * apply NoDup_cons; [|assumption]. intros I.
        rewrite Forall_forall in B. specialize (B _ I). lia.
    + apply Forall_app. split; [assumption|]. constructor; [lia|constructor].
  - rewrite (ids_of_replace _ _ _ _ It), <- E.
    split; [|split; [|split]]; trivial.
    rewrite E in R. apply (Forall_replace _ _ _ _ _ R Rt).
  - split; [|split; [|split]]; trivial.
    + apply (Forall_incl _ (stored s)); [apply incl_filter|assumption].
    + now apply ids_of_filter_nodup.
    + now apply ids_of_filter_forall.
Qed.

(** Whatever is invoked on a store that starts without a file, the store
    is sound afterwards: the statements above that ask for readable
    records and distinct ids apply to it. *)
Lemma invoke_all_sound (calls : list ((nat -> string) * call)) (s s' : store)
    (results : list (result value)) :
  sound s -> invoke_all calls s = (results, s') -> sound s'.
Proof.
  revert s results. induction calls as [|[clock c] calls IH]; intros s results S H.
  - cbn in H. now injection H as _ <-.
  - cbn [invoke_all] in H.
    destruct (invoke clock c s) as [r s1] eqn:I.
    destruct (invoke_all calls s1) as [rs s2] eqn:R.
    injection H as _ <-. apply (IH s1 rs); [|assumption].
    now apply (invoke_sound _ _ _ _ _ S I).
Qed.

(** ** The statements at work on the example files *)

Lemma add_task_ids_increase_witness :
  file fresh <> Undecodable /\
  invoke_all session fresh = (session_results, session_end) /\
  allocated session session_results = [1; 2; 3] /\
  next_number session_end = next_number fresh + 3 /\
  StronglySorted Z.lt (allocated session session_results) /\
  NoDup (allocated session session_results).
Proof.
  assert (D : file fresh <> Undecodable) by discriminate.
  assert (R : invoke_all session fresh = (session_results, session_end))
    by (vm_compute; reflexivity).
  destruct (add_task_ids_increase session fresh session_end session_results D R)
    as (A & _ & N & S & U).
  split; [exact D|]. split; [exact R|]. split; [exact A|].
  split; [exact N|]. split; [exact S|exact U].
Defined.

(** A record without an id is not repaired by [_load_db]: [list_tasks]
    raises on the file [legacy]. *)
Lemma malformed_record_is_surfaced :
  file legacy <> Undecodable /\
  list_tasks noon false legacy = (Raise TypeError, legacy) /\
  complete_task noon (VInt 2) legacy = (Raise TypeError, legacy).
Proof. split; [discriminate|]. split; vm_compute; reflexivity. Qed.


Lemma failed_invocation_leaves_store_witness :
  invoke noon (UpdateTask (VInt 9) (Some "x") None) two_open
    = (Raise (ValueError (task_id_not_found (VInt 9))), two_open) /\
  invoke noon (AddTask (Some "  ") None) two_open
    = (Raise (ValueError title_must_be_non_empty), two_open) /\
  file two_open = file two_open /\ saves two_open = saves two_open.
Proof.
  assert (H : invoke noon (UpdateTask (VInt 9) (Some "x") None) two_open
              = (Raise (ValueError (task_id_not_found (VInt 9))), two_open))
    by (vm_compute; reflexivity).
  split; [exact H|]. split; [vm_compute; reflexivity|].
  destruct (failed_invocation_leaves_store _ _ _ _ _ H) as (_ & F & S & _).
  split; [exact F|exact S].
Defined.

(** [_load_db] returns the first record of [legacy] without a
    [created_at], and [_task_from_dict] has no default for the id that
    the second lacks. *)
Lemma load_returns_records_unparsed :
  exists first second,
    stored legacy = [first; second] /\
    field "created_at" first = None /\
    field "id" second = None /\
    _task_from_dict (noon O) second = Raise TypeError.
Proof. eexists _, _. repeat split; vm_compute; reflexivity. Qed.

Lemma task_from_dict_defaults_witness :
  py_int (dict_get "id" VNone [("id", VStr " 7 "); ("created_at", VStr EmptyString)])
    = Ok 7 /\
  (exists task,
     _task_from_dict (noon O)
       (VDict [("id", VStr " 7 "); ("created_at", VStr EmptyString)]) = Ok task /\
     id task = VInt 7 /\ title task = EmptyString /\
     created_at task = "2026-01-15T12:00:00Z") /\
  stored two_open = [record 1 "buy milk" false VNone; record 2 "call Ann" false VNone].
Proof.
  assert (H : py_int (dict_get "id" VNone
                        [("id", VStr " 7 "); ("created_at", VStr EmptyString)]) = Ok 7)
    by (vm_compute; reflexivity).
  split; [exact H|].
  destruct (task_from_dict_defaults (noon O)
              [("id", VStr " 7 "); ("created_at", VStr EmptyString)]) as [A B].
  split.
  - destruct (A 7 H) as (task & P & I & T & _ & _ & _ & C & _).
    exists task. split; [exact P|]. split; [exact I|].
    split; [apply T; reflexivity|]. apply C. right. reflexivity.
  - apply (B two_open _ _ eq_refl); reflexivity.
Defined.

(** [clear_completed] with no completed task, and [update_task] with
    neither a title nor a due date, save a Document equal to the one
    they loaded. *)
Lemma unchanged_document_is_saved :
  clear_completed two_open
    = (Ok (VDict [("cleared", VInt 0)]),
       {| file := file two_open; saves := S (saves two_open) |}) /\
  update_task noon (VInt 2) None None two_open
    = (Ok (record 2 "call Ann" false VNone),
       {| file := file two_open; saves := S (saves two_open) |}).
Proof. split; vm_compute; reflexivity. Qed.

Lemma saves_of_an_invocation_witness :
  invoke noon (CompleteTask (VInt 1)) two_open = (Ok one_done_result, one_done) /\
  (one_done = two_open \/
   saves one_done = S (saves two_open) /\ document one_done <> document two_open) /\
  invoke evening (CompleteTask (VInt 1)) one_done = (Ok one_done_result, one_done).
Proof.
  assert (H : invoke noon (CompleteTask (VInt 1)) two_open = (Ok one_done_result, one_done))
    by (vm_compute; reflexivity).
  split; [exact H|]. split; [|vm_compute; reflexivity].
  exact (saves_of_an_invocation _ _ _ _ _ H).
Defined.

Lemma list_tasks_filters_and_orders_witness :
  file three_mixed <> Undecodable /\
  Forall readable (stored three_mixed) /\
  list_tasks evening false three_mixed
    = (Ok (VList [record 1 "buy milk" false VNone;
                  record 3 "write report" false VNone]), three_mixed) /\
  exists listed,
    list_tasks evening false three_mixed = (Ok (VList listed), three_mixed) /\
    Forall (fun v => field "completed" v = Some (VBool false)) listed /\
    StronglySorted Z.le (map shown_id listed).
Proof.
  assert (D : file three_mixed <> Undecodable) by discriminate.
  assert (R : Forall readable (stored three_mixed)) by readable_records.
  split; [exact D|]. split; [exact R|]. split; [vm_compute; reflexivity|].
  destruct (list_tasks_filters_and_orders evening false three_mixed D R)
    as (listed & selected & Run & _ & _ & C & S).
  exists listed. split; [exact Run|]. split; [exact C|exact S].
Defined.

Lemma completed_at_iff_completed_witness :
  Forall consistent (stored fresh) /\
  invoke_all session fresh = (session_results, session_end) /\
  Forall consistent (stored session_end).
Proof.
  assert (C : Forall consistent (stored fresh)) by (evaluate_records; apply Forall_nil).
  assert (R : invoke_all session fresh = (session_results, session_end))
    by (vm_compute; reflexivity).
  split; [exact C|]. split; [exact R|].
  exact (proj1 (completed_at_iff_completed session fresh session_end session_results C R)).
Defined.


Lemma task_id_coerced_with_int_witness :
  py_int one_point_nine = Ok 1 /\
  py_int (VBool true) = Ok 1 /\
  In 1 (ids_of (stored loose_ids)) /\
  Forall readable (stored loose_ids) /\
  complete_task noon one_point_nine loose_ids = complete_task noon (VInt 1) loose_ids /\
  delete_task (VBool true) loose_ids = delete_task (VInt 1) loose_ids /\
  (exists r s',
     complete_task noon one_point_nine loose_ids = (Ok r, s') /\
     field "id" r = Some (VInt 1) /\
     field "title" r = Some (VStr "buy milk") /\
     field "completed" r = Some (VBool true)) /\
  exists s',
    delete_task (VBool true) loose_ids
      = (Ok (VDict [("deleted", VBool true); ("task_id", VInt 1)]), s') /\
    stored s' = tl (stored loose_ids).
Proof.
  assert (F : py_int one_point_nine = Ok 1) by (vm_compute; reflexivity).
  assert (T : py_int (VBool true) = Ok 1) by reflexivity.
  assert (I : In 1 (ids_of (stored loose_ids))) by (vm_compute; left; reflexivity).
  assert (R : Forall readable (stored loose_ids)).
  { evaluate_records.
    repeat (apply Forall_cons; [eexists _, _; split; [reflexivity|];
                                vm_compute; reflexivity|]).
    apply Forall_nil. }
  split; [exact F|]. split; [exact T|]. split; [exact I|]. split; [exact R|].
  destruct (task_id_coerced_with_int noon one_point_nine 1 None None loose_ids F I)
    as (_ & Co & _ & _ & Sel).
  destruct (task_id_coerced_with_int noon (VBool true) 1 None None loose_ids T I)
    as (_ & _ & _ & De & Sel').
  split; [exact Co|]. split; [exact De|]. split.
  - destruct (Sel R) as (before & items & after & E & N & _ & _ & Run & _).
    destruct Run as (r & s' & Run & Id & Ti & Done & _).
    exists r, s'. split; [exact Run|]. split; [exact Id|]. split; [|exact Done].
    rewrite Ti. destruct before as [|t before].
    + cbn [app] in E. vm_compute in E. injection E as <- _. reflexivity.
    + exfalso. apply N. vm_compute in E. injection E as <- _. left. reflexivity.
  - destruct (Sel' R) as (before & items & after & _ & _ & _ & _ & _ & _ & Del).
    destruct Del as (s' & Run & St).
    exists s'. split; [exact Run|]. rewrite St. vm_compute. reflexivity.
Defined.

(** * Further properties of the operations *)

(** ** Records and the file: round trips *)

Lemma read_again (reading reading' : string) (t : value) (task : Task) :
  _task_from_dict reading t = Ok task ->
  _task_from_dict reading' (_serialize_task task) = Ok task.
Proof.
  intros H. destruct t; try discriminate.
  rewrite task_from_dict_items in H.
  destruct (py_int (dict_get "id" VNone items)) as [n|]; [|discriminate].
  injection H as <-. apply (parse_serialize _ _ n); [reflexivity|].
  apply parsed_created_at.
Qed.

(** X1. [_task_from_dict] undoes [_serialize_task]: a task whose id is
    an integer and whose [created_at] is not empty is read back, at any
    time, as it was written.  So what [_task_from_dict] has once read from
    a record it reads again from the dictionary of that task: the
    defaults and the timestamp it filled in are then part of the
    record. *)
Theorem task_round_trip (reading : string) (task : Task) :
  (forall n,
     id task = VInt n -> created_at task <> EmptyString ->
     _task_from_dict reading (_serialize_task task) = Ok task)
  /\
  (forall reading' t,
     _task_from_dict reading' t = Ok task ->
     _task_from_dict reading (_serialize_task task) = Ok task /\
     created_at task <> EmptyString).
Proof.
  split.
  - intros n I C. apply (parse_serialize _ _ n I).
    destruct (created_at task); [contradiction|reflexivity].
  - intros reading' t H. split; [now apply (read_again reading' reading t)|].
    destruct t; try discriminate. rewrite task_from_dict_items in H.
    destruct (py_int (dict_get "id" VNone items)) as [n|]; [|discriminate].
    injection H as <-. pose proof (parsed_created_at reading' items n) as P.
    intros E. rewrite E in P. discriminate.
Qed.

Lemma task_round_trip_witness :
  id (new_task noon (Some "buy milk") None (VInt 4)) = VInt 4 /\
  created_at (new_task noon (Some "buy milk") None (VInt 4)) <> EmptyString /\
  _task_from_dict (evening O)
    (_serialize_task (new_task noon (Some "buy milk") None (VInt 4)))
  = Ok (new_task noon (Some "buy milk") None (VInt 4)).
Proof.
  assert (I : id (new_task noon (Some "buy milk") None (VInt 4)) = VInt 4)
    by reflexivity.
  assert (C : created_at (new_task noon (Some "buy milk") None (VInt 4)) <> EmptyString)
    by discriminate.
  split; [exact I|]. split; [exact C|].
  exact (proj1 (task_round_trip (evening O) _) 4 I C).
Defined.

(** X2. What an invocation has saved is what the next one loads: after
    any invocation the store is as before, or [_save_db] has run once and
    the file holds a dictionary that [_load_db] returns as it is, without
    replacing anything in it. *)
Theorem saved_document_loads_back (clock : nat -> string) (c : call)
    (s s' : store) (r : result value) :
  invoke clock c s = (r, s') ->
  s' = s \/
  exists db',
    file s' = Json (VDict db') /\ saves s' = S (saves s) /\
    _load_db s' = (Ok db', s').
Proof.
  intros H. destruct (load_cases s) as [[db L]|[e0 L]].
  2:{ destruct (invoke_undecodable clock c s e0 L) as [e' E].
      left. congruence. }
  destruct (load_ok _ _ _ L) as (_ & W).
  destruct (allocating c) eqn:A.
  - destruct c as [ti du| | | | |]; try discriminate.
    cbn [allocating] in A. apply negb_true_iff in A. cbn [invoke] in H.
    rewrite (add_task_run _ _ _ _ _ L A) in H. injection H as _ <-.
    right. eexists. split; [reflexivity|]. split; [reflexivity|].
    apply load_saved. now apply well_shaped_add.
  - destruct (invoke_effect _ _ _ _ _ _ L H A) as [->|(v & l & _ & ->)];
      [now left|right].
    eexists. split; [reflexivity|]. split; [reflexivity|].
    apply load_saved. now apply well_shaped_set_tasks.
Qed.

Lemma saved_document_loads_back_witness :
  invoke noon (CompleteTask (VInt 1)) two_open = (Ok one_done_result, one_done) /\
  (one_done = two_open \/
   exists db', file one_done = Json (VDict db') /\
               saves one_done = S (saves two_open) /\
               _load_db one_done = (Ok db', one_done)).
Proof.
  assert (H : invoke noon (CompleteTask (VInt 1)) two_open = (Ok one_done_result, one_done))
    by (vm_compute; reflexivity).
  split; [exact H|]. exact (saved_document_loads_back _ _ _ _ _ H).
Defined.

(** ** Adding a task *)

(** X3. [add_task] with a title that is not blank, on a file that can be
    read: the new record goes last and the records that were there stay as
    they are, in their order; the Document is saved once and [next_id] is
    one more.  The task returned is the record written: its id is
    [next_id] as loaded, its title the title stripped, its [due_date] the
    one given stripped, or [None] when none is given or nothing is left,
    [completed] is false, [completed_at] is [None] and [created_at] is
    the time of the call. *)
Theorem add_task_appends (clock : nat -> string) (title due_date : option string)
    (s : store) :
  file s <> Undecodable ->
  is_empty (stripped_title title) = false ->
  exists r s',
    add_task clock title due_date s = (Ok r, s') /\
    stored s' = stored s ++ [r] /\
    saves s' = S (saves s) /\
    next_number s' = next_number s + 1 /\
    returned_id (Ok r) = [next_number s] /\
    field "title" r = Some (VStr (stripped_title title)) /\
    field "due_date" r = Some (match due_date with
                               | Some due => stored_due_date due
                               | None => VNone
                               end) /\
    field "completed" r = Some (VBool false) /\
    field "created_at" r = Some (VStr (_now_iso (clock O))) /\
    field "completed_at" r = Some VNone.
Proof.
  intros D T. destruct (load_decodable _ D) as [db L].
  destruct (load_ok _ _ _ L) as (_ & W).
  eexists _, _. split; [apply (add_task_run _ _ _ _ _ L T)|].
  rewrite (stored_loaded _ _ L), (next_number_loaded _ _ L).
  unfold stored. rewrite document_saved by now apply well_shaped_add.
  rewrite tasks_of_set_tasks. split; [reflexivity|]. split; [reflexivity|].
  rewrite next_number_saved by now apply well_shaped_add.
  rewrite next_id_of_set_tasks. unfold next_id_of at 1, dict_get at 1.
  rewrite lookup_setitem_same.
  repeat split.
Qed.

Lemma add_task_appends_witness :
  file two_open <> Undecodable /\
  is_empty (stripped_title (Some " water plants ")) = false /\
  exists r s',
    add_task noon (Some " water plants ") (Some "  ") two_open = (Ok r, s') /\
    stored s' = stored two_open ++ [r] /\
    field "title" r = Some (VStr "water plants") /\
    field "due_date" r = Some VNone.
Proof.
  assert (D : file two_open <> Undecodable) by discriminate.
  assert (T : is_empty (stripped_title (Some " water plants ")) = false)
    by (vm_compute; reflexivity).
  split; [exact D|]. split; [exact T|].
  destruct (add_task_appends noon (Some " water plants ") (Some "  ") two_open D T)
    as (r & s' & Run & St & _ & _ & _ & Ti & Du & _).
  exists r, s'. split; [exact Run|]. split; [exact St|]. split; [exact Ti|exact Du].
Defined.

(** ** The order of the checks *)

(** X4. [add_task] checks the title before it opens the file: a title
    that is [None], empty or blank raises the [ValueError] of the title
    and leaves the store alone, whatever the file, even one that cannot be
    read.  [update_task] checks the title it is given only once it has
    found the task: with a blank title it raises the [ValueError] of the
    title when a record has the id, and the [ValueError] "not found" when
    none has; the store is as before in both cases. *)
Theorem title_checked_first (clock : nat -> string) (title due_date : option string)
    (s : store) :
  (is_empty (stripped_title title) = true ->
   add_task clock title due_date s = (Raise (ValueError title_must_be_non_empty), s))
  /\
  (forall task_id n blank,
     file s <> Undecodable ->
     Forall readable (stored s) ->
     py_int task_id = Ok n ->
     is_empty (strip blank) = true ->
     (In n (ids_of (stored s)) ->
      update_task clock task_id (Some blank) due_date s =
      (Raise (ValueError title_must_be_non_empty_provided), s)) /\
     (~ In n (ids_of (stored s)) ->
      update_task clock task_id (Some blank) due_date s =
      (Raise (ValueError (task_id_not_found task_id)), s))).
Proof.
  split; [apply add_task_empty_title|].
  intros task_id n blank D R Hn B. destruct (load_decodable _ D) as [db L].
  rewrite (stored_loaded _ _ L) in *.
  rewrite (update_task_run _ _ _ _ _ _ L). split; intros I.
  - destruct (locate_first task_id n O _ R Hn I) as (before & items & after & _ & Hi & _ & ->).
    rewrite task_from_dict_items, Hi. unfold updated. now rewrite B.
  - now rewrite (locate_absent task_id n O _ R Hn I).
Qed.

Lemma title_checked_first_witness :
  is_empty (stripped_title None) = true /\
  add_task noon None None {| file := Undecodable; saves := 0 |}
    = (Raise (ValueError title_must_be_non_empty), {| file := Undecodable; saves := 0 |}) /\
  file two_open <> Undecodable /\
  Forall readable (stored two_open) /\
  py_int (VInt 2) = Ok 2 /\ py_int (VInt 9) = Ok 9 /\
  is_empty (strip "  ") = true /\
  In 2 (ids_of (stored two_open)) /\
  ~ In 9 (ids_of (stored two_open)) /\
  update_task noon (VInt 2) (Some "  ") None two_open
    = (Raise (ValueError title_must_be_non_empty_provided), two_open) /\
  update_task noon (VInt 9) (Some "  ") None two_open
    = (Raise (ValueError (task_id_not_found (VInt 9))), two_open).
Proof.
  assert (T : is_empty (stripped_title None) = true) by reflexivity.
  assert (D : file two_open <> Undecodable) by discriminate.
  assert (R : Forall readable (stored two_open)) by readable_records.
  assert (B : is_empty (strip "  ") = true) by (vm_compute; reflexivity).
  assert (I : In 2 (ids_of (stored two_open))) by (vm_compute; right; left; reflexivity).
  assert (N : ~ In 9 (ids_of (stored two_open))).
  { vm_compute. intros [H|[H|[]]]; discriminate H. }
  split; [exact T|]. split.
  { exact (proj1 (title_checked_first noon None None
                    {| file := Undecodable; saves := 0 |}) T). }
  split; [exact D|]. split; [exact R|]. split; [reflexivity|]. split; [reflexivity|].
  split; [exact B|]. split; [exact I|]. split; [exact N|]. split.
  - exact (proj1 (proj2 (title_checked_first noon None None two_open)
                    (VInt 2) 2 "  " D R eq_refl B) I).
  - exact (proj2 (proj2 (title_checked_first noon None None two_open)
                    (VInt 9) 9 "  " D R eq_refl B) N).
Defined.

(** ** Updating and completing a task: one record changes *)

Lemma updated_again (title due_date : option string) (task task' : Task) :
  updated title due_date task = Some task' ->
  updated title due_date task' = Some task'.
Proof.
  unfold updated. destruct task as [i ti du co cr ca].
  destruct title as [t|]; [destruct (is_empty (strip t)) eqn:E; [discriminate|]|];
    cbn [option_map]; intros [= <-]; destruct due_date; reflexivity.
Qed.

Lemma updated_created_at (title due_date : option string) (task task' : Task) :
  updated title due_date task = Some task' -> created_at task' = created_at task.
Proof.
  unfold updated. destruct title as [t|];
    [destruct (is_empty (strip t)); [discriminate|]|];
    cbn [option_map]; intros [= <-]; now destruct due_date.
Qed.

(** X5. [update_task] on a file of readable records, with the id of one
    of them and a title that, if given, is not blank: the first record
    with the id is replaced, in its place, by the task returned; the other
    records, their order and [next_id] stay as they are and the Document
    is saved once.  In the task the title is the one given, stripped, or
    else the stored one; [due_date] is the one given, stripped ([None] if
    nothing is left), or else the stored one; the id, [completed] and
    [completed_at] are those of the record, and so is a [created_at] that
    is not empty. *)
Theorem update_task_changes_one (clock : nat -> string) (task_id : value) (n : Z)
    (title due_date : option string) (s : store) :
  file s <> Undecodable ->
  Forall readable (stored s) ->
  py_int task_id = Ok n ->
  In n (ids_of (stored s)) ->
  match title with Some t => is_empty (strip t) = false | None => True end ->
  exists before items after r s',
    stored s = before ++ VDict items :: after /\
    ~ In n (ids_of before) /\
    update_task clock task_id title due_date s = (Ok r, s') /\
    stored s' = before ++ r :: after /\
    saves s' = S (saves s) /\
    next_number s' = next_number s /\
    field "id" r = Some (VInt n) /\
    field "title" r =
      Some (VStr match title with
                 | Some t => strip t
                 | None => py_str (dict_get "title" (VStr EmptyString) items)
                 end) /\
    field "due_date" r =
      Some match due_date with
           | Some due => stored_due_date due
           | None => dict_get "due_date" VNone items
           end /\
    field "completed" r = Some (VBool (is_done (VDict items))) /\
    field "completed_at" r = Some (dict_get "completed_at" VNone items) /\
    (forall c, lookup "created_at" items = Some (VStr c) -> c <> EmptyString ->
               field "created_at" r = Some (VStr c)).
Proof.
  intros D R Hn I T. destruct (load_decodable _ D) as [db L].
  destruct (load_ok _ _ _ L) as (_ & W).
  rewrite (next_number_loaded _ _ L), (stored_loaded _ _ L) in *.
  destruct (locate_first task_id n O _ R Hn I) as (before & items & after & E & Hi & N & F).
  assert (U : exists task',
             updated title due_date (parsed (clock O) items n) = Some task').
  { unfold updated. destruct title as [t|]; [rewrite T|]; now eexists. }
  destruct U as [task' U].
  exists before, items, after, (_serialize_task task'),
         (saved (setitem "tasks" (VList (before ++ _serialize_task task' :: after)) db) s).
  split; [exact E|]. split; [exact N|]. split.
  { rewrite (update_task_run _ _ _ _ _ _ L), F, task_from_dict_items, Hi, U.
    cbn [Nat.add]. rewrite E at 1. now rewrite list_set_middle. }
  split; [now apply stored_saved_tasks|]. split; [reflexivity|]. split.
  { rewrite next_number_saved by now apply well_shaped_set_tasks.
    now rewrite next_id_of_set_tasks. }
  unfold updated in U.
  destruct title as [t|]; [rewrite T in U|]; cbn [option_map] in U;
    injection U as <-; destruct due_date as [due|];
    (repeat split; try reflexivity;
     intros c Hc Ne; cbn; unfold dict_get; rewrite Hc; cbn;
     destruct c; [contradiction|reflexivity]).
Qed.

Lemma update_task_changes_one_witness :
  file two_open <> Undecodable /\
  Forall readable (stored two_open) /\
  py_int (VStr "2") = Ok 2 /\
  In 2 (ids_of (stored two_open)) /\
  is_empty (strip " call Ann back ") = false /\
  exists r s',
    update_task noon (VStr "2") (Some " call Ann back ") (Some "") two_open = (Ok r, s') /\
    field "title" r = Some (VStr "call Ann back") /\
    field "due_date" r = Some VNone /\
    List.length (stored s') = List.length (stored two_open).
Proof.
  assert (D : file two_open <> Undecodable) by discriminate.
  assert (R : Forall readable (stored two_open)) by readable_records.
  assert (P : py_int (VStr "2") = Ok 2) by (vm_compute; reflexivity).
  assert (I : In 2 (ids_of (stored two_open))) by (vm_compute; right; left; reflexivity).
  assert (T : is_empty (strip " call Ann back ") = false) by (vm_compute; reflexivity).
  split; [exact D|]. split; [exact R|]. split; [exact P|]. split; [exact I|].
  split; [exact T|].
  destruct (update_task_changes_one noon (VStr "2") 2 (Some " call Ann back ") (Some "")
              two_open D R P I T)
    as (before & items & after & r & s' & E & _ & Run & E' & _ & _ & _ & Ti & Du & _).
  exists r, s'. split; [exact Run|]. split; [exact Ti|]. split; [exact Du|].
  rewrite E, E', !length_app. reflexivity.
Defined.

(** X6. [update_task] repeated with the same arguments, once it has
    succeeded, returns the same task and writes the same file again: the
    second call changes nothing but the number of saves. *)
Theorem update_task_twice (clock1 clock2 : nat -> string) (task_id : value)
    (title due_date : option string) (s s1 : store) (r : value) :
  update_task clock1 task_id title due_date s = (Ok r, s1) ->
  update_task clock2 task_id title due_date s1 =
  (Ok r, {| file := file s1; saves := S (saves s1) |}).
Proof.
  intros H. destruct (load_cases s) as [[db L]|[e0 L]].
  2:{ destruct (invoke_undecodable clock1 (UpdateTask task_id title due_date) s e0 L)
        as [e' E]. cbn [invoke] in E. congruence. }
  destruct (load_ok _ _ _ L) as (_ & W).
  rewrite (update_task_run _ _ _ _ _ _ L) in H.
  destruct (locate task_id 0 (tasks_of db)) as [[[k t]|]|] eqn:F; try discriminate.
  destruct (locate_found _ _ _ _ _ F) as (before & after & n & Hraw & -> & Ht & Hn & Hb).
  destruct (stored_id_parses (clock1 O) _ _ Ht) as (items & -> & P).
  rewrite P in H.
  destruct (updated title due_date (parsed (clock1 O) items n)) as [task'|] eqn:U;
    [|discriminate].
  rewrite Hraw in H. cbn [Nat.add] in H. rewrite list_set_middle in H.
  injection H as <- <-.
  set (raw' := before ++ _serialize_task task' :: after).
  set (db' := setitem "tasks" (VList raw') db).
  assert (W' : well_shaped db') by now apply well_shaped_set_tasks.
  rewrite (update_task_run clock2 _ _ _ _ db') by now apply load_saved.
  unfold db' at 1. rewrite tasks_of_set_tasks. unfold raw' at 1.
  assert (I' : id task' = VInt n) by (rewrite (updated_id _ _ _ _ U); reflexivity).
  rewrite (locate_at task_id n) by (trivial; now apply stored_id_serialize).
  rewrite (parse_serialize _ task' n I').
  2:{ rewrite (updated_created_at _ _ _ _ U). apply parsed_created_at. }
  rewrite (updated_again _ _ _ _ U). cbn [Nat.add].
  unfold db' at 1. rewrite tasks_of_set_tasks. unfold raw' at 1.
  rewrite list_set_middle. fold raw'.
  replace (setitem "tasks" (VList raw') db') with db'; [reflexivity|].
  symmetry. apply setitem_same. apply lookup_setitem_same.
Qed.

Lemma update_task_twice_witness :
  update_task noon (VInt 1) None (Some "Friday") two_open
    = (Ok due_friday_result, due_friday) /\
  update_task evening (VInt 1) None (Some "Friday") due_friday
    = (Ok due_friday_result, {| file := file due_friday; saves := S (saves due_friday) |}).
Proof.
  assert (H : update_task noon (VInt 1) None (Some "Friday") two_open
              = (Ok due_friday_result, due_friday)) by (vm_compute; reflexivity).
  split; [exact H|]. exact (update_task_twice noon evening _ _ _ _ _ _ H).
Defined.

(** X7. [complete_task] on a file of readable records, with the id of
    one of them: when the first record with the id is open, it is
    replaced, in its place, by the task returned, in which [completed] is
    true and [completed_at] is the time of the call, while the id, the
    title and [due_date] are those of the record; the other records,
    their order and [next_id] stay as they are and the Document is saved
    once. *)
Theorem complete_task_marks_one (clock : nat -> string) (task_id : value) (n : Z)
    (s : store) :
  file s <> Undecodable ->
  Forall readable (stored s) ->
  py_int task_id = Ok n ->
  In n (ids_of (stored s)) ->
  exists before items after,
    stored s = before ++ VDict items :: after /\
    ~ In n (ids_of before) /\
    py_int (dict_get "id" VNone items) = Ok n /\
    (is_done (VDict items) = false ->
     exists r s',
       complete_task clock task_id s = (Ok r, s') /\
       stored s' = before ++ r :: after /\
       saves s' = S (saves s) /\
       next_number s' = next_number s /\
       field "id" r = Some (VInt n) /\
       field "title" r = Some (VStr (py_str (dict_get "title" (VStr EmptyString) items))) /\
       field "due_date" r = Some (dict_get "due_date" VNone items) /\
       field "completed" r = Some (VBool true) /\
       field "completed_at" r = Some (VStr (_now_iso (clock 1%nat)))).
Proof.
  intros D R Hn I. destruct (load_decodable _ D) as [db L].
  destruct (load_ok _ _ _ L) as (_ & W).
  rewrite (next_number_loaded _ _ L), (stored_loaded _ _ L) in *.
  destruct (locate_first task_id n O _ R Hn I) as (before & items & after & E & Hi & N & F).
  exists before, items, after.
  split; [exact E|]. split; [exact N|]. split; [exact Hi|]. intros Open.
  set (task' := mark_completed (parsed (clock O) items n) (_now_iso (clock 1%nat))).
  exists (_serialize_task task'),
         (saved (setitem "tasks" (VList (before ++ _serialize_task task' :: after)) db) s).
  split.
  { rewrite (complete_task_run _ _ _ _ L), F, task_from_dict_items, Hi.
    cbn [is_done] in Open. cbn [parsed completed]. rewrite Open. cbv zeta.
    cbn [Nat.add]. rewrite E at 1. now rewrite list_set_middle. }
  split; [now apply stored_saved_tasks|]. split; [reflexivity|]. split.
  { rewrite next_number_saved by now apply well_shaped_set_tasks.
    now rewrite next_id_of_set_tasks. }
  repeat split.
Qed.

Lemma complete_task_marks_one_witness :
  file two_open <> Undecodable /\
  Forall readable (stored two_open) /\
  py_int one_point_nine = Ok 1 /\
  In 1 (ids_of (stored two_open)) /\
  exists r s',
    complete_task noon one_point_nine two_open = (Ok r, s') /\
    field "completed_at" r = Some (VStr "2026-01-15T12:00:00Z") /\
    List.length (stored s') = List.length (stored two_open).
Proof.
  assert (D : file two_open <> Undecodable) by discriminate.
  assert (R : Forall readable (stored two_open)) by readable_records.
  assert (P : py_int one_point_nine = Ok 1) by (vm_compute; reflexivity).
  assert (I : In 1 (ids_of (stored two_open))) by (vm_compute; left; reflexivity).
  split; [exact D|]. split; [exact R|]. split; [exact P|]. split; [exact I|].
  destruct (complete_task_marks_one noon one_point_nine 1 two_open D R P I)
    as (before & items & after & E & N & Hi & Mark).
  assert (Open : is_done (VDict items) = false).
  { destruct before as [|t before].
    - cbn [app] in E. vm_compute in E. injection E as <- _. reflexivity.
    - exfalso. apply N. vm_compute in E. injection E as <- _. left. reflexivity. }
  destruct (Mark Open) as (r & s' & Run & E' & _ & _ & _ & _ & _ & _ & At).
  exists r, s'. split; [exact Run|]. split; [exact At|].
  rewrite E, E', !length_app. reflexivity.
Defined.

(** ** Clearing the completed tasks *)

Lemma keep_open_dicts (l : list value) :
  Forall (fun t => is_dict t = true) l ->
  keep_open l = Ok (filter (fun t => negb (is_done t)) l).
Proof.
  induction 1 as [|t l Ht _ IH]; [reflexivity|].
  destruct t; try discriminate. cbn [keep_open filter get rbind is_done].
  now rewrite IH.
Qed.

Lemma filter_lengths {A} (f : A -> bool) (l : list A) :
  (List.length (filter f l) + List.length (filter (fun x => negb (f x)) l))%nat
  = List.length l.
Proof.
  induction l as [|x l IH]; [reflexivity|]. cbn [filter].
  destruct (f x); cbn [negb List.length]; lia.
Qed.

Lemma filter_filter_same {A} (f : A -> bool) (l : list A) :
  filter f (filter f l) = filter f l.
Proof.
  induction l as [|x l IH]; [reflexivity|]. cbn [filter].
  destruct (f x) eqn:E; [|exact IH]. cbn [filter]. now rewrite E, IH.
Qed.

Lemma select_none_done (clock : nat -> string) (i : nat) (l : list value) :
  Forall (fun t => is_dict t = true) l ->
  select_tasks clock true i (filter (fun t => negb (is_done t)) l) = Ok [].
Proof.
  intros H. revert i. induction H as [|t l Ht _ IH]; intros i; [reflexivity|].
  cbn [filter]. destruct (is_done t) eqn:E; cbn [negb]; [apply IH|].
  destruct t; try discriminate. cbn [select_tasks get rbind].
  cbn [is_done] in E. rewrite E. cbn [Bool.eqb]. apply IH.
Qed.

Lemma Forall_filter_keep {A} (P : A -> Prop) (f : A -> bool) (l : list A) :
  Forall P l -> Forall P (filter f l).
Proof. intros H. apply (Forall_incl _ l); [apply incl_filter|assumption]. Qed.

(** X8. [clear_completed] on a file whose records are dictionaries:
    the number it returns is the number of completed records; the records
    left are the open ones, in their order, and [next_id] is as it was.
    After it [list_tasks(True)] returns the empty list, and a second
    [clear_completed] returns 0 and leaves the records as they are. *)
Theorem clear_completed_keeps_open (s : store) :
  file s <> Undecodable ->
  Forall (fun t => is_dict t = true) (stored s) ->
  exists s',
    clear_completed s =
    (Ok (VDict [("cleared", VInt (Z.of_nat (List.length (filter is_done (stored s)))))]),
     s') /\
    stored s' = filter (fun t => negb (is_done t)) (stored s) /\
    saves s' = S (saves s) /\
    next_number s' = next_number s /\
    (forall clock, list_tasks clock true s' = (Ok (VList []), s')) /\
    exists s'',
      clear_completed s' = (Ok (VDict [("cleared", VInt 0)]), s'') /\
      stored s'' = stored s'.
Proof.
  intros D R. destruct (load_decodable _ D) as [db L].
  destruct (load_ok _ _ _ L) as (_ & W).
  rewrite (next_number_loaded _ _ L), (stored_loaded _ _ L) in *.
  set (kept := filter (fun t => negb (is_done t)) (tasks_of db)).
  set (db' := setitem "tasks" (VList kept) db).
  assert (W' : well_shaped db') by now apply well_shaped_set_tasks.
  assert (L' : _load_db (saved db' s) = (Ok db', saved db' s)) by now apply load_saved.
  assert (T' : tasks_of db' = kept) by apply tasks_of_set_tasks.
  exists (saved db' s). split.
  { rewrite (clear_completed_run _ _ L), (keep_open_dicts _ R). fold kept db'.
    do 6 f_equal. unfold kept.
    pose proof (filter_lengths is_done (tasks_of db)). lia. }
  split; [now apply stored_saved_tasks|]. split; [reflexivity|]. split.
  { rewrite next_number_saved by assumption. unfold db'.
    now rewrite next_id_of_set_tasks. }
  split.
  - intros clock. rewrite (list_tasks_run _ _ _ _ L'), T'. unfold kept.
    now rewrite (select_none_done clock O _ R).
  - exists (saved (setitem "tasks" (VList kept) db') (saved db' s)). split.
    + rewrite (clear_completed_run _ _ L'), T'.
      rewrite keep_open_dicts by (unfold kept; now apply Forall_filter_keep).
      replace (filter (fun t => negb (is_done t)) kept) with kept
        by (unfold kept; now rewrite filter_filter_same).
      now rewrite Z.sub_diag.
    + rewrite stored_saved_tasks by assumption. unfold db'.
      now rewrite stored_saved_tasks by assumption.
Qed.

Lemma clear_completed_keeps_open_witness :
  file three_mixed <> Undecodable /\
  Forall (fun t => is_dict t = true) (stored three_mixed) /\
  exists s',
    clear_completed three_mixed = (Ok (VDict [("cleared", VInt 1)]), s') /\
    stored s' = [record 3 "write report" false VNone; record 1 "buy milk" false VNone] /\
    list_tasks noon true s' = (Ok (VList []), s').
Proof.
  assert (D : file three_mixed <> Undecodable) by discriminate.
  assert (R : Forall (fun t => is_dict t = true) (stored three_mixed)).
  { evaluate_records. repeat (apply Forall_cons; [reflexivity|]). apply Forall_nil. }
  split; [exact D|]. split; [exact R|].
  destruct (clear_completed_keeps_open three_mixed D R) as (s' & Run & St & _ & _ & Li & _).
  exists s'. split; [exact Run|]. split; [exact St|apply Li].
Defined.

(** ** Deleting: every record with the id goes *)

Lemma filter_other_absent (n : Z) (l : list value) :
  ~ In n (ids_of (filter (other_id n) l)).
Proof.
  unfold ids_of. rewrite in_map_iff. intros (t & E & I).
  apply filter_In in I as [_ I]. unfold other_id in I.
  apply negb_true_iff, Z.eqb_neq in I. contradiction.
Qed.

Lemma not_found_when_absent (clock : nat -> string) (task_id : value) (n : Z)
    (title due_date : option string) (s : store) :
  file s <> Undecodable ->
  Forall readable (stored s) ->
  py_int task_id = Ok n ->
  ~ In n (ids_of (stored s)) ->
  complete_task clock task_id s = (Raise (ValueError (task_id_not_found task_id)), s) /\
  update_task clock task_id title due_date s =
    (Raise (ValueError (task_id_not_found task_id)), s) /\
  delete_task task_id s = (Raise (ValueError (task_id_not_found task_id)), s).
Proof.
  intros D R Hn N. destruct (load_decodable _ D) as [db L].
  rewrite (stored_loaded _ _ L) in *.
  rewrite (complete_task_run _ _ _ _ L), (update_task_run _ _ _ _ _ _ L),
    (delete_task_run _ _ _ L), (locate_absent task_id n O _ R Hn N),
    (keep_others_readable _ _ _ Hn R), filter_absent by assumption.
  now rewrite Nat.eqb_refl.
Qed.

(** X9. [delete_task] on a file of readable records, with an id that
    some record has, removes every record with that id, also when several
    have it, and keeps the others in their order; [next_id] is as it was.
    Afterwards no record has the id: [delete_task], [complete_task] and
    [update_task] with it raise the [ValueError] "not found". *)
Theorem delete_task_removes_every_match (clock : nat -> string) (task_id : value)
    (n : Z) (title due_date : option string) (s : store) :
  file s <> Undecodable ->
  Forall readable (stored s) ->
  py_int task_id = Ok n ->
  In n (ids_of (stored s)) ->
  exists s',
    delete_task task_id s =
    (Ok (VDict [("deleted", VBool true); ("task_id", VInt n)]), s') /\
    stored s' = filter (other_id n) (stored s) /\
    (List.length (stored s') < List.length (stored s))%nat /\
    next_number s' = next_number s /\
    delete_task task_id s' = (Raise (ValueError (task_id_not_found task_id)), s') /\
    complete_task clock task_id s' =
      (Raise (ValueError (task_id_not_found task_id)), s') /\
    update_task clock task_id title due_date s' =
      (Raise (ValueError (task_id_not_found task_id)), s').
Proof.
  intros D R Hn I. destruct (load_decodable _ D) as [db L].
  destruct (load_ok _ _ _ L) as (_ & W).
  rewrite (next_number_loaded _ _ L), (stored_loaded _ _ L) in *.
  pose proof (keep_others_readable _ _ _ Hn R) as K. fold (other_id n) in K.
  pose proof (keep_others_present _ _ _ _ Hn I K) as Ne.
  pose proof (keep_others_length _ _ _ K) as Le.
  destruct (delete_task_run_removed _ _ _ _ L K Ne) as (n' & Hn' & Run).
  replace n' with n in Run by congruence.
  set (s' := saved (setitem "tasks" (VList (filter (other_id n) (tasks_of db))) db) s) in *.
  assert (St : stored s' = filter (other_id n) (tasks_of db))
    by now apply stored_saved_tasks.
  exists s'. split; [exact Run|]. split; [exact St|]. rewrite St.
  split; [lia|]. split.
  { unfold s'. rewrite next_number_saved by now apply well_shaped_set_tasks.
    now rewrite next_id_of_set_tasks. }
  destruct (not_found_when_absent clock task_id n title due_date s') as (A & B & C).
  - apply saved_decodable.
  - rewrite St. now apply Forall_filter_keep.
  - exact Hn.
  - rewrite St. apply filter_other_absent.
  - now repeat split.
Qed.

Lemma delete_task_removes_every_match_witness :
  file twins <> Undecodable /\
  Forall readable (stored twins) /\
  py_int (VInt 1) = Ok 1 /\
  In 1 (ids_of (stored twins)) /\
  exists s',
    delete_task (VInt 1) twins
      = (Ok (VDict [("deleted", VBool true); ("task_id", VInt 1)]), s') /\
    stored s' = [record 2 "call Ann" false VNone] /\
    complete_task noon (VInt 1) s'
      = (Raise (ValueError (task_id_not_found (VInt 1))), s').
Proof.
  assert (D : file twins <> Undecodable) by discriminate.
  assert (R : Forall readable (stored twins)) by readable_records.
  assert (I : In 1 (ids_of (stored twins))) by (vm_compute; left; reflexivity).
  split; [exact D|]. split; [exact R|]. split; [reflexivity|]. split; [exact I|].
  destruct (delete_task_removes_every_match noon (VInt 1) 1 None None twins D R eq_refl I)
    as (s' & Run & St & _ & _ & _ & Co & _).
  exists s'. split; [exact Run|]. split; [exact St|exact Co].
Defined.

(** ** Listing: the two lists share out the records *)

Lemma open_and_done (l : list value) :
  Permutation (filter (fun t => Bool.eqb (is_done t) false) l ++
               filter (fun t => Bool.eqb (is_done t) true) l) l.
Proof.
  induction l as [|t l IH]; [apply perm_nil|]. cbn [filter].
  destruct (is_done t); cbn [Bool.eqb app].
  - apply Permutation_sym, Permutation_cons_app, Permutation_sym, IH.
  - now apply perm_skip.
Qed.

Lemma shows_id (t v : value) : shows t v -> shown_id v = id_or_zero t.
Proof.
  intros (items & n & -> & Hn & Id & _). unfold shown_id. rewrite Id.
  unfold id_or_zero, stored_id. cbn [get rbind]. now rewrite Hn.
Qed.

Lemma shown_ids (l selected : list value) :
  Forall2 shows l selected -> map shown_id selected = ids_of l.
Proof.
  induction 1 as [|t v l sel H _ IH]; [reflexivity|].
  cbn [map ids_of]. f_equal; [now apply shows_id|exact IH].
Qed.

(** X10. On a file of readable records every record is listed by exactly
    one of [list_tasks(False)] and [list_tasks(True)]: every task returned
    by the first has [completed] false, every task returned by the second
    has [completed] true, the two lists have together as many tasks as
    the file has records, and the ids in the returned tasks are the ids of
    the records. *)
Theorem list_tasks_share_out (clock1 clock2 : nat -> string) (s : store) :
  file s <> Undecodable ->
  Forall readable (stored s) ->
  exists open done,
    list_tasks clock1 false s = (Ok (VList open), s) /\
    list_tasks clock2 true s = (Ok (VList done), s) /\
    Forall (fun v => field "completed" v = Some (VBool false)) open /\
    Forall (fun v => field "completed" v = Some (VBool true)) done /\
    (List.length open + List.length done)%nat = List.length (stored s) /\
    Permutation (map shown_id (open ++ done)) (ids_of (stored s)).
Proof.
  intros D R.
  destruct (list_tasks_shown clock1 false s D R)
    as (open & sel1 & Run1 & F1 & P1 & C1 & _).
  destruct (list_tasks_shown clock2 true s D R)
    as (done & sel2 & Run2 & F2 & P2 & C2 & _).
  exists open, done. split; [exact Run1|]. split; [exact Run2|].
  split; [exact C1|]. split; [exact C2|].
  assert (P : Permutation (map shown_id (open ++ done)) (ids_of (stored s))).
  { apply perm_trans with (map shown_id (sel1 ++ sel2)).
    - apply Permutation_map, Permutation_sym, Permutation_app; assumption.
    - rewrite map_app, (shown_ids _ _ F1), (shown_ids _ _ F2).
      unfold ids_of. rewrite <- map_app. apply Permutation_map, open_and_done. }
  split; [|exact P].
  apply Permutation_length in P. unfold ids_of in P.
  rewrite !length_map, length_app in P. exact P.
Qed.

Lemma list_tasks_share_out_witness :
  file three_mixed <> Undecodable /\
  Forall readable (stored three_mixed) /\
  exists open done,
    list_tasks noon false three_mixed = (Ok (VList open), three_mixed) /\
    list_tasks evening true three_mixed = (Ok (VList done), three_mixed) /\
    Forall (fun v => field "completed" v = Some (VBool true)) done /\
    (List.length open + List.length done)%nat = 3%nat.
Proof.
  assert (D : file three_mixed <> Undecodable) by discriminate.
  assert (R : Forall readable (stored three_mixed)) by readable_records.
  split; [exact D|]. split; [exact R|].
  destruct (list_tasks_share_out noon evening three_mixed D R)
    as (open & done & Run1 & Run2 & _ & C2 & Len & _).
  exists open, done. split; [exact Run1|]. split; [exact Run2|].
  split; [exact C2|exact Len].
Defined.

(** ** A store without tasks *)

(** X11. On a file that can be read and holds no task (an absent file, a
    file that is not JSON or has not the top-level shape, an empty
    [tasks]): [list_tasks] returns the empty list; [complete_task],
    [update_task] and [delete_task] raise the [ValueError] "not found"
    for every [task_id], even one that [int] rejects, and for every
    title, even a blank one, since both are looked at only inside the
    loop over the records; [clear_completed] returns 0 and still writes
    the file, which exists afterwards. *)
Theorem no_task_to_find (clock : nat -> string) (s : store) :
  file s <> Undecodable ->
  stored s = [] ->
  (forall is_completed, list_tasks clock is_completed s = (Ok (VList []), s)) /\
  (forall task_id title due_date,
     complete_task clock task_id s =
       (Raise (ValueError (task_id_not_found task_id)), s) /\
     update_task clock task_id title due_date s =
       (Raise (ValueError (task_id_not_found task_id)), s) /\
     delete_task task_id s = (Raise (ValueError (task_id_not_found task_id)), s)) /\
  exists s',
    clear_completed s = (Ok (VDict [("cleared", VInt 0)]), s') /\
    saves s' = S (saves s) /\ stored s' = [] /\
    exists db, file s' = Json (VDict db) /\ document s = Ok db.
Proof.
  intros D E. destruct (load_decodable _ D) as [db L].
  destruct (load_ok _ _ _ L) as (_ & W).
  rewrite (stored_loaded _ _ L) in E.
  split; [|split].
  - intros b. now rewrite (list_tasks_run _ _ _ _ L), E.
  - intros task_id title due_date.
    now rewrite (complete_task_run _ _ _ _ L), (update_task_run _ _ _ _ _ _ L),
      (delete_task_run _ _ _ L), E.
  - eexists. rewrite (clear_completed_run _ _ L), E. cbn [keep_open].
    split; [reflexivity|]. split; [reflexivity|].
    split; [now apply stored_saved_tasks|].
    exists db. split.
    + cbn [saved file]. do 2 f_equal. apply setitem_same.
      destruct W as (n & l & _ & _ & _ & Hl). unfold tasks_of in E.
      rewrite Hl in E. now rewrite Hl, E.
    + unfold document. now rewrite L.
Qed.

Lemma no_task_to_find_witness :
  file fresh <> Undecodable /\
  stored fresh = [] /\
  complete_task noon VNone fresh
    = (Raise (ValueError (task_id_not_found VNone)), fresh) /\
  update_task noon (VList []) (Some " ") None fresh
    = (Raise (ValueError (task_id_not_found (VList []))), fresh) /\
  exists s', clear_completed fresh = (Ok (VDict [("cleared", VInt 0)]), s') /\
             file s' = Json (VDict _default_db).
Proof.
  assert (D : file fresh <> Undecodable) by discriminate.
  assert (E : stored fresh = []) by reflexivity.
  split; [exact D|]. split; [exact E|].
  destruct (no_task_to_find noon fresh D E) as (_ & F & s' & Run & _ & _ & db & Fi & Do).
  split; [exact (proj1 (F VNone None None))|].
  split; [exact (proj1 (proj2 (F (VList []) (Some " ") None)))|].
  exists s'. split; [exact Run|]. rewrite Fi.
  injection Do as <-. reflexivity.
Defined.

(** [next_id] along a sequence of invocations. *)
Lemma next_number_after (calls : list ((nat -> string) * call))
    (s s' : store) (results : list (result value)) :
  file s <> Undecodable ->
  invoke_all calls s = (results, s') ->
  file s' <> Undecodable /\
  next_number s' = next_number s +
    Z.of_nat (List.length (filter (fun cc => allocating (snd cc)) calls)).
Proof.
  revert s s' results.
  induction calls as [|[clock c] calls IH]; intros s s' results D H.
  - cbn in H. injection H as <- <-. cbn. split; [assumption|lia].
  - cbn [invoke_all] in H.
    destruct (invoke clock c s) as [r s1] eqn:I.
    destruct (invoke_all calls s1) as [rs s2] eqn:R.
    injection H as <- <-.
    destruct (invoke_allocates _ _ _ _ _ D I) as (D1 & _ & N).
    destruct (IH _ _ _ D1 R) as (D2 & IH2).
    split; [assumption|]. cbn [filter snd]. rewrite IH2, N.
    destruct (allocating c); cbn [List.length]; lia.
Qed.

(** ** Invariants of the stored records *)

Lemma invoke_keeps_ids (clock : nat -> string) (c : call) (s s' : store)
    (r : result value) :
  file s <> Undecodable ->
  Forall readable (stored s) ->
  NoDup (ids_of (stored s)) ->
  Forall (fun n => n < next_number s) (ids_of (stored s)) ->
  invoke clock c s = (r, s') ->
  file s' <> Undecodable /\
  Forall readable (stored s') /\
  NoDup (ids_of (stored s')) /\
  Forall (fun n => n < next_number s') (ids_of (stored s')) /\
  next_number s <= next_number s'.
Proof.
  intros D R U B H.
  destruct (invoke_allocates _ _ _ _ _ D H) as (D' & _ & N).
  assert (Le : next_number s <= next_number s') by (destruct (allocating c); lia).
  assert (B' : Forall (fun n => n < next_number s') (ids_of (stored s))).
  { rewrite Forall_forall in *. intros n I. specialize (B n I). lia. }
  split; [exact D'|].
  destruct (invoke_stored _ _ _ _ _ D H)
    as [E'|[(A & t & E' & Rt & _ & It)
           |[(before & t & t' & after & E & E' & Rt & It)|(f & E')]]];
    rewrite E' in *; clear E'.
  - now repeat split.
  - rewrite A in N. unfold ids_of. rewrite map_app. cbn [map]. fold (ids_of (stored s)).
    split; [|split; [|split; [|assumption]]].
    + apply Forall_app. split; [assumption|now constructor].
    + rewrite It. apply Permutation_NoDup with (next_number s :: ids_of (stored s)).
      * apply Permutation_cons_append.
      * apply NoDup_cons; [|assumption]. intros I.
        rewrite Forall_forall in B. specialize (B _ I). lia.
    + apply Forall_app. split; [assumption|]. constructor; [lia|constructor].
  - rewrite (ids_of_replace _ _ _ _ It), <- E.
    split; [|split; [|split]]; trivial.
    rewrite E in R. apply (Forall_replace _ _ _ _ _ R Rt).
  - split; [|split; [|split]]; trivial.
    + apply (Forall_incl _ (stored s)); [apply incl_filter|assumption].
    + now apply ids_of_filter_nodup.
    + now apply ids_of_filter_forall.
Qed.

(** X12. The invariants of the data kept by the operations: if the
    records of a file are readable, their ids pairwise distinct and all
    below [next_id] (as in a file that does not exist yet), this is so
    again after every sequence of invocations, and [next_id] has not
    decreased.  No id is ever borne by two records, and [next_id] stays
    above every id in the file. *)
Theorem ids_stay_distinct (calls : list ((nat -> string) * call))
    (s s' : store) (results : list (result value)) :
  file s <> Undecodable ->
  Forall readable (stored s) ->
  NoDup (ids_of (stored s)) ->
  Forall (fun n => n < next_number s) (ids_of (stored s)) ->
  invoke_all calls s = (results, s') ->
  file s' <> Undecodable /\
  Forall readable (stored s') /\
  NoDup (ids_of (stored s')) /\
  Forall (fun n => n < next_number s') (ids_of (stored s')) /\
  next_number s <= next_number s'.
Proof.
  revert s results.
  induction calls as [|[clock c] calls IH]; intros s results D R U B H.
  - cbn in H. injection H as _ <-. repeat split; trivial. lia.
  - cbn [invoke_all] in H.
    destruct (invoke clock c s) as [r s1] eqn:I.
    destruct (invoke_all calls s1) as [rs s2] eqn:Rest.
    injection H as _ <-.
    destruct (invoke_keeps_ids _ _ _ _ _ D R U B I) as (D1 & R1 & U1 & B1 & Le1).
    destruct (IH s1 rs D1 R1 U1 B1 Rest) as (D2 & R2 & U2 & B2 & Le2).
    repeat split; trivial. lia.
Qed.

Lemma ids_stay_distinct_witness :
  file fresh <> Undecodable /\
  Forall readable (stored fresh) /\
  NoDup (ids_of (stored fresh)) /\
  Forall (fun n => n < next_number fresh) (ids_of (stored fresh)) /\
  invoke_all session fresh = (session_results, session_end) /\
  NoDup (ids_of (stored session_end)) /\
  Forall (fun n => n < next_number session_end) (ids_of (stored session_end)).
Proof.
  assert (D : file fresh <> Undecodable) by discriminate.
  assert (R : Forall readable (stored fresh)) by apply Forall_nil.
  assert (U : NoDup (ids_of (stored fresh))) by apply NoDup_nil.
  assert (B : Forall (fun n => n < next_number fresh) (ids_of (stored fresh)))
    by apply Forall_nil.
  assert (H : invoke_all session fresh = (session_results, session_end))
    by (vm_compute; reflexivity).
  split; [exact D|]. split; [exact R|]. split; [exact U|]. split; [exact B|].
  split; [exact H|].
  destruct (ids_stay_distinct session fresh session_end session_results D R U B H)
    as (_ & _ & U' & B' & _).
  split; [exact U'|exact B'].
Defined.

(** Where the records in the file after an invocation come from: a
    record was there before, or it is the task [add_task] has built, or
    the task [complete_task] has marked, or the task [update_task] has
    changed. *)
Lemma invoke_provenance (clock : nat -> string) (c : call) (s s' : store)
    (r : result value) (t' : value) :
  file s <> Undecodable ->
  invoke clock c s = (r, s') ->
  In t' (stored s') ->
  In t' (stored s)
  \/ (exists title due_date db,
        c = AddTask title due_date /\ document s = Ok db /\
        is_empty (stripped_title title) = false /\
        t' = _serialize_task (new_task clock title due_date (next_id_of db)))
  \/ (exists t task stamp,
        In t (stored s) /\ read_as t task /\ completed task = false /\
        t' = _serialize_task (mark_completed task stamp))
  \/ (exists t task task' title due_date,
        In t (stored s) /\ read_as t task /\
        updated title due_date task = Some task' /\
        t' = _serialize_task task').
Proof.
  intros D H. destruct (load_decodable _ D) as [db L].
  destruct (load_ok _ _ _ L) as (_ & W).
  destruct r as [v|e]; [|rewrite (invoke_raise _ _ _ _ _ H); now left].
  assert (Doc : document s = Ok db) by (unfold document; now rewrite L).
  rewrite (stored_loaded _ _ L).
  destruct c as [ti du|b|task_id|task_id|task_id ti du|]; cbn [invoke] in H.
  - destruct (is_empty (stripped_title ti)) eqn:T.
    { rewrite add_task_empty_title in H by assumption. discriminate. }
    rewrite (add_task_run _ _ _ _ _ L T) in H. injection H as _ <-.
    unfold stored. rewrite document_saved by now apply well_shaped_add.
    rewrite tasks_of_set_tasks. intros I. apply in_app_or in I as [I|[<-|[]]].
    + now left.
    + right. left. exists ti, du, db.
      split; [reflexivity|]. split; [exact Doc|]. split; [exact T|reflexivity].
  - rewrite (list_tasks_run _ _ _ _ L) in H.
    destruct (select_tasks _ _ _ _); injection H as _ <-;
      rewrite (stored_loaded _ _ L); now left.
  - rewrite (complete_task_run _ _ _ _ L) in H.
    destruct (locate task_id 0 (tasks_of db)) as [[[k t]|]|] eqn:F; try discriminate.
    destruct (locate_found _ _ _ _ _ F) as (before & after & n & Hraw & -> & Ht & Hn & Hb).
    destruct (stored_id_parses (clock O) _ _ Ht) as (items & -> & P).
    rewrite P in H.
    destruct (completed (parsed (clock O) items n)) eqn:C.
    { injection H as _ <-. rewrite (stored_loaded _ _ L). now left. }
    cbv zeta in H. rewrite Hraw in H. cbn [Nat.add] in H.
    rewrite list_set_middle in H. injection H as _ <-.
    rewrite stored_saved_tasks by assumption. rewrite Hraw.
    intros I. apply in_app_or in I as [I|[<-|I]].
    + left. apply in_or_app. now left.
    + right. right. left. eexists (VDict items), _, _.
      split; [apply in_elt|]. split; [exists (clock O); exact P|].
      split; [exact C|reflexivity].
    + left. apply in_or_app. right. now right.
  - rewrite (delete_task_run _ _ _ L) in H.
    destruct (keep_others task_id (tasks_of db)) as [kept|] eqn:K; [|discriminate].
    destruct (_ =? _)%nat; [discriminate|].
    destruct (py_int task_id); [|discriminate]. injection H as _ <-.
    rewrite stored_saved_tasks by assumption.
    intros I. left. now apply (keep_others_incl _ _ _ K).
  - rewrite (update_task_run _ _ _ _ _ _ L) in H.
    destruct (locate task_id 0 (tasks_of db)) as [[[k t]|]|] eqn:F; try discriminate.
    destruct (locate_found _ _ _ _ _ F) as (before & after & n & Hraw & -> & Ht & Hn & Hb).
    destruct (stored_id_parses (clock O) _ _ Ht) as (items & -> & P).
    rewrite P in H.
    destruct (updated ti du (parsed (clock O) items n)) as [task'|] eqn:U; [|discriminate].
    rewrite Hraw in H. cbn [Nat.add] in H.
    rewrite list_set_middle in H. injection H as _ <-.
    rewrite stored_saved_tasks by assumption. rewrite Hraw.
    intros I. apply in_app_or in I as [I|[<-|I]].
    + left. apply in_or_app. now left.
    + right. right. right. eexists (VDict items), _, task', ti, du.
      split; [apply in_elt|]. split; [exists (clock O); exact P|].
      split; [exact U|reflexivity].
    + left. apply in_or_app. right. now right.
  - rewrite (clear_completed_run _ _ L) in H.
    destruct (keep_open (tasks_of db)) as [kept|] eqn:K; [|discriminate].
    injection H as _ <-.
    rewrite stored_saved_tasks by assumption.
    intros I. left. now apply (keep_open_incl _ _ K).
Qed.

Lemma canonical_read (t : value) (task : Task) :
  canonical t -> read_as t task -> t = _serialize_task task /\ written task.
Proof.
  intros (task0 & -> & Wr) [reading H].
  assert (P : _task_from_dict reading (_serialize_task task0) = Ok task0).
  { destruct Wr as ((n & I) & _ & Cr & _). apply (parse_serialize _ _ n I).
    destruct (created_at task0); [contradiction|reflexivity]. }
  rewrite P in H. injection H as <-. now split.
Qed.

Lemma written_new_task (clock : nat -> string) (title due_date : option string)
    (n : Z) :
  is_empty (stripped_title title) = false ->
  written (new_task clock title due_date (VInt n)).
Proof.
  intros T. unfold written, new_task. cbn.
  split; [now exists n|]. split.
  { intros E. rewrite E in T. discriminate. }
  split.
  { intros E. pose proof (now_iso_not_empty (clock O)) as N. rewrite E in N. discriminate. }
  split; [|reflexivity].
  destruct due_date as [d|]; [|now left].
  destruct (is_empty (strip d)) eqn:E; [now left|right].
  exists (strip d). split; [reflexivity|]. intros Z. rewrite Z in E. discriminate.
Qed.

Lemma written_mark_completed (task : Task) (stamp : string) :
  written task -> written (mark_completed task stamp).
Proof.
  intros (I & Ti & Cr & Du & _). unfold written, mark_completed. cbn.
  repeat split; trivial. now exists stamp.
Qed.

Lemma written_updated (title due_date : option string) (task task' : Task) :
  written task -> updated title due_date task = Some task' -> written task'.
Proof.
  intros (I & Ti & Cr & Du & Co) U. unfold updated in U.
  assert (Due : forall d,
            stored_due_date d = VNone \/
            exists x, stored_due_date d = VStr x /\ x <> EmptyString).
  { intros d. unfold stored_due_date. destruct (is_empty (strip d)) eqn:E; [now left|].
    right. exists (strip d). split; [reflexivity|]. intros Z. rewrite Z in E. discriminate. }
  destruct title as [t|].
  - destruct (is_empty (strip t)) eqn:E; [discriminate|]. cbn [option_map] in U.
    assert (Ne : strip t <> EmptyString) by (intros Z; rewrite Z in E; discriminate).
    injection U as <-. destruct due_date as [d|]; unfold written; cbn;
      repeat split; trivial. apply Due.
  - cbn [option_map] in U. injection U as <-.
    destruct due_date as [d|]; unfold written; cbn; repeat split; trivial. apply Due.
Qed.

Lemma invoke_tidy (clock : nat -> string) (c : call) (s s' : store)
    (r : result value) :
  tidy s -> invoke clock c s = (r, s') -> tidy s'.
Proof.
  intros (D & (db & n & Doc & Nx) & C) H.
  destruct (load_decodable _ D) as [db0 L].
  assert (db0 = db) by (unfold document in Doc; rewrite L in Doc; now injection Doc).
  subst db0. destruct (load_ok _ _ _ L) as (_ & W).
  destruct (invoke_allocates _ _ _ _ _ D H) as (D' & _ & _).
  split; [exact D'|]. split.
  - destruct (allocating c) eqn:A.
    + destruct c as [ti du| | | | |]; try discriminate.
      cbn [allocating] in A. apply negb_true_iff in A. cbn [invoke] in H.
      rewrite (add_task_run _ _ _ _ _ L A) in H. injection H as _ <-.
      eexists _, _. split; [apply document_saved; now apply well_shaped_add|].
      rewrite next_id_of_set_tasks. unfold next_id_of at 1, dict_get at 1.
      now rewrite lookup_setitem_same.
    + destruct (invoke_effect _ _ _ _ _ _ L H A) as [->|(v & l & _ & ->)].
      * now exists db, n.
      * exists (setitem "tasks" (VList l) db), n.
        split; [apply document_saved; now apply well_shaped_set_tasks|].
        now rewrite next_id_of_set_tasks.
  - apply Forall_forall. intros t' I. rewrite Forall_forall in C.
    destruct (invoke_provenance _ _ _ _ _ _ D H I)
      as [I0|[(ti & du & db1 & -> & Doc1 & T & ->)
             |[(t & task & stamp & It & Rt & _ & ->)
              |(t & task & task' & ti & du & It & Rt & U & ->)]]].
    + now apply C.
    + replace db1 with db by congruence. rewrite Nx.
      eexists. split; [reflexivity|]. now apply written_new_task.
    + destruct (canonical_read _ _ (C _ It) Rt) as (_ & Wr).
      eexists. split; [reflexivity|]. now apply written_mark_completed.
    + destruct (canonical_read _ _ (C _ It) Rt) as (_ & Wr).
      eexists. split; [reflexivity|]. now apply (written_updated ti du task).
Qed.

Lemma fresh_tidy : tidy fresh.
Proof.
  split; [discriminate|]. split; [|apply Forall_nil].
  now exists _default_db, 1.
Qed.

(** X13. The records the operations write are canonical: starting from a
    file that does not exist yet (or from any store in which [next_id] is
    an integer proper and every record is canonical), after every
    sequence of invocations every record in the file is the dictionary of
    a task with an integer id, a title and a [created_at] that are not
    empty, a [due_date] that is [None] or a string that is not empty,
    and a [completed_at] that is a string if the task is completed and
    [None] if it is not. *)
Theorem records_stay_canonical (calls : list ((nat -> string) * call))
    (s s' : store) (results : list (result value)) :
  tidy s ->
  invoke_all calls s = (results, s') ->
  tidy s'.
Proof.
  revert s results. induction calls as [|[clock c] calls IH]; intros s results T H.
  - cbn in H. now injection H as _ <-.
  - cbn [invoke_all] in H.
    destruct (invoke clock c s) as [r s1] eqn:I.
    destruct (invoke_all calls s1) as [rs s2] eqn:R.
    injection H as _ <-. apply (IH s1 rs); [|assumption].
    now apply (invoke_tidy _ _ _ _ _ T I).
Qed.

Lemma records_stay_canonical_witness :
  tidy fresh /\
  invoke_all session fresh = (session_results, session_end) /\
  Forall canonical (stored session_end).
Proof.
  assert (R : invoke_all session fresh = (session_results, session_end))
    by (vm_compute; reflexivity).
  split; [exact fresh_tidy|]. split; [exact R|].
  exact (proj2 (proj2 (records_stay_canonical session fresh session_end session_results
                         fresh_tidy R))).
Defined.

(** ** Listing canonical records *)

Lemma select_canonical (b : bool) (l : list value) :
  Forall canonical l ->
  exists selected,
    (forall clock i, select_tasks clock b i l = Ok selected) /\
    map _serialize_task selected = filter (fun t => Bool.eqb (is_done t) b) l.
Proof.
  induction 1 as [|t l (task & -> & Wr) _ (rest & Sel & Map)].
  - exists []. now split.
  - assert (P : forall reading, _task_from_dict reading (_serialize_task task) = Ok task).
    { intros reading. destruct Wr as ((n & I) & _ & Cr & _).
      apply (parse_serialize _ _ n I).
      destruct (created_at task); [contradiction|reflexivity]. }
    cbn [filter]. change (is_done (_serialize_task task)) with (completed task).
    destruct (Bool.eqb (completed task) b) eqn:E.
    + exists (task :: rest). split.
      * intros clock i. cbn [select_tasks]. rewrite P.
        change (get (_serialize_task task) "completed" (VBool false))
          with (@Ok value (VBool (completed task))).
        cbn [rbind py_bool]. rewrite E. cbn [rbind]. now rewrite Sel.
      * cbn [map]. now rewrite Map.
    + exists rest. split; [|exact Map].
      intros clock i. cbn [select_tasks].
      change (get (_serialize_task task) "completed" (VBool false))
        with (@Ok value (VBool (completed task))).
      cbn [rbind py_bool]. rewrite E. apply Sel.
Qed.

(** X14. On a file whose records are canonical, [list_tasks] returns the
    records themselves, as they are in the file: those whose [completed]
    is [is_completed], each once.  The result does not depend on the
    clock: nothing is filled in. *)
Theorem list_tasks_returns_records (clock : nat -> string) (is_completed : bool)
    (s : store) :
  file s <> Undecodable ->
  Forall canonical (stored s) ->
  exists listed,
    list_tasks clock is_completed s = (Ok (VList listed), s) /\
    Permutation listed
      (filter (fun t => Bool.eqb (is_done t) is_completed) (stored s)) /\
    forall clock', list_tasks clock' is_completed s = (Ok (VList listed), s).
Proof.
  intros D C. destruct (load_decodable _ D) as [db L].
  rewrite (stored_loaded _ _ L) in *.
  destruct (select_canonical is_completed _ C) as (selected & Sel & Map).
  exists (map _serialize_task (sort selected)).
  split; [now rewrite (list_tasks_run _ _ _ _ L), Sel|]. split.
  - rewrite <- Map. apply Permutation_map, sort_permutation.
  - intros clock'. now rewrite (list_tasks_run _ _ _ _ L), Sel.
Qed.

Lemma list_tasks_returns_records_witness :
  file three_mixed <> Undecodable /\
  Forall canonical (stored three_mixed) /\
  list_tasks evening false three_mixed
    = (Ok (VList [record 1 "buy milk" false VNone;
                  record 3 "write report" false VNone]), three_mixed) /\
  exists listed,
    list_tasks noon false three_mixed = (Ok (VList listed), three_mixed) /\
    list_tasks evening false three_mixed = (Ok (VList listed), three_mixed).
Proof.
  assert (D : file three_mixed <> Undecodable) by discriminate.
  assert (C : Forall canonical (stored three_mixed)).
  { evaluate_records.
    repeat (apply Forall_cons;
            [eexists (mkTask _ _ _ _ _ _); split; [reflexivity|];
             cbn; repeat split;
             try discriminate; try (now eexists); try (now left)|]).
    apply Forall_nil. }
  split; [exact D|]. split; [exact C|]. split; [vm_compute; reflexivity|].
  destruct (list_tasks_returns_records noon false three_mixed D C)
    as (listed & Run & _ & Any).
  exists listed. split; [exact Run|apply Any].
Defined.

(** ** Completed tasks stay completed *)

Lemma read_as_done (t : value) (task : Task) :
  read_as t task -> completed task = is_done t.
Proof.
  intros [reading H]. destruct t; try discriminate.
  rewrite task_from_dict_items in H.
  destruct (py_int (dict_get "id" VNone items)); [|discriminate].
  now injection H as <-.
Qed.

Lemma updated_completed (title due_date : option string) (task task' : Task) :
  updated title due_date task = Some task' -> completed task' = completed task.
Proof.
  unfold updated. destruct title as [t|];
    [destruct (is_empty (strip t)); [discriminate|]|];
    cbn [option_map]; intros [= <-]; now destruct due_date.
Qed.

Lemma same_id_same_record (l : list value) (a b : value) :
  NoDup (ids_of l) -> In a l -> In b l -> id_or_zero a = id_or_zero b -> a = b.
Proof.
  induction l as [|t l IH]; [intros _ []|].
  cbn [ids_of map]. intros U Ia Ib E. apply NoDup_cons_iff in U as [U1 U2].
  assert (Out : forall x, In x l -> id_or_zero x <> id_or_zero t).
  { intros x Ix Ex. apply U1. rewrite <- Ex. now apply in_map. }
  destruct Ia as [<-|Ia], Ib as [<-|Ib]; trivial.
  - exfalso. now apply (Out b Ib).
  - exfalso. now apply (Out a Ia).
  - now apply IH.
Qed.

(** X15. No operation reopens a task.  In a store whose records are
    readable with ids pairwise distinct and below [next_id], whatever
    else they hold, a record that is completed before an
    invocation is, if a record with its id is still in the file
    afterwards, completed afterwards: only [delete_task] and
    [clear_completed] take it away, [update_task] copies [completed], and
    [add_task] never reuses its id. *)
Theorem completed_stays_completed (clock : nat -> string) (c : call)
    (s s' : store) (r : result value) (t t' : value) :
  file s <> Undecodable ->
  Forall readable (stored s) ->
  NoDup (ids_of (stored s)) ->
  Forall (fun n => n < next_number s) (ids_of (stored s)) ->
  invoke clock c s = (r, s') ->
  In t (stored s) -> is_done t = true ->
  In t' (stored s') -> id_or_zero t' = id_or_zero t ->
  is_done t' = true.
Proof.
  intros D R U B H It Dt It' E.
  destruct (invoke_provenance _ _ _ _ _ _ D H It')
    as [I0|[(ti & du & db & -> & Doc & T & ->)
           |[(t0 & task & stamp & _ & _ & _ & ->)
            |(t0 & task & task' & ti & du & I0 & Rt & Up & ->)]]].
  - now rewrite (same_id_same_record _ _ _ U I0 It E).
  - exfalso. rewrite Forall_forall in B.
    assert (Lt : id_or_zero t < next_number s) by (apply B; now apply in_map).
    unfold next_number in Lt. rewrite Doc in Lt.
    destruct (load_decodable _ D) as [db0 L].
    assert (db0 = db) by (unfold document in Doc; rewrite L in Doc; now injection Doc).
    subst db0. destruct (load_ok _ _ _ L) as (_ & n & l & Hn & Hi & _).
    assert (P : id_or_zero (_serialize_task (new_task clock ti du (next_id_of db)))
                = int_value (next_id_of db)).
    { unfold id_or_zero, stored_id, next_id_of, dict_get. cbn. rewrite Hn.
      destruct n as [|[|]| | | | |]; try discriminate; reflexivity. }
    rewrite P in E. lia.
  - reflexivity.
  - assert (Ids : id_or_zero (_serialize_task task') = id_or_zero t0).
    { rewrite <- (read_as_id _ _ Rt), <- (updated_id _ _ _ _ Up).
      destruct Rt as [reading Rt]. destruct t0; try discriminate.
      rewrite task_from_dict_items in Rt.
      destruct (py_int (dict_get "id" VNone items)) as [m|]; [|discriminate].
      injection Rt as <-. apply updated_id in Up. cbn [parsed id] in Up.
      unfold id_or_zero, stored_id. cbn. now rewrite Up. }
    rewrite Ids in E. rewrite (same_id_same_record _ _ _ U I0 It E) in *.
    change (is_done (_serialize_task task')) with (completed task').
    now rewrite (updated_completed _ _ _ _ Up), (read_as_done _ _ Rt).
Qed.

Lemma completed_stays_completed_witness :
  file session_end <> Undecodable /\
  Forall readable (stored session_end) /\
  NoDup (ids_of (stored session_end)) /\
  Forall (fun n => n < next_number session_end) (ids_of (stored session_end)) /\
  invoke evening (UpdateTask (VInt 1) (Some "buy oat milk") None) session_end
    = (Ok milk_renamed, session_renamed) /\
  In milk_done (stored session_end) /\ is_done milk_done = true /\
  In milk_renamed (stored session_renamed) /\
  id_or_zero milk_renamed = id_or_zero milk_done /\
  is_done milk_renamed = true.
Proof.
  assert (S : sound session_end).
  { apply (invoke_all_sound session fresh session_end session_results fresh_sound).
    vm_compute. reflexivity. }
  destruct S as (D & R & U & B & _).
  assert (H : invoke evening (UpdateTask (VInt 1) (Some "buy oat milk") None) session_end
              = (Ok milk_renamed, session_renamed)) by (vm_compute; reflexivity).
  assert (I : In milk_done (stored session_end)) by (vm_compute; left; reflexivity).
  assert (Dn : is_done milk_done = true) by reflexivity.
  assert (I' : In milk_renamed (stored session_renamed)) by (vm_compute; left; reflexivity).
  assert (E : id_or_zero milk_renamed = id_or_zero milk_done) by reflexivity.
  split; [exact D|]. split; [exact R|]. split; [exact U|]. split; [exact B|].
  split; [exact H|]. split; [exact I|]. split; [exact Dn|].
  split; [exact I'|]. split; [exact E|].
  exact (completed_stays_completed _ _ _ _ _ _ _ D R U B H I Dn I' E).
Defined.

(** ** A task that has just been added *)

Lemma others_below (task_id : value) (n : Z) (l : list value) :
  Forall readable l -> Forall (fun m => m < n) (ids_of l) ->
  Forall (fun u => exists m, stored_id u = Ok m /\ m <> n) l /\ ~ In n (ids_of l).
Proof.
  intros R B. split.
  - rewrite Forall_forall in *. intros u Iu.
    destruct (proj1 (readable_stored_id u) (R u Iu)) as [m Hm]. exists m.
    split; [exact Hm|]. specialize (B (id_or_zero u) (in_map _ _ _ Iu)).
    rewrite (id_or_zero_stored _ _ Hm) in B. lia.
  - intros I. rewrite Forall_forall in B. specialize (B n I). lia.
Qed.

Lemma Forall2_shown {A B} (P : A -> B -> Prop) (l : list A) (l' : list B) (x : A) :
  Forall2 P l l' -> In x l -> exists y, In y l' /\ P x y.
Proof.
  induction 1 as [|a b l l' H _ IH]; [intros []|].
  intros [<-|I].
  - exists b. split; [now left|exact H].
  - destruct (IH I) as (y & Iy & Py). exists y. split; [now right|exact Py].
Qed.

(** X16. The id [add_task] returns finds the task it has added.  On a
    store whose records are readable with pairwise distinct ids below
    [next_id], after [add_task] has returned a task with the id [n]:
    [list_tasks(False)] returns a list in which a task has the id [n],
    the title that [add_task] returned and [completed] false;
    [complete_task(n)] completes that task, returning it with the title,
    [due_date] and [created_at] that [add_task] returned; and
    [delete_task(n)] removes it and nothing else, so that the records are
    those from before the [add_task]. *)
Theorem added_task_is_found (clock clock' : nat -> string)
    (title due_date : option string) (s : store) :
  file s <> Undecodable ->
  Forall readable (stored s) ->
  NoDup (ids_of (stored s)) ->
  Forall (fun n => n < next_number s) (ids_of (stored s)) ->
  is_empty (stripped_title title) = false ->
  exists r s1,
    add_task clock title due_date s = (Ok r, s1) /\
    returned_id (Ok r) = [next_number s] /\
    (exists listed v,
       list_tasks clock' false s1 = (Ok (VList listed), s1) /\
       In v listed /\
       field "id" v = Some (VInt (next_number s)) /\
       field "title" v = field "title" r /\
       field "completed" v = Some (VBool false)) /\
    (exists r' s2,
       complete_task clock' (VInt (next_number s)) s1 = (Ok r', s2) /\
       field "id" r' = Some (VInt (next_number s)) /\
       field "completed" r' = Some (VBool true) /\
       field "title" r' = field "title" r /\
       field "due_date" r' = field "due_date" r /\
       field "created_at" r' = field "created_at" r) /\
    (exists s2,
       delete_task (VInt (next_number s)) s1 =
       (Ok (VDict [("deleted", VBool true); ("task_id", VInt (next_number s))]), s2) /\
       stored s2 = stored s).
Proof.
  intros D R U B T. destruct (load_decodable _ D) as [db L].
  destruct (load_ok _ _ _ L) as (_ & W).
  rewrite (next_number_loaded _ _ L), (stored_loaded _ _ L) in *.
  set (N := int_value (next_id_of db)) in *.
  set (task := new_task clock title due_date (next_id_of db)).
  set (rec := _serialize_task task).
  set (db1 := setitem "tasks" (VList (tasks_of db ++ [rec]))
                (setitem "next_id" (VInt (N + 1)) db)).
  assert (W1 : well_shaped db1) by now apply well_shaped_add.
  assert (L1 : _load_db (saved db1 s) = (Ok db1, saved db1 s)) by now apply load_saved.
  assert (T1 : tasks_of db1 = tasks_of db ++ [rec]) by apply tasks_of_set_tasks.
  assert (Py : py_int (next_id_of db) = Ok N).
  { destruct W as (n & l & Hn & Hi & _). unfold N, next_id_of, dict_get. rewrite Hn.
    destruct n as [|[|]| | | | |]; try discriminate; reflexivity. }
  assert (Sid : stored_id rec = Ok N) by exact Py.
  assert (Rrec : readable rec) by (apply readable_stored_id; now exists N).
  assert (R1 : Forall readable (tasks_of db ++ [rec])).
  { apply Forall_app. split; [assumption|now constructor]. }
  destruct (others_below (VInt N) N _ R B) as (Oth & Out).
  exists rec, (saved db1 s).
  split; [exact (add_task_run _ _ _ _ _ L T)|]. split; [reflexivity|].
  split; [|split].
  - destruct (list_tasks_shown clock' false (saved db1 s))
      as (listed & selected & Run & F2 & P & _).
    { apply saved_decodable. }
    { rewrite (stored_loaded _ _ L1), T1. exact R1. }
    rewrite (stored_loaded _ _ L1), T1, filter_app in F2.
    destruct (Forall2_shown _ _ _ rec F2) as (v & Iv & Sv).
    { apply in_or_app. right. left. reflexivity. }
    exists listed, v. split; [exact Run|].
    split; [exact (Permutation_in _ P Iv)|].
    destruct Sv as (items & n & Ei & Hn & Id & Ti & _ & Co & _).
    unfold rec, _serialize_task in Ei. injection Ei as <-.
    assert (n = N) by (change (py_int (next_id_of db) = Ok n) in Hn; congruence).
    subst n. split; [exact Id|]. split; [exact Ti|exact Co].
  - rewrite (complete_task_run _ _ _ _ L1), T1.
    rewrite (locate_at (VInt N) N O (tasks_of db) [] rec eq_refl Sid Oth).
    destruct (stored_id_parses (clock' O) _ _ Sid) as (items & Ei & P).
    rewrite P. unfold rec, _serialize_task in Ei. injection Ei as <-.
    cbn [parsed completed dict_get lookup String.eqb Ascii.eqb Bool.eqb py_bool].
    cbv zeta. cbn [Nat.add]. rewrite list_set_middle.
    eexists _, _. split; [reflexivity|]. repeat split.
    cbn -[_now_iso]. now rewrite now_iso_not_empty.
  - pose proof (keep_others_readable (VInt N) N _ eq_refl R1) as K.
    rewrite filter_app in K. rewrite (filter_absent _ _ Out) in K.
    cbn [filter] in K. rewrite (id_or_zero_stored _ _ Sid), Z.eqb_refl in K.
    cbn [negb] in K. rewrite app_nil_r in K. rewrite <- T1 in K.
    destruct (delete_task_run_removed _ _ _ _ L1 K) as (n' & Hn' & Run).
    { rewrite T1, length_app. cbn [List.length]. lia. }
    injection Hn' as <-.
    eexists. split; [exact Run|]. now apply stored_saved_tasks.
Qed.

Lemma added_task_is_found_witness :
  file fresh <> Undecodable /\
  Forall readable (stored fresh) /\
  NoDup (ids_of (stored fresh)) /\
  Forall (fun n => n < next_number fresh) (ids_of (stored fresh)) /\
  is_empty (stripped_title (Some "buy milk")) = false /\
  exists r s1,
    add_task noon (Some "buy milk") None fresh = (Ok r, s1) /\
    returned_id (Ok r) = [1] /\
    (exists listed v,
       list_tasks evening false s1 = (Ok (VList listed), s1) /\
       In v listed /\ field "id" v = Some (VInt 1)) /\
    exists s2,
      delete_task (VInt 1) s1
        = (Ok (VDict [("deleted", VBool true); ("task_id", VInt 1)]), s2) /\
      stored s2 = [].
Proof.
  assert (D : file fresh <> Undecodable) by discriminate.
  assert (R : Forall readable (stored fresh)) by apply Forall_nil.
  assert (U : NoDup (ids_of (stored fresh))) by apply NoDup_nil.
  assert (B : Forall (fun n => n < next_number fresh) (ids_of (stored fresh)))
    by apply Forall_nil.
  assert (T : is_empty (stripped_title (Some "buy milk")) = false)
    by (vm_compute; reflexivity).
  split; [exact D|]. split; [exact R|]. split; [exact U|]. split; [exact B|].
  split; [exact T|].
  destruct (added_task_is_found noon evening (Some "buy milk") None fresh D R U B T)
    as (r & s1 & Run & Id & (listed & v & Li & Iv & Vi & _) & _ & s2 & Del & St).
  exists r, s1. split; [exact Run|]. split; [exact Id|]. split.
  - exists listed, v. split; [exact Li|]. split; [exact Iv|exact Vi].
  - exists s2. split; [exact Del|exact St].
Defined.

(** ** A file that is not text *)

(** X17. [_load_db] catches [json.JSONDecodeError] only.  When the bytes
    of the file are not UTF-8, reading it raises [UnicodeDecodeError],
    and so does every invocation that gets as far as [_load_db], that is
    every one but [add_task] with a blank title; the file is left as it
    is. *)
Theorem undecodable_file_stops_everything (clock : nat -> string) (c : call)
    (s : store) :
  file s = Undecodable ->
  invoke clock c s =
  (Raise match c with
         | AddTask title _ =>
             if is_empty (stripped_title title)
             then ValueError title_must_be_non_empty else UnicodeDecodeError
         | _ => UnicodeDecodeError
         end, s).
Proof.
  intros F.
  assert (L : _load_db s = (Raise UnicodeDecodeError, s))
    by (unfold _load_db; now rewrite F).
  destruct c as [ti du|b|task_id|task_id|task_id ti du|]; cbn [invoke].
  - unfold add_task. fold (stripped_title ti).
    destruct (is_empty (stripped_title ti)); [reflexivity|].
    unfold bind at 1. now rewrite L.
  - unfold list_tasks, bind at 1. now rewrite L.
  - unfold complete_task, bind at 1. now rewrite L.
  - unfold delete_task, bind at 1. now rewrite L.
  - unfold update_task, bind at 1. now rewrite L.
  - unfold clear_completed, bind at 1. now rewrite L.
Qed.

Lemma undecodable_file_stops_everything_witness :
  file {| file := Undecodable; saves := 0 |} = Undecodable /\
  invoke noon (ListTasks false) {| file := Undecodable; saves := 0 |}
    = (Raise UnicodeDecodeError, {| file := Undecodable; saves := 0 |}) /\
  invoke noon (AddTask (Some "buy milk") None) {| file := Undecodable; saves := 0 |}
    = (Raise UnicodeDecodeError, {| file := Undecodable; saves := 0 |}).
Proof.
  split; [reflexivity|]. split.
  - exact (undecodable_file_stops_everything noon (ListTasks false)
             {| file := Undecodable; saves := 0 |} eq_refl).
  - exact (undecodable_file_stops_everything noon (AddTask (Some "buy milk") None)
             {| file := Undecodable; saves := 0 |} eq_refl).
Defined.
